(** * Minesweeper: a shallow embedding of [minesweeper.py]

    The classes [Board] and [Game] of the program are embedded as state
    passing functions over a record that has the attributes of the Python
    [Board] object.  Exceptions are explicit outcomes, the dictionary
    [self.board] is a finite map keyed by integer pairs and the list
    [self.uncovered] is a list. *)

From stdpp Require Import gmap strings list fin_maps pretty.
From Stdlib Require Import ZArith Lia Ascii.

Local Open Scope Z_scope.

(** ** Data model *)

(** A coordinate pair [(r, c)]: Python integers, possibly negative. *)
Abbreviation cell := (Z * Z)%type.

(** A cell of [self.board] holds an [int] or the string ['*'].  The
    program only ever stores 0, a [len(...)] or the [int] of a digit, so
    the integer is a natural number. *)
Inductive value : Type :=
| Num (n : nat)
| Mine.

Global Instance value_eq_dec : EqDecision value.
Proof. solve_decision. Defined.

Inductive GameStatus : Type := NotStarted | InProgress | Win | Lose.

Inductive RippleTypes : Type := Simple | Recursive | Queue.

Inductive exn : Type :=
| SizeOutOfBoundException
| ScatterException
| BoardFormatException
| DimensionsMismatchException
| IllegalIndicesException
| IllegalMoveException
| KeyError
| IndexError.

Inductive outcome (A : Type) : Type :=
| Return (a : A)
| Raise (e : exn).
Arguments Return {A} a.
Arguments Raise {A} e.

Record Board : Type := mkBoard {
  rows : Z;
  columns : Z;
  startState : bool;
  board : gmap cell value;
  uncovered : list cell
}.

Definition set_board (g : gmap cell value) (b : Board) : Board :=
  mkBoard (rows b) (columns b) (startState b) g (uncovered b).
Definition set_uncovered (u : list cell) (b : Board) : Board :=
  mkBoard (rows b) (columns b) (startState b) (board b) u.
Definition set_startState (s : bool) (b : Board) : Board :=
  mkBoard (rows b) (columns b) s (board b) (uncovered b).

(** ** Methods as state passing computations

    A method returns or raises, and leaves a [Board] behind in both cases. *)
Definition M (A : Type) : Type := Board → outcome A * Board.

Definition ret {A} (a : A) : M A := λ b, (Return a, b).
Definition bind {A B} (m : M A) (k : A → M B) : M B := λ b,
  match m b with
  | (Return a, b') => k a b'
  | (Raise e, b') => (Raise e, b')
  end.

Notation "'let*' x ':=' m 'in' k" := (bind m (λ x, k))
  (at level 10, x name, m at level 100, k at level 200, only parsing).
Notation "'run' m 'in' k" := (bind m (λ _, k))
  (at level 10, m at level 100, k at level 200, only parsing).

(** [range(n)] over Python integers. *)
Definition range (n : Z) : list Z := seqZ 0 n.

(** [[(r,c) for r in range(rows) for c in range(columns)]] *)
Definition all_cells (rs cs : Z) : list cell :=
  r ← range rs; c ← range cs; [(r, c)].

(** [str] of a cell value. *)
Definition str (v : value) : string :=
  match v with
  | Num n => pretty n
  | Mine => "*"
  end.

(** *** [Board.__init__] *)
Definition Board_init (rs cs : Z) : outcome Board :=
  if bool_decide (rs < 1 ∨ rs > 20 ∨ cs < 2 ∨ cs > 50) then
    Raise SizeOutOfBoundException
  else
    Return (mkBoard rs cs true
              (foldl (λ g rc, <[rc := Num 0]> g) ∅ (all_cells rs cs)) []).

Definition getRows : M Z := λ b, (Return (rows b), b).
Definition getColumns : M Z := λ b, (Return (columns b), b).
Definition getUncoveredCells : M (list cell) := λ b, (Return (uncovered b), b).

(** *** [Board.get_value], [Board.is_hidden], [Board.uncover] *)
Definition get_value (row column : Z) : M string := λ b,
  match board b !! (row, column) with
  | None => (Raise IllegalIndicesException, b)
  | Some v => (Return (str v), b)
  end.

Definition is_hidden (row column : Z) : M string := λ b,
  match board b !! (row, column) with
  | None => (Raise IllegalIndicesException, b)
  | Some _ =>
      (Return (if bool_decide ((row, column) ∈ uncovered b) then "S" else "H"), b)
  end.

Definition uncover (row column : Z) : M unit := λ b,
  match board b !! (row, column) with
  | None => (Raise IllegalIndicesException, b)
  | Some _ =>
      if bool_decide ((row, column) ∈ uncovered b)
      then (Raise IllegalMoveException, b)
      else (Return tt, set_uncovered (uncovered b ++ [(row, column)]) b)
  end.

Definition get_ripple_type : M RippleTypes := ret Queue.

(** *** [Game.get_status] *)

(** The [for (r,c) in cells] loop of [get_status]; [win] is the local
    flag [Win]. *)
Fixpoint status_scan (unc : list cell) (cells : list cell) (win : bool)
  : M GameStatus :=
  match cells with
  | [] => ret (if win then Win else InProgress)
  | (r, c) :: rest =>
      if bool_decide ((r, c) ∈ unc) then
        let* v := get_value r c in
        if bool_decide (v = "*") then ret Lose
        else status_scan unc rest win
      else
        let* v := get_value r c in
        if bool_decide (v ≠ "*") then status_scan unc rest false
        else status_scan unc rest win
  end.

Definition get_status : M GameStatus :=
  let* unc := getUncoveredCells in
  if bool_decide (unc = []) then ret NotStarted
  else
    let* rs := getRows in
    let* cs := getColumns in
    status_scan unc (all_cells rs cs) true.

(** *** [Board.updateCell] and [Board.put_mines] *)

Definition updateCell (r c : Z) : M unit := λ b,
  let neighbors :=
    [(r-1, c-1); (r-1, c); (r-1, c+1); (r, c-1);
     (r, c+1); (r+1, c-1); (r+1, c); (r+1, c+1)] in
  let neighbors := filter (λ p, is_Some (board b !! p)) neighbors in
  let n := length (filter (λ p, board b !! p = Some Mine) neighbors) in
  (Return tt, set_board (<[(r, c) := Num n]> (board b)) b).

(** The random source: [rnd n lo hi] is the answer of the [n]-th call of
    [random.randint], made with the bounds [lo] and [hi].  The number of
    calls made so far is threaded next to the board. *)
Abbreviation random_source := (nat → Z → Z → Z).

(** The [while not scattered] loop; [fuel] bounds its iterations. *)
Fixpoint scatter_one (rnd : random_source) (fuel : nat) (n : nat) (b : Board)
  : option (outcome unit * Board * nat) :=
  match fuel with
  | O => None
  | S fuel' =>
      let r := rnd n 0 (rows b - 1) in
      let c := rnd (S n) 0 (columns b - 1) in
      match board b !! (r, c) with
      | None => Some (Raise KeyError, b, S (S n))
      | Some Mine => scatter_one rnd fuel' (S (S n)) b
      | Some (Num _) =>
          Some (Return tt, set_board (<[(r, c) := Mine]> (board b)) b, S (S n))
      end
  end.

(** The [for i in range(mines)] loop. *)
Fixpoint scatter (rnd : random_source) (fuel : nat) (k : nat) (n : nat)
  (b : Board) : option (outcome unit * Board * nat) :=
  match k with
  | O => Some (Return tt, b, n)
  | S k' =>
      match scatter_one rnd fuel n b with
      | None => None
      | Some (Raise e, b', n') => Some (Raise e, b', n')
      | Some (Return _, b', n') => scatter rnd fuel k' n' b'
      end
  end.

(** The [for (r,c) in self.board.keys()] loop over a list of keys. *)
Fixpoint update_cells (ks : list cell) : M unit :=
  match ks with
  | [] => ret tt
  | (r, c) :: rest => λ b,
      match board b !! (r, c) with
      | None => (Raise KeyError, b)
      | Some Mine => update_cells rest b
      | Some (Num _) => (run updateCell r c in update_cells rest) b
      end
  end.

(** [self.board.keys()].  Python does not fix the order of the keys of a
    dictionary; the loop over them gives the same board in every order. *)
Definition keys (g : gmap cell value) : list cell := (map_to_list g).*1.

Definition put_mines (rnd : random_source) (fuel : nat) (mines : Z) (n : nat)
  (b : Board) : option (outcome unit * Board * nat) :=
  if bool_decide (mines < 1 ∨ mines > rows b * columns b - 1
                  ∨ startState b = false)
  then Some (Raise ScatterException, b, n)
  else
    match scatter rnd fuel (Z.to_nat mines) n b with
    | None => None
    | Some (Raise e, b', n') => Some (Raise e, b', n')
    | Some (Return _, b', n') =>
        match update_cells (keys (board b')) b' with
        | (Raise e, b'') => Some (Raise e, b'', n')
        | (Return _, b'') => Some (Return tt, set_startState false b'', n')
        end
    end.

(** *** Python string operations used by [load_board] *)

(** The characters removed by [str.strip()]. *)
Definition is_space (a : ascii) : bool :=
  bool_decide (a ∈ [" "; "009"; "010"; "011"; "012"; "013"]%char).

Fixpoint lstrip (s : string) : string :=
  match s with
  | EmptyString => EmptyString
  | String a s' => if is_space a then lstrip s' else s
  end.

Fixpoint rstrip (s : string) : string :=
  match s with
  | EmptyString => EmptyString
  | String a s' =>
      match rstrip s' with
      | EmptyString => if is_space a then EmptyString else String a EmptyString
      | t => String a t
      end
  end.

Definition strip (s : string) : string := lstrip (rstrip s).

(** [s.split(sep)] for a separator of one character. *)
Fixpoint split (sep : ascii) (s : string) : list string :=
  match s with
  | EmptyString => [EmptyString]
  | String a s' =>
      if bool_decide (a = sep) then EmptyString :: split sep s'
      else match split sep s' with
           | [] => [String a EmptyString]
           | t :: ts => String a t :: ts
           end
  end.

Definition legalValues : list ascii :=
  ["0"; "1"; "2"; "3"; "4"; "5"; "6"; "7"; "8"; "*"]%char.
Definition legalStates : list ascii := ["H"; "S"]%char.

(** [int(ch)] for a digit character. *)
Definition int (a : ascii) : nat := (nat_of_ascii a - 48)%nat.

(** *** [Board.load_board] *)

(** The [for c in range(len(pairs))] loop. *)
Fixpoint load_pairs (r c : Z) (pairs : list string)
  (newBoard : gmap cell value) (newUncovered : list cell)
  : outcome (gmap cell value * list cell) :=
  match pairs with
  | [] => Return (newBoard, newUncovered)
  | p :: rest =>
      match String.list_ascii_of_string p with
      | [x; y] =>
          if bool_decide (x ∉ legalValues ∨ y ∉ legalStates) then
            Raise BoardFormatException
          else
            let newBoard :=
              if bool_decide (x = "*"%char)
              then <[(r, c) := Mine]> newBoard
              else <[(r, c) := Num (int x)]> newBoard in
            let newUncovered :=
              if bool_decide (y = "S"%char)
              then newUncovered ++ [(r, c)] else newUncovered in
            load_pairs r (c + 1) rest newBoard newUncovered
      | _ => Raise BoardFormatException
      end
  end.

(** The [for r in range(len(lines))] loop. *)
Fixpoint load_lines (cols : Z) (r : Z) (lines : list string)
  (newBoard : gmap cell value) (newUncovered : list cell)
  (dimensionsError : bool)
  : outcome (gmap cell value * list cell * bool) :=
  match lines with
  | [] => Return (newBoard, newUncovered, dimensionsError)
  | line :: rest =>
      let pairs := split " " line in
      let dimensionsError :=
        if bool_decide (Z.of_nat (length pairs) ≠ cols) then true
        else dimensionsError in
      match load_pairs r 0 pairs newBoard newUncovered with
      | Raise e => Raise e
      | Return (newBoard, newUncovered) =>
          load_lines cols (r + 1) rest newBoard newUncovered dimensionsError
      end
  end.

(** [[line.strip() for line in lines if line.strip() != '']] *)
Definition kept_lines (lines : list string) : list string :=
  strip <$> filter (λ line, strip line ≠ EmptyString) lines.

Definition load_board (lines : list string) : M unit := λ b,
  let lines := kept_lines lines in
  if bool_decide (lines = []) then (Raise BoardFormatException, b)
  else
    let dimensionsError := bool_decide (Z.of_nat (length lines) ≠ rows b) in
    match load_lines (columns b) 0 lines ∅ [] dimensionsError with
    | Raise e => (Raise e, b)
    | Return (newBoard, newUncovered, dimensionsError) =>
        if dimensionsError then (Raise DimensionsMismatchException, b)
        else (Return tt, set_uncovered newUncovered (set_board newBoard b))
    end.

(** *** [Board.save_board]

    The document written is returned as the list of the strings written;
    failures of the file system are not modelled. *)

Definition state_char (b : Board) (p : cell) : string :=
  if bool_decide (p ∈ uncovered b) then "S" else "H".

(** The [for c in range(self.columns)] loop. *)
Fixpoint save_line (r : Z) (cs : list Z) (line : string) : M string :=
  match cs with
  | [] => ret line
  | c :: rest => λ b,
      match board b !! (r, c) with
      | None => (Raise KeyError, b)
      | Some value =>
          save_line r rest (line +:+ str value +:+ state_char b (r, c) +:+ " ") b
      end
  end.

(** The [for r in range(self.rows)] loop. *)
Fixpoint save_lines (rs : list Z) (lines : list string) : M (list string) :=
  match rs with
  | [] => ret lines
  | r :: rest =>
      let* cs := getColumns in
      let* line := save_line r (range cs) "" in
      save_lines rest (lines ++ [line +:+ "
"])
  end.

(** The body of the document: the local [lines]. *)
Definition save_body : M (list string) :=
  let* rs := getRows in save_lines (range rs) [].

Definition save_board : M (list string) :=
  let* rs := getRows in
  let* cs := getColumns in
  let* lines := save_body in
  ret ([pretty rs +:+ "
"; pretty cs +:+ "
"] ++ lines).

(** *** [Board.ripple_sequence] *)

Definition ripple_neighbors (r c : Z) : list cell :=
  [(r-1, c); (r-1, c+1); (r, c+1); (r+1, c+1)] ++
  [(r+1, c); (r+1, c-1); (r, c-1); (r-1, c-1)].

(** The [for (r,c) in neighbors] loop; [origin] is [(row, column)]. *)
Fixpoint ripple_visit (b : Board) (origin : cell) (neighbors : list cell)
  (sequence queue : list cell) : list cell * list cell :=
  match neighbors with
  | [] => (sequence, queue)
  | p :: rest =>
      let condition1 :=
        bool_decide (is_Some (board b !! p)) && bool_decide (p ∉ sequence) in
      let condition2 :=
        bool_decide (p ≠ origin) && bool_decide (p ∉ uncovered b) in
      if condition1 && condition2
      then ripple_visit b origin rest (sequence ++ [p]) (queue ++ [p])
      else ripple_visit b origin rest sequence queue
  end.

(** The [for i in range(len(queue))] loop, entered with [n = len(queue)]. *)
Fixpoint ripple_for (n : nat) (b : Board) (origin : cell)
  (sequence queue : list cell) : outcome (list cell * list cell) :=
  match n with
  | O => Return (sequence, queue)
  | S n' =>
      match queue with
      | [] => Raise IndexError
      | (r, c) :: queue =>
          match get_value r c b with
          | (Raise e, _) => Raise e
          | (Return v, _) =>
              if bool_decide (v = "0") then
                let '(sequence, queue) :=
                  ripple_visit b origin (ripple_neighbors r c) sequence queue in
                ripple_for n' b origin sequence queue
              else ripple_for n' b origin sequence queue
          end
      end
  end.

(** The [while queue != []] loop; [fuel] bounds its iterations. *)
Fixpoint ripple_while (fuel : nat) (b : Board) (origin : cell)
  (sequence queue : list cell) : option (outcome (list cell)) :=
  match queue with
  | [] => Some (Return sequence)
  | _ :: _ =>
      match fuel with
      | O => None
      | S fuel' =>
          match ripple_for (length queue) b origin sequence queue with
          | Raise e => Some (Raise e)
          | Return (sequence, queue) =>
              ripple_while fuel' b origin sequence queue
          end
      end
  end.

Definition ripple_sequence (fuel : nat) (row column : Z) (b : Board)
  : option (outcome (list cell) * Board) :=
  match get_value row column b with
  | (Raise e, b) => Some (Raise e, b)
  | (Return v, b) =>
      if bool_decide (v ≠ "0") then Some (Return [], b)
      else
        match ripple_while fuel b (row, column) [] [(row, column)] with
        | None => None
        | Some o => Some (o, b)
        end
  end.

(** *** [Game.make_move] *)

(** The [for (r,c) in sequence: self.board.uncover(r,c)] loop. *)
Fixpoint uncover_all (sequence : list cell) : M unit :=
  match sequence with
  | [] => ret tt
  | (r, c) :: rest => run uncover r c in uncover_all rest
  end.

Definition make_move (fuel : nat) (row column : Z) (b : Board)
  : option (outcome string * Board) :=
  match uncover row column b with
  | (Raise e, b) => Some (Raise e, b)
  | (Return _, b) =>
      match get_value row column b with
      | (Raise e, b) => Some (Raise e, b)
      | (Return value, b) =>
          if bool_decide (value ≠ "*") then
            match ripple_sequence fuel row column b with
            | None => None
            | Some (Raise e, b) => Some (Raise e, b)
            | Some (Return sequence, b) =>
                match uncover_all sequence b with
                | (Raise e, b) => Some (Raise e, b)
                | (Return _, b) => Some (Return value, b)
                end
            end
          else Some (Return value, b)
      end
  end.

(** ** Well-formed boards *)

Definition in_bounds (b : Board) (p : cell) : Prop :=
  0 ≤ p.1 < rows b ∧ 0 ≤ p.2 < columns b.

(** The grid holds exactly the coordinates inside the dimensions. *)
Definition grid_exact (b : Board) : Prop :=
  ∀ p, is_Some (board b !! p) ↔ in_bounds b p.

(** Only cells of the grid are uncovered. *)
Definition uncovered_in_grid (b : Board) : Prop :=
  ∀ p, p ∈ uncovered b → is_Some (board b !! p).

(** A number on the board is a count of neighbours, at most 8. *)
Definition values_legal (b : Board) : Prop :=
  ∀ p n, board b !! p = Some (Num n) → (n ≤ 8)%nat.

(** ** The ripple as the specification words it

    A reference breadth-first expansion over one queue of cells.  A
    neighbour is taken when it is within bounds, not already in the result,
    not the origin and not already uncovered; the eight neighbours are
    tried from the upper one clockwise; only a cell whose value is 0 is
    expanded. *)

Definition clockwise_ring (p : cell) : list cell :=
  fmap (λ d : cell, (p.1 + d.1, p.2 + d.2))
    [(-1, 0); (-1, 1); (0, 1); (1, 1); (1, 0); (1, -1); (0, -1); (-1, -1)].

Definition admissible (b : Board) (origin : cell) (result : list cell)
  (p : cell) : Prop :=
  in_bounds b p ∧ (p ∉ result) ∧ p ≠ origin ∧ (p ∉ uncovered b).

Global Instance admissible_dec b origin result p :
  Decision (admissible b origin result p).
Proof. unfold admissible, in_bounds. apply _. Defined.

Fixpoint bfs_spec (fuel : nat) (b : Board) (origin : cell)
  (result queue : list cell) : option (list cell) :=
  match queue with
  | [] => Some result
  | p :: rest =>
      match fuel with
      | O => None
      | S fuel' =>
          if bool_decide (board b !! p = Some (Num 0)) then
            let new := filter (admissible b origin result) (clockwise_ring p) in
            bfs_spec fuel' b origin (result ++ new) (rest ++ new)
          else bfs_spec fuel' b origin result rest
      end
  end.

Definition ripple_spec (fuel : nat) (b : Board) (origin : cell)
  : option (list cell) :=
  if bool_decide (board b !! origin = Some (Num 0))
  then bfs_spec fuel b origin [] [origin]
  else Some [].

(** The test of [ripple_sequence] on a neighbour, on the keys of the grid. *)
Definition fresh (b : Board) (origin : cell) (sequence : list cell)
  (p : cell) : Prop :=
  (is_Some (board b !! p) ∧ p ∉ sequence) ∧ (p ≠ origin ∧ p ∉ uncovered b).

Global Instance fresh_dec b origin sequence p :
  Decision (fresh b origin sequence p).
Proof. unfold fresh. apply _. Defined.

(** The cells of the grid that are not yet in the sequence. *)
Definition unseen (b : Board) (sequence : list cell) : gset cell :=
  dom (board b) ∖ list_to_set sequence.

(** ** The load format as the specification words it *)

(** A blank or whitespace-only line. *)
Definition whitespace_only (line : string) : Prop :=
  Forall (λ a, is_space a = true) (String.list_ascii_of_string line).

Global Instance whitespace_only_dec line : Decision (whitespace_only line).
Proof. unfold whitespace_only. apply _. Defined.

(** The lines that remain after the blank lines are discarded. *)
Definition remaining_lines (lines : list string) : list string :=
  strip <$> filter (λ line, ¬ whitespace_only line) lines.

(** A legal token: two characters, a value and a state. *)
Definition legal_token (t : string) : Prop :=
  match t with
  | String x (String y EmptyString) => x ∈ legalValues ∧ y ∈ legalStates
  | _ => False
  end.

Global Instance legal_token_dec t : Decision (legal_token t).
Proof.
  destruct t as [|x [|y [|z t]]]; simpl; apply _.
Defined.

Definition tokens (line : string) : list string := split " " line.

Definition some_token_illegal (lines : list string) : Prop :=
  ∃ line t, line ∈ lines ∧ t ∈ tokens line ∧ ¬ legal_token t.

Definition dimensions_disagree (b : Board) (lines : list string) : Prop :=
  Z.of_nat (length lines) ≠ rows b
  ∨ ∃ line, line ∈ lines ∧ Z.of_nat (length (tokens line)) ≠ columns b.

(** ** The saved text, described directly *)

(** The character that [str] gives for a legal value. *)
Definition value_char (v : value) : ascii :=
  match v with
  | Num n => ascii_of_nat (48 + n)
  | Mine => "*"%char
  end.

Definition state_ascii (b : Board) (p : cell) : ascii :=
  if bool_decide (p ∈ uncovered b) then "S"%char else "H"%char.

(** The token of a cell: its value character, then its state character. *)
Definition token (b : Board) (p : cell) : string :=
  match board b !! p with
  | Some v => String (value_char v) (String (state_ascii b p) EmptyString)
  | None => EmptyString
  end.

(** Tokens, each followed by one space. *)
Fixpoint line_of (toks : list string) : string :=
  match toks with
  | [] => EmptyString
  | t :: rest => t +:+ " " +:+ line_of rest
  end.

(** Tokens separated by one space. *)
Fixpoint join_tokens (toks : list string) : string :=
  match toks with
  | [] => EmptyString
  | t :: rest =>
      match rest with
      | [] => t
      | _ :: _ => t +:+ " " +:+ join_tokens rest
      end
  end.

(** A token of two characters, neither of them white space. *)
Definition solid_token (t : string) : Prop :=
  match t with
  | String x (String y EmptyString) => is_space x = false ∧ is_space y = false
  | _ => False
  end.

Definition row_tokens (b : Board) (r : Z) : list string :=
  (λ c, token b (r, c)) <$> range (columns b).

(** ** Mines and neighbours, as the specification words them *)

(** The set of the cells that hold a mine. *)
Definition mined_cells (g : gmap cell value) : gset cell :=
  dom (filter (λ kv : cell * value, kv.2 = Mine) g).

(** [q] is one of the (up to) eight neighbours of [p]. *)
Definition is_neighbor (p q : cell) : Prop :=
  q ≠ p ∧ -1 ≤ q.1 - p.1 ≤ 1 ∧ -1 ≤ q.2 - p.2 ≤ 1.

Global Instance is_neighbor_dec p q : Decision (is_neighbor p q).
Proof. unfold is_neighbor. apply _. Defined.

(** The number of mined neighbours of [p]. *)
Definition mined_neighbors (g : gmap cell value) (p : cell) : nat :=
  size (filter (is_neighbor p) (mined_cells g)).

(** A random source that answers within the bounds it is asked for. *)
Definition in_range (rnd : random_source) : Prop :=
  ∀ n lo hi, lo ≤ hi → lo ≤ rnd n lo hi ≤ hi.

(** A random source that, from its [n0]-th call on, keeps drawing every
    cell of the board again: after any number [m] of pairs of calls some
    later pair of calls draws the cell [p]. *)
Definition fair (rnd : random_source) (b : Board) (n0 : nat) : Prop :=
  ∀ m p, in_bounds b p →
    ∃ k, rnd (n0 + 2 * (m + k))%nat 0 (rows b - 1) = p.1 ∧
         rnd (S (n0 + 2 * (m + k))) 0 (columns b - 1) = p.2.

(** A sample random source: the pair of calls number [i] draws [i]
    modulo the width of the bounds. *)
Definition alternating : random_source :=
  λ n lo hi, lo + (Z.of_nat n / 2) `mod` (hi - lo + 1).

(** ** Auxiliary predicates of the proofs *)

(** A value that [load_board] accepts and [updateCell] can write. *)
Definition legal_value (v : value) : Prop :=
  match v with Num n => (n ≤ 8)%nat | Mine => True end.

Global Instance legal_value_dec (v : value) : Decision (legal_value v).
Proof. destruct v; simpl; apply _. Defined.

(** Some uncovered cell holds a mine. *)
Definition uncovered_mine (b : Board) : Prop :=
  ∃ p, p ∈ uncovered b ∧ board b !! p = Some Mine.

(** The two conditions that the loop of [get_status] tests, over the
    cells it has still to visit. *)
Definition scan_lose (b : Board) (cells : list cell) : Prop :=
  ∃ p, p ∈ cells ∧ p ∈ uncovered b ∧ board b !! p = Some Mine.

Definition scan_won (b : Board) (cells : list cell) (win : bool) : Prop :=
  win = true ∧ ∀ p, p ∈ cells → p ∉ uncovered b → board b !! p = Some Mine.

(** [p] is a neighbour of a cell of [from] whose value is 0. *)
Definition reached (b : Board) (from : list cell) (p : cell) : Prop :=
  ∃ z, z ∈ from ∧ board b !! z = Some (Num 0) ∧ p ∈ ripple_neighbors z.1 z.2.

Definition line_legal (line : string) : Prop :=
  Forall legal_token (tokens line).

(** What the scatter loops keep: everything but the grid, the keys of the
    grid, and every cell that did not become a mine. *)
Definition scatter_inv (b b' : Board) : Prop :=
  rows b' = rows b ∧ columns b' = columns b ∧
  startState b' = startState b ∧ uncovered b' = uncovered b ∧
  dom (board b') = dom (board b) ∧
  (∀ p, board b' !! p = Some Mine ∨ board b' !! p = board b !! p).

(** The guard of [put_mines]. *)
Definition scatter_refused (b : Board) (mines : Z) : Prop :=
  mines < 1 ∨ mines > rows b * columns b - 1 ∨ startState b = false.

(** The cells that a row of [k] tokens, and [k] rows of [cols] tokens,
    are loaded into. *)
Definition in_row (r c0 : Z) (k : nat) (p : cell) : Prop :=
  p.1 = r ∧ c0 ≤ p.2 < c0 + Z.of_nat k.

Definition in_rows (r0 : Z) (k : nat) (cols : Z) (p : cell) : Prop :=
  r0 ≤ p.1 < r0 + Z.of_nat k ∧ 0 ≤ p.2 < cols.

(** ** Boards that the program can reach

    A board is well formed when its dimensions are legal, its grid holds
    exactly the cells inside the dimensions, only cells of the grid are
    uncovered and every number on it is at most 8. *)
Definition Board_wf (b : Board) : Prop :=
  1 ≤ rows b ≤ 20 ∧ 2 ≤ columns b ≤ 50 ∧
  grid_exact b ∧ uncovered_in_grid b ∧ values_legal b.

(** The boards reached from a constructed board by the methods that
    change the board, whether they return or raise. *)
Inductive reachable : Board → Prop :=
| reach_init rs cs b :
    Board_init rs cs = Return b → reachable b
| reach_put_mines rnd fuel mines n b o b' n' :
    reachable b → put_mines rnd fuel mines n b = Some (o, b', n') →
    reachable b'
| reach_load_board lines b o b' :
    reachable b → load_board lines b = (o, b') → reachable b'
| reach_uncover r c b o b' :
    reachable b → uncover r c b = (o, b') → reachable b'
| reach_make_move fuel r c b o b' :
    reachable b → make_move fuel r c b = Some (o, b') → reachable b'.

(** ** Further predicates *)

(** What [uncover] and the loop of [uncover] calls keep, whatever their
    outcome: everything but the uncovered list, which only grows at its
    end and stays duplicate-free. *)
Definition grows (b b' : Board) : Prop :=
  rows b' = rows b ∧ columns b' = columns b ∧
  startState b' = startState b ∧ board b' = board b ∧
  uncovered b `prefix_of` uncovered b' ∧
  (NoDup (uncovered b) → NoDup (uncovered b')).

(** Every number on the board is the number of mined neighbours of its
    cell. *)
Definition consistent (b : Board) : Prop :=
  ∀ p n, board b !! p = Some (Num n) → n = mined_neighbors (board b) p.

(** Around a cell [z] of value 0, every cell of the grid that is a
    neighbour of [z], is not the origin and is not uncovered, is in [s]. *)
Definition closed_at (b : Board) (o : cell) (s : list cell) (z : cell) : Prop :=
  board b !! z = Some (Num 0) →
  ∀ p, p ∈ ripple_neighbors z.1 z.2 → is_Some (board b !! p) →
       p ≠ o → p ∉ uncovered b → p ∈ s.

(** The token [t] read at the cell [p] gave the value and the state that
    [nb] and [nu] hold there. *)
Definition parsed (nb : gmap cell value) (nu : list cell) (p : cell)
  (t : string) : Prop :=
  ∃ x y, t = String x (String y "") ∧ x ∈ legalValues ∧ y ∈ legalStates ∧
    nb !! p = Some (if bool_decide (x = "*"%char) then Mine else Num (int x)) ∧
    (p ∈ nu ↔ y = "S"%char).

(** ** The console: [Game.printMenu] and [Game.run]

    What the game prints, asks and writes is kept as a trace of events.
    [raw_input] takes its answer from the lines of standard input that
    are left and raises [EOFError] when there is none.  Whether a file can
    be opened for writing is a property of the world.  The dimensions are
    taken to fit a machine integer, as [range] needs. *)

Inductive event : Type :=
| Printed (line : string)
| Prompted (prompt : string)
| Saved (filename : string) (document : list string).

Inductive io_exn : Type :=
| EOFError
| IOError
| ValueError
| BoardError (e : exn).

Inductive io_outcome (A : Type) : Type :=
| Done (a : A)
| Failed (e : io_exn).
Arguments Done {A} a.
Arguments Failed {A} e.

Record World : Type := mkWorld {
  game_board : Board;
  stdin : list string;
  trace : list event;
  writable : string → bool
}.

Definition set_game_board (b : Board) (w : World) : World :=
  mkWorld b (stdin w) (trace w) (writable w).
Definition set_stdin (l : list string) (w : World) : World :=
  mkWorld (game_board w) l (trace w) (writable w).
Definition record (e : event) (w : World) : World :=
  mkWorld (game_board w) (stdin w) (trace w ++ [e]) (writable w).

(** A computation of the console: it may run out of fuel ([None]), and
    otherwise ends in a value or an exception, and a world. *)
Definition IO (A : Type) : Type := World → option (io_outcome A * World).

Definition io_ret {A} (a : A) : IO A := λ w, Some (Done a, w).
Definition io_bind {A B} (m : IO A) (k : A → IO B) : IO B := λ w,
  match m w with
  | None => None
  | Some (Done a, w') => k a w'
  | Some (Failed e, w') => Some (Failed e, w')
  end.

Notation "'do*' x ':=' m 'in' k" := (io_bind m (λ x, k))
  (at level 10, x name, m at level 100, k at level 200, only parsing).
Notation "'exec' m 'in' k" := (io_bind m (λ _, k))
  (at level 10, m at level 100, k at level 200, only parsing).

(** A method of the board, called from the game. *)
Definition lift {A} (m : M A) : IO A := λ w,
  match m (game_board w) with
  | (Return a, b) => Some (Done a, set_game_board b w)
  | (Raise e, b) => Some (Failed (BoardError e), set_game_board b w)
  end.

Definition lift_fuel {A} (m : Board → option (outcome A * Board)) : IO A :=
  λ w,
  match m (game_board w) with
  | None => None
  | Some (Return a, b) => Some (Done a, set_game_board b w)
  | Some (Raise e, b) => Some (Failed (BoardError e), set_game_board b w)
  end.

Definition print (line : string) : IO unit := λ w,
  Some (Done tt, record (Printed line) w).

Definition raw_input (prompt : string) : IO string := λ w,
  match stdin w with
  | [] => Some (Failed EOFError, record (Prompted prompt) w)
  | answer :: rest =>
      Some (Done answer, set_stdin rest (record (Prompted prompt) w))
  end.

(** [try: body / except: handler / else: orelse], with a bare [except]. *)
Definition try_except_else {A} (body : IO A) (handler orelse : IO unit)
  : IO unit := λ w,
  match body w with
  | None => None
  | Some (Done _, w') => orelse w'
  | Some (Failed _, w') => handler w'
  end.

Definition try_except (body handler : IO unit) : IO unit :=
  try_except_else body handler (io_ret tt).

(** *** Python string operations used by the console *)

(** [sep.join(l)] *)
Fixpoint join (sep : string) (l : list string) : string :=
  match l with
  | [] => ""
  | [s] => s
  | s :: rest => s +:+ sep +:+ join sep rest
  end.

(** [str(l)] for a list of integers. *)
Definition str_list (l : list Z) : string :=
  "[" +:+ join ", " (pretty <$> l) +:+ "]".

Fixpoint drop_last (s : string) : string :=
  match s with
  | EmptyString => EmptyString
  | String a EmptyString => EmptyString
  | String a s' => String a (drop_last s')
  end.

(** [s[1:-1]] *)
Definition slice_1_m1 (s : string) : string :=
  match s with
  | EmptyString => EmptyString
  | String _ s' => drop_last s'
  end.

(** [s.replace(old, new)] for two strings of one character. *)
Fixpoint replace (old new : ascii) (s : string) : string :=
  match s with
  | EmptyString => EmptyString
  | String a s' =>
      String (if bool_decide (a = old) then new else a) (replace old new s')
  end.

Definition cons_word (w : string) (ws : list string) : list string :=
  match w with EmptyString => ws | _ => w :: ws end.

(** The word that starts at the head of [s], empty when [s] starts with
    white space, and the words after it. *)
Fixpoint split_go (s : string) : string * list string :=
  match s with
  | EmptyString => (EmptyString, [])
  | String a s' =>
      let (w, ws) := split_go s' in
      if is_space a then (EmptyString, cons_word w ws) else (String a w, ws)
  end.

(** [s.split()] *)
Definition split_whitespace (s : string) : list string :=
  let (w, ws) := split_go s in cons_word w ws.

Definition is_digit (a : ascii) : bool :=
  bool_decide (a ∈ ["0"; "1"; "2"; "3"; "4"; "5"; "6"; "7"; "8"; "9"]%char).

Fixpoint digits_value (s : string) (acc : Z) : option Z :=
  match s with
  | EmptyString => Some acc
  | String a s' =>
      if is_digit a then digits_value s' (10 * acc + Z.of_nat (int a))
      else None
  end.

(** [int(s)] for a string without white space: an optional sign and one
    decimal digit or more; [None] stands for [ValueError]. *)
Definition int_of_str (s : string) : option Z :=
  match s with
  | EmptyString => None
  | String a s' =>
      if bool_decide (a = "+"%char) then
        match s' with EmptyString => None | _ => digits_value s' 0 end
      else if bool_decide (a = "-"%char) then
        match s' with
        | EmptyString => None
        | _ => Z.opp <$> digits_value s' 0
        end
      else digits_value s 0
  end.

Definition int_str (s : string) : IO Z := λ w,
  match int_of_str s with
  | Some z => Some (Done z, w)
  | None => Some (Failed ValueError, w)
  end.

(** *** [Game.printMenu] *)

Global Instance GameStatus_eq_dec : EqDecision GameStatus.
Proof. solve_decision. Defined.

(** The [for c in range(columns)] loop. *)
Fixpoint menu_line (r : Z) (cs : list Z) (line : string) : M string :=
  match cs with
  | [] => ret line
  | c :: rest =>
      let line := line +:+ " " in
      let* h := is_hidden r c in
      if bool_decide (h = "H") then menu_line r rest (line +:+ "H ")
      else
        let* v := get_value r c in
        menu_line r rest (line +:+ v +:+ " ")
  end.

(** The [for r in range(rows)] loop. *)
Fixpoint menu_rows (rs : list Z) (columns : Z) : IO unit :=
  match rs with
  | [] => io_ret tt
  | r :: rest =>
      do* line := lift (menu_line r (range columns) (pretty r)) in
      exec print line in
      menu_rows rest columns
  end.

Definition status_name (statusEnum : GameStatus) : string :=
  match statusEnum with
  | NotStarted => "NotStarted"
  | InProgress => "InProgress"
  | Lose => "Lose"
  | Win => "Win"
  end.

Definition indexing (columns : Z) : string :=
  "  " +:+ replace "," " " (slice_1_m1 (str_list (range columns))).

Definition printMenu : IO unit :=
  do* rows := lift getRows in
  do* columns := lift getColumns in
  exec print (indexing columns) in
  exec menu_rows (range rows) columns in
  do* statusEnum := lift get_status in
  exec print ("Game status: " +:+ status_name statusEnum) in
  do* status := lift get_status in
  print (if bool_decide (status ∈ [Win; Lose])
         then "Available actions: (1) Save | (2) Exit"
         else "Available actions: (1) Save | (2) Exit | (3) Move").

(** *** [Game.run] *)

(** [self.board.save_board(filename)] with its file: the file is opened,
    the two lines of the dimensions are written, and the lines of the
    rows are written once all of them are made. *)
Definition save_to (filename : string) : IO unit := λ w,
  if writable w filename then
    match save_board (game_board w) with
    | (Return document, b) =>
        Some (Done tt, record (Saved filename document) (set_game_board b w))
    | (Raise e, b) =>
        Some (Failed (BoardError e),
              record (Saved filename [pretty (rows b) +:+ "
";
                                      pretty (columns b) +:+ "
"])
                     (set_game_board b w))
    end
  else Some (Failed IOError, w).

(** The body of the last [try] of the loop. *)
Definition move_to (fuel : nat) (move : string) : IO unit :=
  match split_whitespace move with
  | [x; y] =>
      do* r := int_str x in
      do* c := int_str y in
      exec lift_fuel (make_move fuel r c) in
      io_ret tt
  | _ => print "Illegal move values"
  end.

(** The [while True] loop; every turn of it takes one unit of fuel. *)
Fixpoint Game_run (fuel : nat) : IO unit :=
  match fuel with
  | O => λ _, None
  | S fuel' =>
      exec printMenu in
      do* selection := raw_input "Enter selection: " in
      if bool_decide (selection = "1") then
        do* filename := raw_input "Enter filename: " in
        exec try_except_else (save_to filename)
               (print "Save operation failed")
               (print "Save operation done") in
        Game_run fuel'
      else if bool_decide (selection = "2") then
        print "Goodbye :)"
      else
        do* playing :=
          (if bool_decide (selection = "3") then
             do* status := lift get_status in
             io_ret (bool_decide (status ∉ [Win; Lose]))
           else io_ret false) in
        if playing : bool then
          do* move :=
            raw_input "Enter row then column (space separated): " in
          exec try_except (move_to fuel' move)
                 (print "Illegal move values") in
          Game_run fuel'
        else
          exec print "Illegal choice" in
          Game_run fuel'
  end.

(** ** The console, described directly *)

(** What the menu shows for a cell: its value when it is uncovered. *)
Definition shown (b : Board) (p : cell) : string :=
  if bool_decide (p ∈ uncovered b)
  then match board b !! p with Some v => str v | None => "" end
  else "H".

(** The line of the menu for the row [r]. *)
Definition menu_text (b : Board) (r : Z) : string :=
  foldl (λ line c, line +:+ " " +:+ shown b (r, c) +:+ " ") (pretty r)
        (range (columns b)).

(** What a step of the console keeps: the board only gains uncovered
    cells, input is only consumed, the trace only grows. *)
Definition extends (w w' : World) : Prop :=
  grows (game_board w) (game_board w') ∧
  stdin w' `suffix_of` stdin w ∧
  trace w `prefix_of` trace w' ∧
  writable w' = writable w.

(** The game is over. *)
Definition game_over (b : Board) : Prop :=
  get_status b = (Return Win, b) ∨ get_status b = (Return Lose, b).

(** What [printMenu] prints for a board of status [s]. *)
Definition menu_events (b : Board) (s : GameStatus) : list event :=
  Printed (indexing (columns b))
  :: ((λ r, Printed (menu_text b r)) <$> range (rows b))
  ++ [Printed ("Game status: " +:+ status_name s);
      Printed (if bool_decide (s ∈ [Win; Lose])
               then "Available actions: (1) Save | (2) Exit"
               else "Available actions: (1) Save | (2) Exit | (3) Move")].

(** What is known of a run of the loop from [w] that ended in [o] and
    [w']. *)
Definition run_facts (w : World) (o : io_outcome unit) (w' : World) : Prop :=
  extends w w' ∧
  (o = Done tt ∨ (o = Failed EOFError ∧ stdin w' = [])) ∧
  (o = Done tt → last (trace w') = Some (Printed "Goodbye :)")) ∧
  (reachable (game_board w) → reachable (game_board w')) ∧
  (game_over (game_board w) → game_board w' = game_board w).

(** A string of decimal digits, and a string without white space. *)
Definition all_digits (s : string) : Prop :=
  Forall (λ a, is_digit a = true) (String.list_ascii_of_string s).

Definition no_space (s : string) : Prop :=
  Forall (λ a, is_space a = false) (String.list_ascii_of_string s).

(** ** Sample boards

    A 3 by 3 board with one mine in the upper left corner, nothing
    uncovered, and the same board after the lower right corner was played. *)
Definition corner_mine : Board :=
  mkBoard 3 3 false
    (list_to_map
       [((0, 0), Mine);  ((0, 1), Num 1); ((0, 2), Num 0);
        ((1, 0), Num 1); ((1, 1), Num 1); ((1, 2), Num 0);
        ((2, 0), Num 0); ((2, 1), Num 0); ((2, 2), Num 0)])
    [].

Definition corner_mine_won : Board :=
  set_uncovered
    [(2, 2); (1, 2); (2, 1); (1, 1); (0, 2); (0, 1); (2, 0); (1, 0)]
    corner_mine.

(** The boards that [Board(3, 3)] and [Board(1, 2)] construct. *)
Definition fresh_3x3 : Board :=
  mkBoard 3 3 true (foldl (λ g rc, <[rc := Num 0]> g) ∅ (all_cells 3 3)) [].

Definition fresh_1x2 : Board :=
  mkBoard 1 2 true (foldl (λ g rc, <[rc := Num 0]> g) ∅ (all_cells 1 2)) [].

(** The board [corner_mine] after some moves: the lower right corner
    uncovered alone, the mine played first, the mine played first and then
    the lower right corner, and the mine played after the game was won. *)
Definition corner_mine_22 : Board := set_uncovered [(2, 2)] corner_mine.

Definition corner_mine_lost : Board := set_uncovered [(0, 0)] corner_mine.

Definition corner_mine_lost_22 : Board :=
  set_uncovered
    [(0, 0); (2, 2); (1, 2); (2, 1); (1, 1); (0, 2); (0, 1); (2, 0); (1, 0)]
    corner_mine.

Definition corner_mine_won_lost : Board :=
  set_uncovered
    [(2, 2); (1, 2); (2, 1); (1, 1); (0, 2); (0, 1); (2, 0); (1, 0); (0, 0)]
    corner_mine.

(** The ripple of [corner_mine] from the lower right corner. *)
Definition ripple_22 : list cell :=
  [(1, 2); (2, 1); (1, 1); (0, 2); (0, 1); (2, 0); (1, 0)].

(** What [save_board] writes of [corner_mine_won]. *)
Definition saved_won : list string :=
  ["3
"; "3
"; "*H 1S 0S 
"; "1S 1S 0S 
"; "0S 0S 0S 
"].

(** A board of one row: after one mine was put on the fresh board, after
    a text was loaded into the fresh board, and after one mine was put on
    the loaded board. *)
Definition mined_1x2 : Board :=
  mkBoard 1 2 false (list_to_map [((0, 0), Mine); ((0, 1), Num 1)]) [].

Definition loaded_1x2 : Board :=
  mkBoard 1 2 true (list_to_map [((0, 0), Num 0); ((0, 1), Num 0)]) [(0, 1)].


(** A console with some lines typed ahead, where every file but the one
    of the empty name can be written. *)
Definition console (b : Board) (input : list string) : World :=
  mkWorld b input [] (λ filename, bool_decide (filename ≠ "")).

(** ** Basic facts *)

Lemma elem_of_range (n i : Z) : i ∈ range n ↔ 0 ≤ i < n.
Proof. unfold range. rewrite elem_of_seqZ. lia. Qed.

Lemma elem_of_all_cells (rs cs : Z) (p : cell) :
  p ∈ all_cells rs cs ↔ 0 ≤ p.1 < rs ∧ 0 ≤ p.2 < cs.
Proof.
  unfold all_cells. destruct p as [r c]. simpl.
  rewrite list_elem_of_bind. split.
  - intros (r' & Hc & Hr). apply list_elem_of_bind in Hc as (c' & Hp & Hc).
    apply list_elem_of_singleton in Hp. simplify_eq.
    by rewrite <- !elem_of_range.
  - intros [Hr Hc]. exists r. split; [|by apply elem_of_range].
    apply list_elem_of_bind. exists c. split; [|by apply elem_of_range].
    by apply list_elem_of_singleton.
Qed.

Lemma NoDup_range (n : Z) : NoDup (range n).
Proof. apply NoDup_seqZ. Qed.

Lemma NoDup_all_cells (rs cs : Z) : NoDup (all_cells rs cs).
Proof.
  unfold all_cells. apply NoDup_bind.
  - intros r1 r2 p _ _ H1 H2.
    apply list_elem_of_bind in H1 as (c1 & H1 & _).
    apply list_elem_of_bind in H2 as (c2 & H2 & _).
    apply list_elem_of_singleton in H1, H2. congruence.
  - intros r _. apply NoDup_bind.
    + intros c1 c2 p _ _ H1 H2.
      apply list_elem_of_singleton in H1, H2. congruence.
    + intros c _. apply NoDup_singleton.
    + apply NoDup_range.
  - apply NoDup_range.
Qed.

Lemma length_bind_const {A B} (f : A → list B) (l : list A) (n : nat) :
  (∀ x, length (f x) = n) → length (l ≫= f) = (length l * n)%nat.
Proof.
  intros Hf. induction l as [|x l IH]; [done|].
  rewrite bind_cons, length_app, Hf, IH. simpl. lia.
Qed.

Lemma length_all_cells (rs cs : Z) :
  length (all_cells rs cs) = (Z.to_nat rs * Z.to_nat cs)%nat.
Proof.
  unfold all_cells.
  rewrite (length_bind_const _ _ (Z.to_nat cs)).
  - unfold range. by rewrite length_seqZ.
  - intros r. rewrite (length_bind_const _ _ 1%nat); [|done].
    unfold range. rewrite length_seqZ. lia.
Qed.

(** *** Decimal strings *)

Lemma pretty_N_go_ne_star (x : N) (s : string) :
  s ≠ "*" → pretty_N_go x s ≠ "*".
Proof.
  revert s. induction (N.lt_wf_0 x) as [x _ IH]; intros s Hs.
  assert (x = 0 ∨ 0 < x)%N as [->|Hx] by lia.
  - by rewrite pretty_N_go_0.
  - rewrite pretty_N_go_step by done. apply IH.
    { by apply N.div_lt. }
    unfold pretty_N_char. by repeat case_match.
Qed.

Lemma str_Mine (v : value) : str v = "*" ↔ v = Mine.
Proof.
  split; [|by intros ->]. destruct v as [n|]; [|done]. simpl.
  unfold pretty, pretty_nat, pretty, pretty_N. case_decide; [done|].
  intros Hstar. by apply pretty_N_go_ne_star in Hstar.
Qed.

Lemma str_zero (v : value) : str v = "0" ↔ v = Num 0.
Proof.
  split; [|by intros ->]. destruct v as [n|]; [|done]. simpl.
  intros H. f_equal. by apply (inj (pretty (A:=nat))).
Qed.

Lemma str_length (v : value) :
  (∀ n, v = Num n → (n ≤ 8)%nat) → String.length (str v) = 1%nat.
Proof.
  destruct v as [n|]; [|done]. intros H. specialize (H n eq_refl).
  do 9 (destruct n as [|n]; [done|]). lia.
Qed.

(** *** Deciding well-formedness *)

Lemma grid_exact_dom (b : Board) :
  grid_exact b ↔
  dom (board b) = list_to_set (all_cells (rows b) (columns b)).
Proof.
  unfold grid_exact, in_bounds. split.
  - intros H. apply set_eq. intros p.
    by rewrite elem_of_dom, H, elem_of_list_to_set, elem_of_all_cells.
  - intros H p.
    by rewrite <- elem_of_dom, H, elem_of_list_to_set, elem_of_all_cells.
Qed.

Global Instance grid_exact_dec (b : Board) : Decision (grid_exact b).
Proof.
  refine (cast_if (decide (dom (board b) =
                           list_to_set (all_cells (rows b) (columns b)))));
    by rewrite grid_exact_dom.
Defined.

Global Instance uncovered_in_grid_dec (b : Board) :
  Decision (uncovered_in_grid b).
Proof.
  refine (cast_if (decide (Forall (λ p, is_Some (board b !! p)) (uncovered b))));
    unfold uncovered_in_grid; by rewrite Forall_forall in *.
Defined.

Lemma values_legal_Forall (b : Board) :
  values_legal b ↔ map_Forall (λ _ v, legal_value v) (board b).
Proof.
  unfold values_legal, map_Forall. split.
  - intros H p [n|] Hp; simpl; eauto.
  - intros H p n Hp. apply (H p (Num n) Hp).
Qed.

Global Instance values_legal_dec (b : Board) : Decision (values_legal b).
Proof.
  refine (cast_if (decide (map_Forall (λ _ v, legal_value v) (board b))));
    by rewrite values_legal_Forall.
Defined.

Lemma grid_size (b : Board) :
  grid_exact b →
  size (board b) = (Z.to_nat (rows b) * Z.to_nat (columns b))%nat.
Proof.
  intros H%grid_exact_dom.
  rewrite <- size_dom, H, size_list_to_set by apply NoDup_all_cells.
  apply length_all_cells.
Qed.

(** ** The constructor *)

Lemma init_fold_lookup (cells : list cell) (g : gmap cell value) (p : cell) :
  foldl (λ g rc, <[rc := Num 0]> g) g cells !! p =
  if decide (p ∈ cells) then Some (Num 0) else g !! p.
Proof.
  revert g. induction cells as [|q cells IH]; intros g; simpl.
  - done.
  - rewrite IH. destruct (decide (p = q)) as [->|Hne].
    + rewrite (decide_True _ _ (list_elem_of_here q cells)).
      case_decide; [done|by rewrite lookup_insert_eq].
    + case_decide as H1; case_decide as H2; try done.
      * destruct H2. by right.
      * by apply elem_of_cons in H2 as [?|?].
      * by rewrite lookup_insert_ne.
Qed.

Lemma Board_init_returns (rs cs : Z) :
  1 ≤ rs ≤ 20 → 2 ≤ cs ≤ 50 →
  ∃ b, Board_init rs cs = Return b ∧
    rows b = rs ∧ columns b = cs ∧
    (∀ r c, 0 ≤ r < rs → 0 ≤ c < cs →
       board b !! (r, c) = Some (Num 0) ∧
       is_hidden r c b = (Return "H", b)) ∧
    (∀ p, is_Some (board b !! p) ↔ 0 ≤ p.1 < rs ∧ 0 ≤ p.2 < cs) ∧
    Z.of_nat (size (board b)) = rs * cs ∧
    uncovered b = [] ∧
    startState b = true.
Proof.
  intros Hr Hc. unfold Board_init. rewrite bool_decide_eq_false_2 by lia.
  eexists. split; [done|]. simpl.
  assert (∀ p, is_Some (foldl (λ g rc, <[rc := Num 0]> g)
                          (∅ : gmap cell value) (all_cells rs cs) !! p)
               ↔ 0 ≤ p.1 < rs ∧ 0 ≤ p.2 < cs) as Hgrid.
  { intros p. rewrite init_fold_lookup, <- elem_of_all_cells.
    case_decide; rewrite ?lookup_empty; split; try done;
      by intros [? ?]. }
  split_and!; try done.
  - intros r c Hr' Hc'.
    assert (foldl (λ g rc, <[rc := Num 0]> g) (∅ : gmap cell value)
              (all_cells rs cs) !! (r, c) = Some (Num 0)) as Hl.
    { rewrite init_fold_lookup, decide_True; [done|].
      by apply elem_of_all_cells. }
    split; [done|]. unfold is_hidden. simpl. by rewrite Hl.
  - pose proof (grid_size (mkBoard rs cs true _ []) Hgrid) as Hsize.
    simpl in Hsize. rewrite Hsize. lia.
Qed.

(** C7. [Board(rows, columns)] raises [SizeOutOfBoundException] exactly when
    [rows] is outside [1,20] or [columns] is outside [2,50]; otherwise it
    returns a board of these dimensions in which each of the
    [rows * columns] cells of the grid holds 0 and is hidden, no other key
    is present, nothing is uncovered and [startState] is true. *)
Theorem Board_init_spec (rs cs : Z) :
  (Board_init rs cs = Raise SizeOutOfBoundException
   ↔ ¬ (1 ≤ rs ≤ 20) ∨ ¬ (2 ≤ cs ≤ 50)) ∧
  (∀ e, Board_init rs cs = Raise e → e = SizeOutOfBoundException) ∧
  (1 ≤ rs ≤ 20 ∧ 2 ≤ cs ≤ 50 →
   ∃ b, Board_init rs cs = Return b ∧
     rows b = rs ∧ columns b = cs ∧
     (∀ r c, 0 ≤ r < rs → 0 ≤ c < cs →
        board b !! (r, c) = Some (Num 0) ∧
        is_hidden r c b = (Return "H", b)) ∧
     (∀ p, is_Some (board b !! p) ↔ 0 ≤ p.1 < rs ∧ 0 ≤ p.2 < cs) ∧
     Z.of_nat (size (board b)) = rs * cs ∧
     uncovered b = [] ∧
     startState b = true).
Proof.
  split_and!.
  - unfold Board_init. case_bool_decide; split; try done; lia.
  - intros e. unfold Board_init. case_bool_decide; congruence.
  - intros [Hr Hc]. by apply Board_init_returns.
Qed.

(** ** Game status *)

Lemma get_value_Some (b : Board) (r c : Z) (v : value) :
  board b !! (r, c) = Some v → get_value r c b = (Return (str v), b).
Proof. unfold get_value. by intros ->. Qed.

Lemma scan_lose_cons (b : Board) (q : cell) (cells : list cell) :
  scan_lose b (q :: cells)
  ↔ (q ∈ uncovered b ∧ board b !! q = Some Mine) ∨ scan_lose b cells.
Proof.
  unfold scan_lose. split.
  - intros (p & [->|?]%elem_of_cons & ? & ?); [by left|]. right. by exists p.
  - intros [[? ?]|(p & ? & ? & ?)].
    + exists q. split_and!; [by left|done..].
    + exists p. split_and!; [by right|done..].
Qed.

Lemma scan_won_cons (b : Board) (q : cell) (cells : list cell) (win : bool) :
  scan_won b (q :: cells) win
  ↔ (q ∉ uncovered b → board b !! q = Some Mine) ∧ scan_won b cells win.
Proof.
  unfold scan_won. split.
  - intros [? Hw]. split_and!; [|done|].
    + apply Hw. by left.
    + intros p ?. apply Hw. by right.
  - intros (Hq & ? & Hw). split; [done|].
    intros p [->|?]%elem_of_cons; [done|]. by apply Hw.
Qed.

Lemma status_scan_spec (b : Board) (cells : list cell) (win : bool) :
  (∀ p, p ∈ cells → is_Some (board b !! p)) →
  ∃ s, status_scan (uncovered b) cells win b = (Return s, b) ∧
       ((scan_lose b cells ∧ s = Lose)
        ∨ (¬ scan_lose b cells ∧ scan_won b cells win ∧ s = Win)
        ∨ (¬ scan_lose b cells ∧ ¬ scan_won b cells win ∧ s = InProgress)).
Proof.
  revert win. induction cells as [|[r c] cells IH]; intros win Hin.
  - simpl. eexists. split; [done|]. right.
    assert (¬ scan_lose b []) by (by intros (p & ?%elem_of_nil & _)).
    destruct win; [left|right]; split_and!; try done.
    + split; [done|]. by intros p ?%elem_of_nil.
    + by intros [? _].
  - destruct (Hin (r, c)) as [v Hv]; [by left|].
    assert (∀ p, p ∈ cells → is_Some (board b !! p)) as Hin'.
    { intros p ?. apply Hin. by right. }
    setoid_rewrite scan_lose_cons. setoid_rewrite scan_won_cons. rewrite Hv. simpl.
    case_bool_decide as Hunc; unfold bind;
      rewrite (get_value_Some _ _ _ _ Hv); case_bool_decide as Hstar.
    + apply str_Mine in Hstar as ->. eexists. split; [done|]. left.
      split; [|done]. by left.
    + destruct (IH win Hin') as (s & -> & Hs). exists s. split; [done|].
      assert (v ≠ Mine) as Hv' by (by rewrite <- str_Mine).
      destruct Hs as [[? ->]|[(Hnl & Hw & ->)|(Hnl & Hnw & ->)]].
      * left. split; [by right|done].
      * right. left. split_and!; try done.
        intros [[_ ?]|?]; [congruence|done].
      * right. right. split_and!; try done.
        -- intros [[_ ?]|?]; [congruence|done].
        -- by intros [_ ?].
    + assert (v ≠ Mine) as Hv' by (by rewrite <- str_Mine).
      destruct (IH false Hin') as (s & -> & Hs). exists s. split; [done|].
      destruct Hs as [[Hl ->]|[(Hnl & [? Hw] & ->)|(Hnl & Hnw & ->)]];
        [|done|].
      * left. split; [by right|done].
      * right. right. split_and!; try done.
        -- by intros [[? _]|?].
        -- intros [Hq _]. specialize (Hq Hunc). congruence.
    + assert (v = Mine) as ->.
      { apply str_Mine. by destruct (decide (str v = "*")). }
      destruct (IH win Hin') as (s & -> & Hs). exists s. split; [done|].
      destruct Hs as [[Hl ->]|[(Hnl & Hw & ->)|(Hnl & Hnw & ->)]].
      * left. split; [by right|done].
      * right. left. split_and!; try done. by intros [[? _]|?].
      * right. right. split_and!; try done.
        -- by intros [[? _]|?].
        -- by intros [_ ?].
Qed.

(** C1. On a board whose grid is exactly the cells inside its dimensions
    and whose uncovered cells lie in the grid, [get_status] returns, and
    leaves the board as it was.  It returns [NotStarted] exactly when
    nothing is uncovered; otherwise [Lose] exactly when an uncovered cell
    holds a mine; otherwise [Win] exactly when the uncovered cells are the
    cells that hold no mine; and [InProgress] in the remaining case. *)
Theorem get_status_spec (b : Board) :
  grid_exact b → uncovered_in_grid b →
  ∃ s, get_status b = (Return s, b) ∧
    (s = NotStarted ↔ uncovered b = []) ∧
    (s = Lose ↔ uncovered b ≠ [] ∧ uncovered_mine b) ∧
    (s = Win ↔ uncovered b ≠ [] ∧ ¬ uncovered_mine b ∧
               ∀ p, p ∈ uncovered b ↔ ∃ n, board b !! p = Some (Num n)) ∧
    (s = InProgress ↔ uncovered b ≠ [] ∧ ¬ uncovered_mine b ∧
               ¬ ∀ p, p ∈ uncovered b ↔ ∃ n, board b !! p = Some (Num n)).
Proof.
  intros Hgrid Hunc. unfold get_status, bind, getUncoveredCells, getRows,
    getColumns, ret.
  case_bool_decide as Hempty.
  { exists NotStarted. split_and!; try done; split; try done; by intros [? _]. }
  destruct (status_scan_spec b (all_cells (rows b) (columns b)) true)
    as (s & -> & Hs).
  { intros p Hp. apply Hgrid. by apply elem_of_all_cells. }
  exists s. split; [done|].
  assert (scan_lose b (all_cells (rows b) (columns b)) ↔ uncovered_mine b)
    as Hlose.
  { split.
    - intros (p & _ & ? & ?). by exists p.
    - intros (p & ? & Hp). exists p. split_and!; try done.
      apply elem_of_all_cells. apply Hgrid. by rewrite Hp. }
  assert (¬ uncovered_mine b →
          scan_won b (all_cells (rows b) (columns b)) true
          ↔ ∀ p, p ∈ uncovered b ↔ ∃ n, board b !! p = Some (Num n)) as Hwin.
  { intros Hnl. split.
    - intros [_ Hw] p. split.
      + intros Hp. destruct (Hunc p Hp) as [[n|] Hv]; [by exists n|].
        destruct Hnl. by exists p.
      + intros [n Hn]. destruct (decide (p ∈ uncovered b)) as [|Hp]; [done|].
        rewrite Hw in Hn; [done| |done].
        apply elem_of_all_cells. apply Hgrid. by rewrite Hn.
    - intros Hw. split; [done|]. intros p Hp%elem_of_all_cells Hnp.
      apply Hgrid in Hp as [[n|] Hv]; [|done].
      destruct Hnp. apply Hw. by exists n. }
  rewrite Hlose in Hs.
  destruct Hs as [[Hl ->]|[(Hnl & Hw & ->)|(Hnl & Hnw & ->)]].
  - split_and!; split; try done; try (by intros (_ & ? & ?));
      by intros [_ ?].
  - pose proof (proj1 (Hwin Hnl) Hw) as Hw'.
    split_and!; split; try done; try (by intros (_ & ? & ?));
      by intros [_ ?].
  - assert (¬ ∀ p, p ∈ uncovered b ↔ ∃ n, board b !! p = Some (Num n))
      as Hnw' by (intros Hw'; apply Hnw; by apply (Hwin Hnl)).
    split_and!; split; try done; try (by intros (_ & ? & ?));
      by intros [_ ?].
Qed.

(** ** The ripple *)

Lemma filter_ext_in {A} (P Q : A → Prop) `{∀ x, Decision (P x)}
  `{∀ x, Decision (Q x)} (l : list A) :
  (∀ x, x ∈ l → (P x ↔ Q x)) → filter P l = filter Q l.
Proof.
  induction l as [|x l IH]; intros Hext; [done|].
  rewrite !filter_cons.
  assert (filter P l = filter Q l) as ->.
  { apply IH. intros y ?. apply Hext. by right. }
  destruct (decide (P x)) as [HP|HP], (decide (Q x)) as [HQ|HQ]; try done;
    destruct (Hext x); try (by left); tauto.
Qed.

Ltac solve_distinct_cells :=
  repeat (apply NoDup_cons; split;
          [rewrite ?not_elem_of_cons; split_and?;
           try apply not_elem_of_nil; intros [=]; lia|]);
  apply NoDup_nil_2.

Lemma NoDup_ripple_neighbors (r c : Z) : NoDup (ripple_neighbors r c).
Proof. unfold ripple_neighbors. simpl. solve_distinct_cells. Qed.

Lemma ripple_neighbors_ring (r c : Z) :
  ripple_neighbors r c = clockwise_ring (r, c).
Proof.
  unfold ripple_neighbors, clockwise_ring. simpl.
  repeat f_equal; lia.
Qed.

Lemma ripple_visit_filter (b : Board) (o : cell) (nbrs s q : list cell) :
  NoDup nbrs →
  ripple_visit b o nbrs s q =
  (s ++ filter (fresh b o s) nbrs, q ++ filter (fresh b o s) nbrs).
Proof.
  revert s q. induction nbrs as [|p nbrs IH]; intros s q Hnd.
  - simpl. by rewrite !app_nil_r.
  - apply NoDup_cons in Hnd as [Hp Hnd]. simpl.
    rewrite <- !bool_decide_and. fold (fresh b o s p).
    case_bool_decide as Hf.
    + rewrite IH by done. rewrite filter_cons_True by done.
      rewrite <- !(assoc_L (++)). simpl.
      rewrite (filter_ext_in (fresh b o (s ++ [p])) (fresh b o s)); [done|].
      intros x Hx. unfold fresh. rewrite elem_of_app, list_elem_of_singleton.
      assert (x ≠ p) by (intros ->; done). tauto.
    + rewrite IH by done. by rewrite filter_cons_False by done.
Qed.

(** What one pass of the [for] loop does: it removes [n] cells from the
    front of the queue and appends the same new cells to the sequence and
    to the queue. *)
Lemma ripple_for_shape (b : Board) (o : cell) (n : nat) (s q : list cell) :
  (n ≤ length q)%nat →
  (∀ p, p ∈ q → is_Some (board b !! p)) →
  ∃ new, ripple_for n b o s q = Return (s ++ new, drop n q ++ new) ∧
    NoDup new ∧
    (∀ p, p ∈ new → fresh b o s p) ∧
    (∀ p, p ∈ new → ∃ z, z ∈ take n q ∧ board b !! z = Some (Num 0)
                         ∧ p ∈ ripple_neighbors z.1 z.2).
Proof.
  revert s q. induction n as [|n IH]; intros s q Hn Hq.
  - exists []. simpl. rewrite !app_nil_r, drop_0.
    split_and!; [done|apply NoDup_nil_2|by intros p ?%elem_of_nil..].
  - destruct q as [|[r c] q0]; [simpl in Hn; lia|].
    simpl in Hn. destruct (Hq (r, c)) as [v Hv]; [by left|].
    assert (∀ p, p ∈ q0 → is_Some (board b !! p)) as Hq0.
    { intros p ?. apply Hq. by right. }
    cbn [ripple_for]. rewrite (get_value_Some _ _ _ _ Hv).
    case_bool_decide as Hz.
    + apply str_zero in Hz as ->.
      rewrite ripple_visit_filter by apply NoDup_ripple_neighbors.
      set (new1 := filter (fresh b o s) (ripple_neighbors r c)).
      assert (∀ p, p ∈ new1 → fresh b o s p) as Hnew1.
      { intros p Hp. by apply list_elem_of_filter in Hp as [? _]. }
      destruct (IH (s ++ new1) (q0 ++ new1)) as (new2 & -> & Hnd & Hf & Hr).
      { rewrite length_app. lia. }
      { intros p [?|?]%elem_of_app; [by apply Hq0|].
        by destruct (Hnew1 p) as [[? _] _]. }
      exists (new1 ++ new2). rewrite drop_app_le by lia.
      rewrite <- !(assoc_L (++)). split_and!; [done|..].
      * apply NoDup_app. split_and!; [|intros p Hp1 Hp2|done].
        -- apply NoDup_filter, NoDup_ripple_neighbors.
        -- destruct (Hf p Hp2) as [[_ Hns] _]. apply Hns.
           apply elem_of_app. by right.
      * intros p [?|Hp]%elem_of_app; [by apply Hnew1|].
        destruct (Hf p Hp) as [[? Hns] [? ?]]. split_and!; try done.
        intros ?. apply Hns. apply elem_of_app. by left.
      * intros p [Hp|Hp]%elem_of_app.
        -- exists (r, c). split_and!; [by left|done|].
           by apply list_elem_of_filter in Hp as [_ ?].
        -- destruct (Hr p Hp) as (z & Hz & ? & ?). exists z.
           rewrite take_app_le in Hz by lia. split_and!; [by right|done..].
    + destruct (IH s q0) as (new & -> & Hnd & Hf & Hr); [lia|done|].
      exists new. split_and!; try done.
      intros p Hp. destruct (Hr p Hp) as (z & ? & ? & ?). exists z.
      split_and!; [by right|done..].
Qed.

Lemma unseen_app (b : Board) (s new : list cell) :
  NoDup new →
  (∀ p, p ∈ new → is_Some (board b !! p) ∧ p ∉ s) →
  (size (unseen b (s ++ new)) + length new)%nat = size (unseen b s).
Proof.
  intros Hnd Hnew. unfold unseen.
  rewrite <- (size_list_to_set (C:=gset cell) new) by done.
  rewrite <- size_union.
  - f_equal. apply set_eq. intros p.
    rewrite elem_of_union, !elem_of_difference, !elem_of_list_to_set,
      elem_of_app, elem_of_dom.
    split.
    + intros [[? ?]|Hp]; [tauto|]. destruct (Hnew p Hp). tauto.
    + intros [? ?]. destruct (decide (p ∈ new)); tauto.
  - intros p. rewrite elem_of_difference, !elem_of_list_to_set, elem_of_app.
    tauto.
Qed.

Lemma bfs_spec_for (b : Board) (o : cell) (n F : nat) (s q s' q' : list cell) :
  grid_exact b →
  ripple_for n b o s q = Return (s', q') →
  bfs_spec (n + F) b o s q = bfs_spec F b o s' q'.
Proof.
  intros Hgrid. revert s q. induction n as [|n IH]; intros s q Hfor.
  - simpl in Hfor. by simplify_eq.
  - destruct q as [|[r c] q0]; [done|].
    cbn [ripple_for] in Hfor. cbn [bfs_spec Nat.add].
    unfold get_value in Hfor.
    destruct (board b !! (r, c)) as [v|] eqn:Hv; [|done].
    case_bool_decide as Hz.
    + apply str_zero in Hz as ->. rewrite bool_decide_eq_true_2 by done.
      rewrite ripple_visit_filter in Hfor by apply NoDup_ripple_neighbors.
      rewrite <- ripple_neighbors_ring.
      rewrite (list_filter_iff (admissible b o s) (fresh b o s)); [by apply IH|].
      intros p. unfold admissible, fresh. rewrite (Hgrid p). tauto.
    + rewrite bool_decide_eq_false_2; [by apply IH|].
      intros [= ->]. by apply Hz.
Qed.

Lemma ripple_while_spec (b : Board) (o : cell) (fuel : nat) (s q : list cell) :
  (∀ p, p ∈ q → is_Some (board b !! p)) →
  NoDup s →
  (size (unseen b s) < fuel)%nat →
  ∃ ext, ripple_while fuel b o s q = Some (Return (s ++ ext)) ∧
    NoDup (s ++ ext) ∧
    (∀ p, p ∈ ext → fresh b o s p) ∧
    (∀ p, p ∈ ext → reached b (q ++ ext) p) ∧
    (length ext ≤ size (unseen b s))%nat ∧
    (grid_exact b → ∀ F, (length q + size (unseen b s) ≤ F)%nat →
       bfs_spec F b o s q = Some (s ++ ext)).
Proof.
  revert s q. induction fuel as [|fuel IH]; intros s q Hq Hnd Hfuel; [lia|].
  destruct q as [|z q0].
  { exists []. simpl. rewrite app_nil_r.
    split_and!; try done; try (by intros p ?%elem_of_nil); [lia|].
    intros _ F _. by destruct F. }
  set (q := z :: q0) in *.
  destruct (ripple_for_shape b o (length q) s q) as (new & Hfor & Hndn & Hf & Hr);
    [done..|].
  rewrite drop_all, firstn_all in *.
  assert (∀ p, p ∈ new → is_Some (board b !! p) ∧ p ∉ s) as Hnew.
  { intros p Hp. by destruct (Hf p Hp) as [? _]. }
  pose proof (unseen_app b s new Hndn Hnew) as Hsize.
  assert (NoDup (s ++ new)) as Hnd'.
  { apply NoDup_app. split_and!; [done| |done].
    intros p ? Hp. by destruct (Hnew p Hp). }
  assert (∃ ext, ripple_while fuel b o (s ++ new) new = Some (Return ((s ++ new) ++ ext)) ∧
    NoDup ((s ++ new) ++ ext) ∧
    (∀ p, p ∈ ext → fresh b o (s ++ new) p) ∧
    (∀ p, p ∈ ext → reached b (new ++ ext) p) ∧
    (length ext ≤ size (unseen b (s ++ new)))%nat ∧
    (grid_exact b → ∀ F, (length new + size (unseen b (s ++ new)) ≤ F)%nat →
       bfs_spec F b o (s ++ new) new = Some ((s ++ new) ++ ext)))
    as (ext & Hw & Hnde & Hfe & Hre & Hle & Hspec).
  { destruct new as [|x new0].
    - exists []. rewrite !app_nil_r in *.
      split_and!; try done; try (by intros p ?%elem_of_nil).
      + by destruct fuel.
      + simpl. lia.
      + intros _ F _. by destruct F.
    - apply IH; [|done|simpl in Hsize; lia].
      intros p Hp. by destruct (Hnew p Hp). }
  exists (new ++ ext). rewrite (assoc_L (++)).
  split_and!.
  - change (ripple_while (S fuel) b o s q) with
      (match ripple_for (length q) b o s q with
       | Raise e => Some (Raise e)
       | Return (sequence, queue) => ripple_while fuel b o sequence queue
       end).
    by rewrite Hfor.
  - done.
  - intros p [?|Hp]%elem_of_app; [by apply Hf|].
    destruct (Hfe p Hp) as [[? Hns] [? ?]]. split_and!; try done.
    intros ?. apply Hns. apply elem_of_app. by left.
  - intros p [Hp|Hp]%elem_of_app.
    + destruct (Hr p Hp) as (y & ? & ? & ?). exists y.
      split_and!; [|done..]. apply elem_of_app. by left.
    + destruct (Hre p Hp) as (y & ? & ? & ?). exists y.
      split_and!; [|done..]. apply elem_of_app. by right.
  - rewrite length_app. lia.
  - intros Hgrid F HF.
    replace F with (length q + (F - length q))%nat by lia.
    rewrite (bfs_spec_for b o _ _ s q (s ++ new) new Hgrid Hfor).
    apply Hspec; [done|]. lia.
Qed.

Lemma unseen_nil (b : Board) : size (unseen b []) = size (board b).
Proof.
  unfold unseen. rewrite list_to_set_nil, difference_empty_L. apply size_dom.
Qed.

Lemma ripple_sequence_run (b : Board) (row column : Z) (fuel : nat) (v : value) :
  board b !! (row, column) = Some v →
  (size (board b) < fuel)%nat →
  ∃ seq, ripple_sequence fuel row column b = Some (Return seq, b) ∧
    (v ≠ Num 0 → seq = []) ∧
    NoDup seq ∧
    (∀ p, p ∈ seq → fresh b (row, column) [] p) ∧
    (∀ p, p ∈ seq → reached b ((row, column) :: seq) p) ∧
    (length seq ≤ size (board b))%nat ∧
    (grid_exact b → ∀ F, (size (board b) < F)%nat →
       ripple_spec F b (row, column) = Some seq).
Proof.
  intros Hv Hfuel. unfold ripple_sequence, ripple_spec.
  rewrite (get_value_Some _ _ _ _ Hv), Hv.
  case_bool_decide as Hz.
  - exists []. rewrite bool_decide_eq_false_2.
    2:{ intros [= ->]. by apply Hz. }
    split_and!; try done; try (by intros p ?%elem_of_nil);
      [apply NoDup_nil_2|simpl; lia].
  - assert (v = Num 0) as ->.
    { apply str_zero. by destruct (decide (str v = "0")). }
    rewrite bool_decide_eq_true_2 by done.
    destruct (ripple_while_spec b (row, column) fuel [] [(row, column)])
      as (ext & -> & Hnd & Hf & Hr & Hle & Hspec).
    { intros p ->%list_elem_of_singleton. by rewrite Hv. }
    { apply NoDup_nil_2. }
    { by rewrite unseen_nil. }
    rewrite unseen_nil in *. simpl in *.
    exists ext. split_and!; try done;
      intros Hgrid F HF; apply Hspec; first [done|lia].
Qed.

(** C3. On a board whose grid is exactly the cells inside its dimensions
    and for a cell inside them, [ripple_sequence] returns (given fuel above
    the number of cells) and leaves the board as it was.  The sequence is
    empty when the cell's value is not 0.  It is the sequence of the
    reference breadth-first expansion: neighbours taken from the upper one
    clockwise, a neighbour included when it is within bounds, not yet in
    the result, not the origin and not uncovered, and only cells of value
    0 expanded.  No cell occurs twice, and every cell of the sequence is a
    neighbour of the origin or of a cell of the sequence, whose value
    is 0. *)
Theorem ripple_sequence_bfs (b : Board) (row column : Z) (fuel : nat) :
  grid_exact b →
  in_bounds b (row, column) →
  (size (board b) < fuel)%nat →
  ∃ seq, ripple_sequence fuel row column b = Some (Return seq, b) ∧
    (board b !! (row, column) ≠ Some (Num 0) → seq = []) ∧
    (∀ F, (size (board b) < F)%nat →
       ripple_spec F b (row, column) = Some seq) ∧
    NoDup seq ∧
    (∀ p, p ∈ seq →
       in_bounds b p ∧ p ≠ (row, column) ∧ (p ∉ uncovered b) ∧
       ∃ z, (z = (row, column) ∨ z ∈ seq) ∧ board b !! z = Some (Num 0)
            ∧ p ∈ clockwise_ring z).
Proof.
  intros Hgrid Hin Hfuel.
  destruct (proj2 (Hgrid (row, column)) Hin) as [v Hv].
  destruct (ripple_sequence_run b row column fuel v Hv Hfuel)
    as (seq & Hrun & Hnz & Hnd & Hf & Hr & _ & Hspec).
  exists seq. split_and!; try done.
  - intros Hne. apply Hnz. intros ->. by apply Hne.
  - by apply Hspec.
  - intros p Hp. destruct (Hf p Hp) as [[Hk _] [? ?]].
    split_and!; try done; [by apply Hgrid|].
    destruct (Hr p Hp) as ([zr zc] & Hz & ? & ?). exists (zr, zc).
    rewrite <- ripple_neighbors_ring. split_and!; try done.
    by apply elem_of_cons in Hz.
Qed.

(** C10. For every board (its grid is a finite map), [ripple_sequence]
    terminates: fuel above the number of cells of the grid is enough for
    the [while] loop to finish.  Every visit of a neighbour list appends
    the same new cells to the sequence and to the queue, none of them in
    the sequence before; a returned sequence holds distinct cells of the
    grid, so it is no longer than the grid has cells, which is
    [rows * columns] on a board whose grid is exactly the cells inside its
    dimensions. *)
Theorem ripple_sequence_terminates (b : Board) (row column : Z) (fuel : nat) :
  (size (board b) < fuel)%nat →
  ∃ o, ripple_sequence fuel row column b = Some (o, b) ∧
    (∀ seq, o = Return seq →
       NoDup seq ∧
       (∀ p, p ∈ seq → is_Some (board b !! p)) ∧
       (length seq ≤ size (board b))%nat ∧
       (grid_exact b → Z.of_nat (length seq) ≤ rows b * columns b)) ∧
    (∀ r c sequence queue,
       ∃ new, ripple_visit b (row, column) (ripple_neighbors r c)
                sequence queue = (sequence ++ new, queue ++ new) ∧
              NoDup new ∧
              ∀ p, p ∈ new → is_Some (board b !! p) ∧ p ∉ sequence).
Proof.
  intros Hfuel.
  assert (∀ r c sequence queue,
       ∃ new, ripple_visit b (row, column) (ripple_neighbors r c)
                sequence queue = (sequence ++ new, queue ++ new) ∧
              NoDup new ∧
              ∀ p, p ∈ new → is_Some (board b !! p) ∧ p ∉ sequence) as Hvisit.
  { intros r c sq qu. eexists. split_and!.
    - apply ripple_visit_filter, NoDup_ripple_neighbors.
    - apply NoDup_filter, NoDup_ripple_neighbors.
    - intros p Hp. by apply list_elem_of_filter in Hp as [[? _] _]. }
  destruct (board b !! (row, column)) as [v|] eqn:Hv.
  - destruct (ripple_sequence_run b row column fuel v Hv Hfuel)
      as (seq & Hrun & _ & Hnd & Hf & _ & Hle & _).
    exists (Return seq). split_and!; [done| |done].
    intros ? [= <-]. split_and!; try done.
    + intros p Hp. by destruct (Hf p Hp) as [[? _] _].
    + intros Hgrid. rewrite (grid_size b Hgrid) in Hle.
      assert (in_bounds b (row, column)) as [? ?].
      { apply Hgrid. by rewrite Hv. }
      simpl in *. nia.
  - exists (Raise IllegalIndicesException). split_and!; [|done|done].
    unfold ripple_sequence, get_value. by rewrite Hv.
Qed.

(** ** Moves *)

Lemma set_uncovered_twice (u u' : list cell) (b : Board) :
  set_uncovered u (set_uncovered u' b) = set_uncovered u b.
Proof. done. Qed.

Lemma uncover_hidden (b : Board) (r c : Z) :
  is_Some (board b !! (r, c)) → (r, c) ∉ uncovered b →
  uncover r c b = (Return tt, set_uncovered (uncovered b ++ [(r, c)]) b).
Proof.
  intros [v Hv] Hh. unfold uncover. rewrite Hv.
  by rewrite bool_decide_eq_false_2.
Qed.

Lemma uncover_all_hidden (seq : list cell) (b : Board) :
  NoDup seq →
  (∀ p, p ∈ seq → is_Some (board b !! p) ∧ p ∉ uncovered b) →
  uncover_all seq b = (Return tt, set_uncovered (uncovered b ++ seq) b).
Proof.
  revert b. induction seq as [|[r c] seq IH]; intros b Hnd Hseq.
  - simpl. rewrite app_nil_r. by destruct b.
  - apply NoDup_cons in Hnd as [Hp Hnd].
    destruct (Hseq (r, c)) as [Hk Hh]; [by left|].
    cbn [uncover_all]. unfold bind. rewrite uncover_hidden by done.
    rewrite IH; [|done|].
    + rewrite set_uncovered_twice. simpl. by rewrite <- (assoc_L (++)).
    + intros p Hp'. destruct (Hseq p) as [? ?]; [by right|].
      split; [done|]. simpl. rewrite elem_of_app, list_elem_of_singleton.
      intros [?| ->]; done.
Qed.

(** Uncovering the origin does not change the ripple from it. *)
Lemma ripple_visit_origin (b : Board) (o : cell) (nbrs s q : list cell) :
  ripple_visit (set_uncovered (uncovered b ++ [o]) b) o nbrs s q =
  ripple_visit b o nbrs s q.
Proof.
  revert s q. induction nbrs as [|p nbrs IH]; intros s q; [done|].
  cbn [ripple_visit]. rewrite !IH. simpl.
  assert (bool_decide (p ≠ o) && bool_decide (p ∉ uncovered b ++ [o]) =
          bool_decide (p ≠ o) && bool_decide (p ∉ uncovered b)) as ->; [|done].
  rewrite <- !bool_decide_and. apply bool_decide_ext.
  rewrite elem_of_app, list_elem_of_singleton. tauto.
Qed.

Lemma ripple_for_origin (b : Board) (o : cell) (n : nat) (s q : list cell) :
  ripple_for n (set_uncovered (uncovered b ++ [o]) b) o s q =
  ripple_for n b o s q.
Proof.
  revert s q. induction n as [|n IH]; intros s q; [done|].
  destruct q as [|[r c] q]; [done|]. cbn [ripple_for].
  unfold get_value. cbn [board set_uncovered].
  destruct (board b !! (r, c)) as [v|]; [|done].
  rewrite ripple_visit_origin.
  case_bool_decide; [|apply IH].
  destruct (ripple_visit b o (ripple_neighbors r c) s q). apply IH.
Qed.

Lemma ripple_while_origin (b : Board) (o : cell) (fuel : nat) (s q : list cell) :
  ripple_while fuel (set_uncovered (uncovered b ++ [o]) b) o s q =
  ripple_while fuel b o s q.
Proof.
  revert s q. induction fuel as [|fuel IH]; intros s q; [done|].
  destruct q as [|z q]; [done|]. cbn [ripple_while].
  rewrite ripple_for_origin.
  destruct (ripple_for _ b o s (z :: q)) as [[s' q']|e]; [apply IH|done].
Qed.

Lemma ripple_sequence_origin (b : Board) (row column : Z) (fuel : nat) :
  fst <$> ripple_sequence fuel row column
            (set_uncovered (uncovered b ++ [(row, column)]) b) =
  fst <$> ripple_sequence fuel row column b.
Proof.
  unfold ripple_sequence, get_value. simpl.
  destruct (board b !! (row, column)) as [v|]; [|done].
  case_bool_decide; [done|]. rewrite ripple_while_origin.
  by destruct (ripple_while fuel b (row, column) [] [(row, column)]).
Qed.

Lemma make_move_run (b : Board) (row column : Z) (fuel : nat) (v : value) :
  board b !! (row, column) = Some v →
  (row, column) ∉ uncovered b →
  (size (board b) < fuel)%nat →
  ∃ b1 seq,
    b1 = set_uncovered (uncovered b ++ [(row, column)]) b ∧
    uncover row column b = (Return tt, b1) ∧
    ripple_sequence fuel row column b = Some (Return seq, b) ∧
    ripple_sequence fuel row column b1 = Some (Return seq, b1) ∧
    NoDup seq ∧
    (∀ p, p ∈ seq → is_Some (board b1 !! p) ∧ p ∉ uncovered b1) ∧
    uncover_all seq b1 = (Return tt, set_uncovered (uncovered b1 ++ seq) b1) ∧
    make_move fuel row column b =
      Some (Return (str v),
            if decide (v = Mine) then b1
            else set_uncovered (uncovered b1 ++ seq) b1).
Proof.
  intros Hv Hh Hfuel.
  set (b1 := set_uncovered (uncovered b ++ [(row, column)]) b).
  assert (uncover row column b = (Return tt, b1)) as Hu.
  { apply uncover_hidden; [by rewrite Hv|done]. }
  destruct (ripple_sequence_run b1 row column fuel v Hv Hfuel)
    as (seq & Hrun1 & _ & Hnd & Hf & _).
  destruct (ripple_sequence_run b row column fuel v Hv Hfuel)
    as (seq' & Hrun & _).
  pose proof (ripple_sequence_origin b row column fuel) as Ho.
  fold b1 in Ho. rewrite Hrun1, Hrun in Ho. simpl in Ho.
  injection Ho as <-.
  assert (∀ p, p ∈ seq → is_Some (board b1 !! p) ∧ p ∉ uncovered b1) as Hseq.
  { intros p Hp. by destruct (Hf p Hp) as [[? _] [_ ?]]. }
  pose proof (uncover_all_hidden seq b1 Hnd Hseq) as Hall.
  exists b1, seq. split_and!; try done.
  unfold make_move. rewrite Hu, (get_value_Some b1 _ _ _ Hv).
  destruct (decide (v = Mine)) as [->|Hm].
  - by rewrite bool_decide_eq_false_2 by (by intros ?).
  - rewrite bool_decide_eq_true_2 by (by rewrite str_Mine).
    by rewrite Hrun1, Hall.
Qed.

(** C2. On a board whose grid is exactly the cells inside its dimensions,
    with legal values, for a hidden cell inside the dimensions (and fuel
    above the number of cells), [make_move] returns the value of the cell
    as a string of one character and changes nothing but the list of
    uncovered cells.  If the cell holds a mine the string is ["*"] and only
    the cell itself is appended to the uncovered cells; otherwise the cell
    is appended, followed by the cells of its ripple sequence in the order
    of the sequence. *)
Theorem make_move_spec (b : Board) (row column : Z) (fuel : nat) :
  grid_exact b →
  values_legal b →
  in_bounds b (row, column) →
  (row, column) ∉ uncovered b →
  (size (board b) < fuel)%nat →
  ∃ v b', board b !! (row, column) = Some v ∧
    make_move fuel row column b = Some (Return (str v), b') ∧
    String.length (str v) = 1%nat ∧
    rows b' = rows b ∧ columns b' = columns b ∧
    board b' = board b ∧ startState b' = startState b ∧
    (v = Mine →
       str v = "*" ∧ uncovered b' = uncovered b ++ [(row, column)]) ∧
    (v ≠ Mine →
       ∃ seq, ripple_sequence fuel row column b = Some (Return seq, b) ∧
              uncovered b' = uncovered b ++ (row, column) :: seq).
Proof.
  intros Hgrid Hlegal Hin Hh Hfuel.
  destruct (proj2 (Hgrid (row, column)) Hin) as [v Hv].
  destruct (make_move_run b row column fuel v Hv Hh Hfuel)
    as (b1 & seq & -> & _ & Hrun & _ & _ & _ & _ & Hmove).
  exists v. eexists. split; [done|]. split; [exact Hmove|].
  split.
  { apply str_length. intros n ->. by apply (Hlegal _ _ Hv). }
  destruct (decide (v = Mine)) as [->|Hm]; simpl; split_and!; try done.
  intros _. exists seq. split; [done|]. by rewrite <- (assoc_L (++)).
Qed.

(** C8. On a board whose grid is exactly the cells inside its dimensions,
    for a hidden cell inside them (and fuel above the number of cells),
    the first [uncover] of [make_move] returns and the ripple sequence
    computed afterwards has distinct cells; each of them is a cell of the
    grid that is still hidden when its turn comes, so each [uncover] call
    of the loop returns, the whole loop returns, and [make_move] does not
    raise [IllegalMoveException]. *)
Theorem ripple_uncover_never_illegal (b : Board) (row column : Z) (fuel : nat) :
  grid_exact b →
  in_bounds b (row, column) →
  (row, column) ∉ uncovered b →
  (size (board b) < fuel)%nat →
  ∃ b1 seq,
    uncover row column b = (Return tt, b1) ∧
    ripple_sequence fuel row column b1 = Some (Return seq, b1) ∧
    NoDup seq ∧
    (∀ i p, seq !! i = Some p →
       (p ∉ uncovered b1 ++ take i seq) ∧
       uncover p.1 p.2 (set_uncovered (uncovered b1 ++ take i seq) b1) =
         (Return tt, set_uncovered (uncovered b1 ++ take (S i) seq) b1)) ∧
    uncover_all seq b1 = (Return tt, set_uncovered (uncovered b1 ++ seq) b1) ∧
    (∀ o b', make_move fuel row column b = Some (o, b') →
       o ≠ Raise IllegalMoveException).
Proof.
  intros Hgrid Hin Hh Hfuel.
  destruct (proj2 (Hgrid (row, column)) Hin) as [v Hv].
  destruct (make_move_run b row column fuel v Hv Hh Hfuel)
    as (b1 & seq & Hb1 & Hu & _ & Hrun & Hnd & Hseq & Hall & Hmove).
  exists b1, seq. split_and!; try done.
  - intros i [r c] Hi.
    assert ((r, c) ∉ uncovered b1 ++ take i seq) as Hfree.
    { rewrite elem_of_app. intros [Hp|Hp].
      - destruct (Hseq (r, c)); [|done]. by eapply list_elem_of_lookup_2.
      - rewrite <- (take_drop_middle seq i (r, c) Hi) in Hnd.
        apply NoDup_app in Hnd as (_ & Hnd & _).
        apply (Hnd (r, c) Hp). by left. }
    split; [done|]. simpl.
    rewrite uncover_hidden.
    + rewrite set_uncovered_twice. simpl.
      by rewrite (take_S_r seq i (r, c) Hi), (assoc_L (++)).
    + simpl. destruct (Hseq (r, c)) as [Hk _]; [|done].
      by eapply list_elem_of_lookup_2.
    + done.
  - intros o b'. rewrite Hmove. by intros [= <- _].
Qed.


(** ** Loading *)

Lemma rstrip_empty (s : string) : rstrip s = "" ↔ whitespace_only s.
Proof.
  unfold whitespace_only. induction s as [|a s IH]; simpl.
  - split; [constructor|done].
  - rewrite Forall_cons. destruct (rstrip s) as [|a' t].
    + destruct (is_space a); split; try done.
      * intros _. split; [done|]. by apply IH.
      * by intros [? _].
    + split; [done|]. intros [_ H]. by apply IH in H.
Qed.

Lemma lstrip_empty (s : string) : lstrip s = "" → whitespace_only s.
Proof.
  unfold whitespace_only. induction s as [|a s IH]; simpl; [constructor|].
  destruct (is_space a) eqn:Ha; [|done].
  intros H. constructor; [done|by apply IH].
Qed.

Lemma rstrip_whitespace_only (s : string) :
  whitespace_only (rstrip s) → rstrip s = "".
Proof.
  unfold whitespace_only. induction s as [|a s IH]; simpl; [done|].
  destruct (rstrip s) as [|a' t].
  - destruct (is_space a) eqn:Ha; [done|].
    simpl. rewrite Forall_cons. intros [? _]. congruence.
  - simpl. rewrite Forall_cons. intros [_ H]. by apply IH in H.
Qed.

Lemma strip_empty (s : string) : strip s = "" ↔ whitespace_only s.
Proof.
  unfold strip. split.
  - intros H. by apply rstrip_empty, rstrip_whitespace_only, lstrip_empty.
  - intros H. apply rstrip_empty in H. by rewrite H.
Qed.

Lemma kept_lines_remaining (lines : list string) :
  kept_lines lines = remaining_lines lines.
Proof.
  unfold kept_lines, remaining_lines. f_equal.
  apply list_filter_iff. intros line. by rewrite strip_empty.
Qed.

Lemma load_pairs_spec (r c : Z) (pairs : list string)
  (nb : gmap cell value) (nu : list cell) :
  (Forall legal_token pairs ∧
   ∃ nb' nu', load_pairs r c pairs nb nu = Return (nb', nu'))
  ∨ (¬ Forall legal_token pairs ∧
     load_pairs r c pairs nb nu = Raise BoardFormatException).
Proof.
  revert c nb nu. induction pairs as [|p pairs IH]; intros c nb nu.
  - left. split; [constructor|]. by eexists _, _.
  - cbn [load_pairs].
    destruct p as [|x [|y [|z p]]]; simpl;
      try (right; split; [by intros [[] _]%Forall_cons|done]).
    case_bool_decide as Hbad.
    + right. split; [|done]. intros [[? ?] _]%Forall_cons. tauto.
    + assert (legal_token (String x (String y ""))) as Hp.
      { simpl. split.
        - destruct (decide (x ∈ legalValues)); tauto.
        - destruct (decide (y ∈ legalStates)); tauto. }
      match goal with |- context [load_pairs r (c + 1) pairs ?m ?u] =>
        destruct (IH (c + 1) m u) as [[Hall Hret]|[Hnot Hraise]] end.
      * left. split; [by constructor|done].
      * right. split; [|done]. by intros [_ ?]%Forall_cons.
Qed.

Lemma load_lines_spec (cols r : Z) (lines : list string)
  (nb : gmap cell value) (nu : list cell) (d : bool) :
  (Forall line_legal lines ∧
   ∃ nb' nu', load_lines cols r lines nb nu d =
     Return (nb', nu',
             d || bool_decide
                    (Exists (λ line, Z.of_nat (length (tokens line)) ≠ cols)
                            lines)))
  ∨ (¬ Forall line_legal lines ∧
     load_lines cols r lines nb nu d = Raise BoardFormatException).
Proof.
  revert r nb nu d. induction lines as [|line lines IH]; intros r nb nu d.
  - left. split; [constructor|]. eexists _, _. simpl.
    by rewrite orb_false_r.
  - cbn [load_lines]. fold (tokens line).
    destruct (load_pairs_spec r 0 (tokens line) nb nu)
      as [[Hall (nb1 & nu1 & ->)]|[Hnot ->]].
    + match goal with |- context [load_lines cols (r + 1) lines nb1 nu1 ?d'] =>
        destruct (IH (r + 1) nb1 nu1 d') as [[Hrest (nb2 & nu2 & ->)]|[Hnot ->]]
      end.
      * left. split; [by constructor|]. eexists _, _. f_equal. f_equal.
        rewrite (bool_decide_ext (Exists _ (line :: lines)) _
                   (Exists_cons _ _ _)), bool_decide_or.
        by destruct d, (bool_decide (_ ≠ cols)), (bool_decide (Exists _ _)).
      * right. split; [|done]. by intros [_ ?]%Forall_cons.
    + right. split; [|done]. by intros [? _]%Forall_cons.
Qed.

Lemma some_token_illegal_Forall (lines : list string) :
  some_token_illegal lines ↔ ¬ Forall line_legal lines.
Proof.
  unfold some_token_illegal, line_legal. split.
  - intros (line & t & Hl & Ht & Hbad) Hall.
    rewrite Forall_forall in Hall. specialize (Hall line Hl).
    rewrite Forall_forall in Hall. by apply Hbad, Hall.
  - intros Hnot. apply not_Forall_Exists in Hnot; [|apply _].
    apply Exists_exists in Hnot as (line & Hl & Hline). simpl in Hline.
    apply not_Forall_Exists in Hline; [|apply _].
    apply Exists_exists in Hline as (t & Ht & Hbad). by exists line, t.
Qed.

Lemma dimensions_disagree_decide (b : Board) (lines : list string) :
  dimensions_disagree b lines ↔
  bool_decide (Z.of_nat (length lines) ≠ rows b)
  || bool_decide
       (Exists (λ line, Z.of_nat (length (tokens line)) ≠ columns b) lines)
  = true.
Proof.
  unfold dimensions_disagree.
  rewrite orb_true_iff, !bool_decide_eq_true, Exists_exists. done.
Qed.

(** C6. After the blank and whitespace-only lines are discarded,
    [load_board] raises [BoardFormatException] exactly when no line remains
    or some token is not a legal pair of a value and a state.  It raises
    [DimensionsMismatchException] exactly when lines remain, every token is
    legal and the number of lines or the number of tokens of some line
    disagrees with the dimensions; so when both could apply the format
    error is the one raised.  It raises nothing else. *)
Theorem load_board_errors (lines : list string) (b : Board) :
  (fst (load_board lines b) = Raise BoardFormatException
   ↔ remaining_lines lines = []
     ∨ some_token_illegal (remaining_lines lines)) ∧
  (fst (load_board lines b) = Raise DimensionsMismatchException
   ↔ remaining_lines lines ≠ []
     ∧ ¬ some_token_illegal (remaining_lines lines)
     ∧ dimensions_disagree b (remaining_lines lines)) ∧
  (fst (load_board lines b) = Return tt
   ↔ remaining_lines lines ≠ []
     ∧ ¬ some_token_illegal (remaining_lines lines)
     ∧ ¬ dimensions_disagree b (remaining_lines lines)).
Proof.
  unfold load_board. rewrite kept_lines_remaining.
  set (kept := remaining_lines lines).
  rewrite some_token_illegal_Forall, dimensions_disagree_decide.
  case_bool_decide as Hempty.
  { simpl. split_and!; split; try done; try tauto; by intros [? _]. }
  destruct (load_lines_spec (columns b) 0 kept ∅ []
              (bool_decide (Z.of_nat (length kept) ≠ rows b)))
    as [[Hall (nb & nu & ->)]|[Hnot ->]].
  - destruct (_ || _) eqn:Hd; simpl.
    + split_and!; split; try done; try tauto; intros; intuition congruence.
    + split_and!; split; try done; try tauto; intros; intuition congruence.
  - simpl. split_and!; split; try done; try tauto; intros; intuition congruence.
Qed.

(** C9. Whenever [load_board] raises, the board it leaves behind is the
    board it was called on: the new grid and the new list of uncovered
    cells are built in local variables and assigned only after the last
    check.  The exception is one of the two of the load format. *)
Theorem load_board_raise_unchanged (lines : list string) (b b' : Board)
  (e : exn) :
  load_board lines b = (Raise e, b') →
  b' = b ∧ (e = BoardFormatException ∨ e = DimensionsMismatchException).
Proof.
  unfold load_board. case_bool_decide as Hempty.
  { intros [= <- <-]. split; [done|by left]. }
  destruct (load_lines_spec (columns b) 0 (kept_lines lines) ∅ []
              (bool_decide (Z.of_nat (length (kept_lines lines)) ≠ rows b)))
    as [[Hall (nb & nu & ->)]|[Hnot ->]].
  - destruct (_ || _); [|done]. intros [= <- <-]. split; [done|by right].
  - intros [= <- <-]. split; [done|by left].
Qed.

(** ** Saving, and loading what was saved *)

Lemma string_app_cons (a : ascii) (s t : string) :
  String a s +:+ t = String a (s +:+ t).
Proof. reflexivity. Qed.

Lemma string_app_nil_l (t : string) : "" +:+ t = t.
Proof. reflexivity. Qed.

Lemma string_app_assoc (s1 s2 s3 : string) :
  (s1 +:+ s2) +:+ s3 = s1 +:+ s2 +:+ s3.
Proof.
  induction s1 as [|a s1 IH]; [done|].
  rewrite !string_app_cons. by f_equal.
Qed.

Lemma string_app_nil_r (s : string) : s +:+ "" = s.
Proof.
  induction s as [|a s IH]; [done|]. rewrite string_app_cons. by f_equal.
Qed.

Lemma str_value_char (v : value) :
  legal_value v → str v = String (value_char v) "".
Proof.
  destruct v as [n|]; [|done]. simpl. intros Hn.
  do 9 (destruct n as [|n]; [done|]). lia.
Qed.

Lemma value_char_parse (v : value) :
  legal_value v →
  value_char v ∈ legalValues ∧
  is_space (value_char v) = false ∧
  (if bool_decide (value_char v = "*"%char) then Mine
   else Num (int (value_char v))) = v.
Proof.
  destruct v as [n|]; intros Hn.
  - cbn [legal_value] in Hn.
    do 9 (destruct n as [|n]; [by compute_done|]). lia.
  - by compute_done.
Qed.

Lemma state_ascii_parse (b : Board) (p : cell) :
  state_ascii b p ∈ legalStates ∧
  is_space (state_ascii b p) = false ∧
  (state_ascii b p = "S"%char ↔ p ∈ uncovered b).
Proof.
  unfold state_ascii. case_bool_decide; split_and!; try done;
    try (by compute_done); split; done.
Qed.

Lemma token_text (b : Board) (p : cell) (v : value) :
  board b !! p = Some v → legal_value v →
  str v +:+ state_char b p +:+ " " = token b p +:+ " ".
Proof.
  intros Hv Hl. unfold token, state_char, state_ascii.
  rewrite Hv, (str_value_char v Hl). by case_bool_decide.
Qed.

Lemma save_line_spec (b : Board) (r : Z) (cs : list Z) (line : string) :
  (∀ c, c ∈ cs → ∃ v, board b !! (r, c) = Some v ∧ legal_value v) →
  save_line r cs line b =
  (Return (line +:+ line_of ((λ c, token b (r, c)) <$> cs)), b).
Proof.
  revert line. induction cs as [|c cs IH]; intros line Hcs.
  - simpl. by rewrite string_app_nil_r.
  - destruct (Hcs c) as (v & Hv & Hl); [by left|].
    cbn [save_line]. rewrite Hv, IH.
    + rewrite (token_text b (r, c) v Hv Hl), !string_app_assoc. done.
    + intros c' ?. apply Hcs. by right.
Qed.

Lemma save_lines_spec (b : Board) (rs : list Z) (lines : list string) :
  (∀ r c, r ∈ rs → c ∈ range (columns b) →
          ∃ v, board b !! (r, c) = Some v ∧ legal_value v) →
  save_lines rs lines b =
  (Return (lines ++ ((λ r, line_of (row_tokens b r) +:+ "
") <$> rs)), b).
Proof.
  revert lines. induction rs as [|r rs IH]; intros lines Hrs.
  - simpl. by rewrite app_nil_r.
  - cbn [save_lines]. unfold bind, getColumns.
    rewrite save_line_spec.
    + rewrite IH.
      * simpl. by rewrite <- (assoc_L (++)).
      * intros r' c ? ?. apply Hrs; [by right|done].
    + intros c ?. apply Hrs; [by left|done].
Qed.

Lemma join_tokens_head (t : string) (toks : list string) :
  solid_token t →
  ∃ x rest, join_tokens (t :: toks) = String x rest ∧ is_space x = false.
Proof.
  destruct t as [|x [|y [|z t]]]; try done. intros [Hx Hy].
  destruct toks as [|t' toks]; by eexists _, _.
Qed.

Lemma rstrip_line (toks : list string) :
  Forall solid_token toks →
  rstrip (line_of toks +:+ "
") = join_tokens toks.
Proof.
  induction toks as [|t toks IH]; intros Hs; [done|].
  apply Forall_cons in Hs as [Ht Hs]. specialize (IH Hs).
  destruct t as [|x [|y [|z t]]]; try done. destruct Ht as [Hx Hy].
  change (rstrip (String x (String y (String " " (line_of toks +:+ "
")))) = join_tokens (String x (String y "") :: toks)).
  cbn [rstrip]. rewrite IH.
  destruct toks as [|t' toks].
  - cbn [join_tokens]. by rewrite Hy.
  - apply Forall_cons in Hs as [Ht' _].
    destruct (join_tokens_head t' toks Ht') as (x' & rest & Hj & _).
    change (join_tokens (String x (String y "") :: t' :: toks))
      with (String x (String y (String " " (join_tokens (t' :: toks))))).
    by rewrite Hj.
Qed.

Lemma lstrip_join (toks : list string) :
  Forall solid_token toks → lstrip (join_tokens toks) = join_tokens toks.
Proof.
  destruct toks as [|t toks]; [done|]. intros [Ht _]%Forall_cons.
  destruct (join_tokens_head t toks Ht) as (x & rest & -> & Hx).
  cbn [lstrip]. by rewrite Hx.
Qed.

Lemma strip_line (toks : list string) :
  Forall solid_token toks →
  strip (line_of toks +:+ "
") = join_tokens toks.
Proof. intros Hs. unfold strip. by rewrite rstrip_line, lstrip_join. Qed.

Lemma not_space_not_blank (x : ascii) :
  is_space x = false → bool_decide (x = " "%char) = false.
Proof. intros Hx. apply bool_decide_eq_false_2. by intros ->. Qed.

Lemma split_join (toks : list string) :
  toks ≠ [] → Forall solid_token toks →
  split " " (join_tokens toks) = toks.
Proof.
  induction toks as [|t toks IH]; [done|]. intros _ [Ht Hs]%Forall_cons.
  destruct t as [|x [|y [|z t]]]; try done. destruct Ht as [Hx Hy].
  destruct toks as [|t' toks].
  - cbn [join_tokens split].
    by rewrite (not_space_not_blank x Hx), (not_space_not_blank y Hy).
  - change (join_tokens (String x (String y "") :: t' :: toks))
      with (String x (String y (String " " (join_tokens (t' :: toks))))).
    cbn [split].
    rewrite (not_space_not_blank x Hx), (not_space_not_blank y Hy).
    rewrite bool_decide_eq_true_2 by done.
    by rewrite IH.
Qed.

Lemma join_tokens_not_empty (toks : list string) :
  toks ≠ [] → Forall solid_token toks → join_tokens toks ≠ "".
Proof.
  destruct toks as [|t toks]; [done|]. intros _ [Ht _]%Forall_cons.
  by destruct (join_tokens_head t toks Ht) as (x & rest & -> & _).
Qed.

Lemma kept_lines_saved {A} (f : A → list string) (l : list A) :
  (∀ x, x ∈ l → f x ≠ [] ∧ Forall solid_token (f x)) →
  kept_lines ((λ x, line_of (f x) +:+ "
") <$> l) = (λ x, join_tokens (f x)) <$> l.
Proof.
  unfold kept_lines. induction l as [|x l IH]; intros Hl; [done|].
  destruct (Hl x) as [Hne Hs]; [by left|].
  cbn [fmap list_fmap]. rewrite filter_cons_True.
  - cbn [fmap list_fmap]. rewrite strip_line by done. f_equal.
    apply IH. intros y ?. apply Hl. by right.
  - rewrite strip_line by done. by apply join_tokens_not_empty.
Qed.

Lemma token_solid (b : Board) (p : cell) (v : value) :
  board b !! p = Some v → legal_value v → solid_token (token b p).
Proof.
  intros Hv Hl. unfold token. rewrite Hv. simpl.
  destruct (value_char_parse v Hl) as (_ & ? & _).
  by destruct (state_ascii_parse b p) as (_ & ? & _).
Qed.

Lemma seqZ_succ (m : Z) (k : nat) :
  seqZ m (Z.of_nat (S k)) = m :: seqZ (m + 1) (Z.of_nat k).
Proof.
  rewrite seqZ_cons by lia. f_equal. f_equal; lia.
Qed.

Lemma load_pairs_row (b : Board) (r : Z) (k : nat) (c0 : Z)
  (nb : gmap cell value) (nu : list cell) :
  (∀ c, c0 ≤ c < c0 + Z.of_nat k →
        ∃ v, board b !! (r, c) = Some v ∧ legal_value v) →
  ∃ nb' nu',
    load_pairs r c0 ((λ c, token b (r, c)) <$> seqZ c0 (Z.of_nat k)) nb nu
      = Return (nb', nu') ∧
    (∀ p, nb' !! p =
          if decide (p.1 = r ∧ c0 ≤ p.2 < c0 + Z.of_nat k)
          then board b !! p else nb !! p) ∧
    (∀ p, p ∈ nu' ↔
          p ∈ nu ∨ (p ∈ uncovered b ∧ p.1 = r ∧ c0 ≤ p.2 < c0 + Z.of_nat k)).
Proof.
  revert c0 nb nu. induction k as [|k IH]; intros c0 nb nu Hrow.
  - exists nb, nu. split_and!; [done|..].
    + intros p. rewrite decide_False; [done|lia].
    + intros p. split; [by left|]. intros [?|(_ & _ & ?)]; [done|lia].
  - rewrite seqZ_succ. cbn [fmap list_fmap load_pairs].
    destruct (Hrow c0) as (v & Hv & Hl); [lia|].
    unfold token at 1. rewrite Hv. cbn [String.list_ascii_of_string].
    destruct (value_char_parse v Hl) as (Hx & _ & Hparse).
    destruct (state_ascii_parse b (r, c0)) as (Hy & _ & Hstate).
    rewrite bool_decide_eq_false_2 by tauto.
    match goal with |- context [load_pairs r (c0 + 1) _ ?m ?u] =>
      destruct (IH (c0 + 1) m u) as (nb' & nu' & -> & Hnb & Hnu) end.
    { intros c ?. apply Hrow. lia. }
    exists nb', nu'. split_and!; [done|..].
    + intros [pr pc]. rewrite Hnb. simpl.
      destruct (decide ((pr, pc) = (r, c0))) as [[= -> ->]|Hne].
      * rewrite decide_False by lia. rewrite decide_True by lia.
        rewrite Hv.
        destruct (bool_decide (value_char v = "*"%char));
          rewrite lookup_insert_eq; by rewrite Hparse.
      * assert ((if bool_decide (value_char v = "*"%char)
                 then <[(r, c0) := Mine]> nb
                 else <[(r, c0) := Num (int (value_char v))]> nb) !! (pr, pc)
                = nb !! (pr, pc)) as ->
          by (destruct (bool_decide (value_char v = "*"%char));
              by rewrite lookup_insert_ne).
        destruct (decide (pr = r ∧ c0 + 1 ≤ pc < c0 + 1 + Z.of_nat k))
          as [HA|HA],
          (decide (pr = r ∧ c0 ≤ pc < c0 + Z.of_nat (S k))) as [HB|HB];
          try done; exfalso.
        -- apply HB. lia.
        -- destruct HB as [-> ?].
           destruct (decide (pc = c0)) as [->|]; [by apply Hne|].
           apply HA. lia.
    + intros [pr pc]. rewrite Hnu. simpl. case_bool_decide as HS.
      * apply Hstate in HS. rewrite elem_of_app, list_elem_of_singleton.
        split.
        -- intros [[?|[= -> ->]]|(? & ? & ?)]; [by left|right..];
             split_and!; try done; lia.
        -- intros [?|(? & -> & ?)]; [by left; left|].
           destruct (decide (pc = c0)) as [->|]; [left; by right|].
           right. split_and!; try done; lia.
      * assert ((r, c0) ∉ uncovered b) as Hnot by (by rewrite <- Hstate).
        split.
        -- intros [?|(? & ? & ?)]; [by left|right]. split_and!; try done; lia.
        -- intros [?|(? & -> & ?)]; [by left|].
           destruct (decide (pc = c0)) as [->|]; [done|].
           right. split_and!; try done; lia.
Qed.

Lemma row_tokens_facts (b : Board) (r : Z) :
  1 ≤ columns b →
  (∀ c, 0 ≤ c < columns b →
        ∃ v, board b !! (r, c) = Some v ∧ legal_value v) →
  row_tokens b r ≠ [] ∧ Forall solid_token (row_tokens b r) ∧
  Z.of_nat (length (row_tokens b r)) = columns b.
Proof.
  intros Hc Hrow. unfold row_tokens, range. split_and!.
  - rewrite seqZ_cons by lia. done.
  - apply Forall_fmap, Forall_forall. intros c Hc'%elem_of_seqZ. simpl.
    destruct (Hrow c) as (v & Hv & Hl); [lia|]. by eapply token_solid.
  - rewrite length_fmap, length_seqZ. lia.
Qed.

Lemma load_lines_rows (b : Board) (k : nat) (r0 : Z)
  (nb : gmap cell value) (nu : list cell) (d : bool) :
  1 ≤ columns b →
  (∀ r c, r0 ≤ r < r0 + Z.of_nat k → 0 ≤ c < columns b →
          ∃ v, board b !! (r, c) = Some v ∧ legal_value v) →
  ∃ nb' nu',
    load_lines (columns b) r0
      ((λ r, join_tokens (row_tokens b r)) <$> seqZ r0 (Z.of_nat k)) nb nu d
      = Return (nb', nu', d) ∧
    (∀ p, nb' !! p =
          if decide (r0 ≤ p.1 < r0 + Z.of_nat k ∧ 0 ≤ p.2 < columns b)
          then board b !! p else nb !! p) ∧
    (∀ p, p ∈ nu' ↔
          p ∈ nu ∨ (p ∈ uncovered b ∧ r0 ≤ p.1 < r0 + Z.of_nat k
                    ∧ 0 ≤ p.2 < columns b)).
Proof.
  intros Hc. revert r0 nb nu. induction k as [|k IH]; intros r0 nb nu Hrows.
  - exists nb, nu. split_and!; [done|..].
    + intros p. rewrite decide_False; [done|lia].
    + intros p. split; [by left|]. intros [?|(_ & ? & _)]; [done|lia].
  - rewrite seqZ_succ. cbn [fmap list_fmap load_lines].
    destruct (row_tokens_facts b r0 Hc) as (Hne & Hsolid & Hlen).
    { intros c ?. apply Hrows; lia. }
    rewrite split_join by done. rewrite Hlen.
    rewrite bool_decide_eq_false_2 by (by intros ?).
    destruct (load_pairs_row b r0 (Z.to_nat (columns b)) 0 nb nu)
      as (nb1 & nu1 & Hp & Hnb1 & Hnu1).
    { intros c ?. apply Hrows; lia. }
    unfold row_tokens at 1, range. rewrite Z2Nat.id in Hp, Hnb1, Hnu1 by lia.
    rewrite Hp.
    destruct (IH (r0 + 1) nb1 nu1) as (nb' & nu' & -> & Hnb & Hnu).
    { intros r c ? ?. apply Hrows; lia. }
    exists nb', nu'. split_and!; [done|..].
    + intros [pr pc]. rewrite Hnb, Hnb1. simpl.
      repeat case_decide; try done; lia.
    + intros [pr pc]. rewrite Hnu, Hnu1. simpl. split.
      * intros [[?|(? & ? & ?)]|(? & ? & ?)]; [by left|right..];
          split_and!; try done; lia.
      * intros [?|(? & ? & ?)]; [by left; left|].
        destruct (decide (pr = r0)) as [->|].
        -- left. right. split_and!; try done; lia.
        -- right. split_and!; try done; lia.
Qed.

(** C4. A board whose grid is exactly the cells inside its dimensions,
    with legal values and uncovered cells inside the grid (dimensions at
    least 1 by 1), is saved without error, and loading the saved body lines
    into any board of the same dimensions (a fresh one in particular)
    succeeds and gives the same grid of values and the same set of
    uncovered cells. *)
Theorem save_load_roundtrip (b b0 : Board) :
  grid_exact b → uncovered_in_grid b → values_legal b →
  1 ≤ rows b → 1 ≤ columns b →
  rows b0 = rows b → columns b0 = columns b →
  ∃ lines b',
    save_body b = (Return lines, b) ∧
    load_board lines b0 = (Return tt, b') ∧
    board b' = board b ∧
    (∀ p, p ∈ uncovered b' ↔ p ∈ uncovered b) ∧
    rows b' = rows b ∧ columns b' = columns b.
Proof.
  intros Hgrid Hunc Hlegal Hr Hc Hr0 Hc0.
  assert (∀ r c, 0 ≤ r < rows b → 0 ≤ c < columns b →
                 ∃ v, board b !! (r, c) = Some v ∧ legal_value v) as Hcells.
  { intros r c ? ?. destruct (proj2 (Hgrid (r, c))) as [v Hv]; [done|].
    exists v. split; [done|]. destruct v as [n|]; [|done].
    by apply (Hlegal _ _ Hv). }
  destruct (load_lines_rows b (Z.to_nat (rows b)) 0 ∅ []
              (bool_decide (Z.of_nat (length
                 ((λ r, join_tokens (row_tokens b r)) <$>
                  seqZ 0 (rows b))) ≠ rows b)) Hc)
    as (nb' & nu' & Hload & Hnb & Hnu).
  { intros r c ? ?. apply Hcells; lia. }
  rewrite Z2Nat.id in Hload, Hnb, Hnu by lia.
  exists ((λ r, line_of (row_tokens b r) +:+ "
") <$> range (rows b)), (set_uncovered nu' (set_board nb' b0)).
  split.
  { unfold save_body, bind, getRows. rewrite save_lines_spec; [done|].
    intros r c ?%elem_of_range ?%elem_of_range. by apply Hcells. }
  split.
  { unfold load_board. rewrite kept_lines_saved.
    2:{ intros r ?%elem_of_range.
        destruct (row_tokens_facts b r Hc) as (? & ? & _); [|done].
        intros c ?. by apply Hcells. }
    unfold range. rewrite Hc0, Hr0, Hload.
    rewrite bool_decide_eq_false_2.
    2:{ intros Hnil. apply fmap_nil_inv in Hnil.
        rewrite seqZ_cons in Hnil by lia. done. }
    rewrite bool_decide_eq_false_2; [done|].
    rewrite length_fmap, length_seqZ. lia. }
  simpl. split_and!; try done.
  - apply map_eq. intros p. rewrite Hnb, lookup_empty.
    destruct (decide _) as [Hp|Hp]; [done|].
    symmetry. apply eq_None_not_Some. intros Hsome. apply Hp.
    apply Hgrid in Hsome. unfold in_bounds in Hsome. lia.
  - intros p. rewrite Hnu. split.
    + intros [?%elem_of_nil|(? & _)]; done.
    + intros Hp. right. split; [done|].
      apply Hunc, Hgrid in Hp. unfold in_bounds in Hp. lia.
Qed.

(** ** Scattering mines *)

Lemma elem_of_mined_cells (g : gmap cell value) (p : cell) :
  p ∈ mined_cells g ↔ g !! p = Some Mine.
Proof.
  unfold mined_cells. rewrite elem_of_dom. unfold is_Some. split.
  - intros [v Hv]. apply map_lookup_filter_Some in Hv as [Hv Hm].
    simpl in Hm. by subst.
  - intros Hp. exists Mine. by apply map_lookup_filter_Some.
Qed.

Lemma mined_cells_subseteq (g : gmap cell value) : mined_cells g ⊆ dom g.
Proof.
  intros p Hp%elem_of_mined_cells. apply elem_of_dom. by rewrite Hp.
Qed.

Lemma mined_cells_ext (g g' : gmap cell value) :
  (∀ p, g' !! p = Some Mine ↔ g !! p = Some Mine) →
  mined_cells g' = mined_cells g.
Proof.
  intros H. apply set_eq. intros p. by rewrite !elem_of_mined_cells.
Qed.

Lemma mined_cells_insert_mine (g : gmap cell value) (p : cell) (n : nat) :
  g !! p = Some (Num n) →
  size (mined_cells (<[p := Mine]> g)) = S (size (mined_cells g)).
Proof.
  intros Hp.
  assert (mined_cells (<[p := Mine]> g) = {[p]} ∪ mined_cells g) as ->.
  { apply set_eq. intros q.
    rewrite elem_of_union, elem_of_singleton, !elem_of_mined_cells.
    destruct (decide (q = p)) as [->|Hne].
    - rewrite lookup_insert_eq. tauto.
    - rewrite lookup_insert_ne by done. tauto. }
  rewrite size_union, size_singleton; [done|].
  intros q ->%elem_of_singleton Hq%elem_of_mined_cells. congruence.
Qed.

Lemma neighbors_is_neighbor (r c : Z) (q : cell) :
  q ∈ [(r-1, c-1); (r-1, c); (r-1, c+1); (r, c-1);
       (r, c+1); (r+1, c-1); (r+1, c); (r+1, c+1)]
  ↔ is_neighbor (r, c) q.
Proof.
  destruct q as [qr qc]. unfold is_neighbor. simpl.
  rewrite !elem_of_cons, elem_of_nil. split.
  - intros H. repeat destruct H as [H|H]; try done;
      injection H as -> ->; (split; [intros [=]; lia|lia]).
  - intros (Hne & Hr & Hc).
    assert (qr = r - 1 ∨ qr = r ∨ qr = r + 1) as Hqr by lia.
    assert (qc = c - 1 ∨ qc = c ∨ qc = c + 1) as Hqc by lia.
    destruct Hqr as [->|[->| ->]], Hqc as [->|[->| ->]]; tauto.
Qed.

Lemma updateCell_count (g : gmap cell value) (r c : Z) :
  length (filter (λ p, g !! p = Some Mine)
            (filter (λ p, is_Some (g !! p))
               [(r-1, c-1); (r-1, c); (r-1, c+1); (r, c-1);
                (r, c+1); (r+1, c-1); (r+1, c); (r+1, c+1)]))
  = mined_neighbors g (r, c).
Proof.
  unfold mined_neighbors.
  set (l := [(r-1, c-1); (r-1, c); (r-1, c+1); (r, c-1);
             (r, c+1); (r+1, c-1); (r+1, c); (r+1, c+1)]).
  assert (NoDup l) as Hnd by (unfold l; solve_distinct_cells).
  rewrite <- (size_list_to_set (C:=gset cell)).
  2:{ by do 2 apply NoDup_filter. }
  f_equal. apply set_eq. intros q.
  rewrite elem_of_list_to_set, !list_elem_of_filter, elem_of_filter,
    elem_of_mined_cells.
  unfold l. rewrite neighbors_is_neighbor.
  split; [tauto|]. intros [? Hq]. rewrite Hq. split_and!; try done.
Qed.

Lemma updateCell_spec (b : Board) (r c : Z) :
  updateCell r c b =
  (Return tt,
   set_board (<[(r, c) := Num (mined_neighbors (board b) (r, c))]> (board b)) b).
Proof. unfold updateCell. by rewrite updateCell_count. Qed.

Lemma set_board_twice (g g' : gmap cell value) (b : Board) :
  set_board g (set_board g' b) = set_board g b.
Proof. done. Qed.

Lemma mined_neighbors_ext (g g' : gmap cell value) (p : cell) :
  (∀ q, g' !! q = Some Mine ↔ g !! q = Some Mine) →
  mined_neighbors g' p = mined_neighbors g p.
Proof. intros H. unfold mined_neighbors. by rewrite (mined_cells_ext g g'). Qed.

(** The loop over the keys: mines stay, every key that is visited and
    holds no mine gets its number of mined neighbours. *)
Lemma update_cells_spec (ks : list cell) (b : Board) :
  (∀ p, p ∈ ks → is_Some (board b !! p)) →
  ∃ g', update_cells ks b = (Return tt, set_board g' b) ∧
    (∀ p, g' !! p = Some Mine ↔ board b !! p = Some Mine) ∧
    dom g' = dom (board b) ∧
    (∀ p, p ∈ ks → board b !! p ≠ Some Mine →
          g' !! p = Some (Num (mined_neighbors (board b) p))) ∧
    (∀ p, p ∉ ks → g' !! p = board b !! p).
Proof.
  revert b. induction ks as [|[r c] ks IH]; intros b Hks.
  - exists (board b). split_and!; try done.
    + simpl. by destruct b.
    + by intros p ?%elem_of_nil.
  - destruct (Hks (r, c)) as [v Hv]; [by left|].
    cbn [update_cells]. rewrite Hv. destruct v as [n|].
    + unfold bind. rewrite updateCell_spec.
      set (g1 := <[(r, c) := Num (mined_neighbors (board b) (r, c))]> (board b)).
      assert (∀ q, g1 !! q = Some Mine ↔ board b !! q = Some Mine) as Hm1.
      { intros q. unfold g1. destruct (decide (q = (r, c))) as [->|Hne].
        - rewrite lookup_insert_eq, Hv. split; intros [=].
        - by rewrite lookup_insert_ne. }
      destruct (IH (set_board g1 b)) as (g' & -> & Hm & Hd & Hin & Hout).
      { intros p Hp. simpl. unfold g1.
        destruct (decide (p = (r, c))) as [->|Hne].
        - by rewrite lookup_insert_eq.
        - rewrite lookup_insert_ne by done. apply Hks. by right. }
      simpl in *. exists g'. rewrite set_board_twice. split_and!; [done|..].
      * intros p. by rewrite Hm, Hm1.
      * rewrite Hd. unfold g1. apply dom_insert_lookup_L. by rewrite Hv.
      * intros p Hp Hnm.
        rewrite <- (mined_neighbors_ext (board b) g1 p Hm1).
        destruct (decide (p ∈ ks)) as [Hpk|Hpk].
        -- apply Hin; [done|]. by rewrite Hm1.
        -- apply elem_of_cons in Hp as [->|?]; [|done].
           rewrite Hout by done. unfold g1. rewrite lookup_insert_eq.
           by rewrite (mined_neighbors_ext (board b) g1 _ Hm1).
      * intros p Hp. apply not_elem_of_cons in Hp as [Hne Hp].
        rewrite Hout by done. unfold g1. by rewrite lookup_insert_ne.
    + destruct (IH b) as (g' & -> & Hm & Hd & Hin & Hout).
      { intros p ?. apply Hks. by right. }
      exists g'. split_and!; try done.
      * intros p [->|?]%elem_of_cons Hnm; [done|]. by apply Hin.
      * intros p Hp. apply not_elem_of_cons in Hp as [_ Hp]. by apply Hout.
Qed.

Lemma elem_of_keys (g : gmap cell value) (p : cell) :
  p ∈ keys g ↔ is_Some (g !! p).
Proof.
  unfold keys. rewrite list_elem_of_fmap. split.
  - intros ([q v] & -> & Hq). apply elem_of_map_to_list in Hq. by exists v.
  - intros [v Hv]. exists (p, v). split; [done|].
    by apply elem_of_map_to_list.
Qed.

(** The order in which the keys of the dictionary are visited does not
    matter: every list that holds exactly the keys gives the same board. *)
Lemma update_cells_any_order (ks : list cell) (b : Board) :
  (∀ p, p ∈ ks ↔ is_Some (board b !! p)) →
  update_cells ks b = update_cells (keys (board b)) b.
Proof.
  intros Hks.
  destruct (update_cells_spec ks b) as (g1 & -> & Hm1 & _ & Hin1 & Hout1).
  { intros p. by rewrite Hks. }
  destruct (update_cells_spec (keys (board b)) b)
    as (g2 & -> & Hm2 & _ & Hin2 & Hout2).
  { intros p. by rewrite elem_of_keys. }
  do 2 f_equal. apply map_eq. intros p.
  destruct (board b !! p) as [[n|]|] eqn:Hp.
  - rewrite Hin1, Hin2; [done|..]; rewrite ?elem_of_keys, ?Hks, ?Hp; done.
  - by rewrite (proj2 (Hm1 p) Hp), (proj2 (Hm2 p) Hp).
  - rewrite Hout1, Hout2; [done|..]; rewrite ?elem_of_keys, ?Hks, ?Hp;
      by intros [? ?].
Qed.

Lemma scatter_inv_refl (b : Board) : scatter_inv b b.
Proof. unfold scatter_inv. split_and!; try done. intros p. by right. Qed.

Lemma scatter_inv_step (b b1 : Board) (p : cell) (m : nat) :
  scatter_inv b b1 → board b1 !! p = Some (Num m) →
  scatter_inv b (set_board (<[p := Mine]> (board b1)) b1).
Proof.
  intros (? & ? & ? & ? & Hd & Hv) Hp. unfold scatter_inv. simpl.
  split_and!; try done.
  - rewrite <- Hd. apply dom_insert_lookup_L. by rewrite Hp.
  - intros q. destruct (decide (q = p)) as [->|Hne].
    + left. by rewrite lookup_insert_eq.
    + rewrite lookup_insert_ne by done. apply Hv.
Qed.

Lemma scatter_one_return (rnd : random_source) (fuel n : nat) (b b' : Board)
  (n' : nat) :
  scatter_one rnd fuel n b = Some (Return tt, b', n') →
  ∃ p m, board b !! p = Some (Num m) ∧
         b' = set_board (<[p := Mine]> (board b)) b.
Proof.
  revert n. induction fuel as [|fuel IH]; intros n; [done|].
  cbn [scatter_one].
  destruct (board b !! _) as [[m|]|] eqn:Hv; [|by apply IH|done].
  intros [= <- <-]. by eexists _, _.
Qed.

Lemma scatter_one_raise (rnd : random_source) (fuel n : nat) (b b' : Board)
  (n' : nat) (e : exn) :
  scatter_one rnd fuel n b = Some (Raise e, b', n') → e = KeyError ∧ b' = b.
Proof.
  revert n. induction fuel as [|fuel IH]; intros n; [done|].
  cbn [scatter_one].
  destruct (board b !! _) as [[m|]|] eqn:Hv; [done|by apply IH|].
  by intros [= <- <- _].
Qed.

Lemma scatter_return (rnd : random_source) (fuel k n : nat) (b b' : Board)
  (n' : nat) :
  scatter rnd fuel k n b = Some (Return tt, b', n') →
  scatter_inv b b' ∧
  size (mined_cells (board b')) = (size (mined_cells (board b)) + k)%nat.
Proof.
  revert n b. induction k as [|k IH]; intros n b.
  - intros [= <- _]. split; [apply scatter_inv_refl|lia].
  - cbn [scatter].
    destruct (scatter_one rnd fuel n b) as [[[[[]|e] b1] n1]|] eqn:H1;
      [|done..].
    apply scatter_one_return in H1 as (p & m & Hp & ->).
    intros [Hinv Hsize]%IH. split.
    + destruct Hinv as (? & ? & ? & ? & Hd & Hv). simpl in *.
      unfold scatter_inv. split_and!; try done.
      * rewrite Hd. apply dom_insert_lookup_L. by rewrite Hp.
      * intros q. destruct (Hv q) as [?|Hq]; [by left|].
        rewrite Hq. destruct (decide (q = p)) as [->|Hne].
        -- left. by rewrite lookup_insert_eq.
        -- right. by rewrite lookup_insert_ne.
    + rewrite Hsize. simpl. rewrite (mined_cells_insert_mine _ _ m Hp). lia.
Qed.

Lemma scatter_raise (rnd : random_source) (fuel k n : nat) (b b' : Board)
  (n' : nat) (e : exn) :
  scatter rnd fuel k n b = Some (Raise e, b', n') → e = KeyError.
Proof.
  revert n b. induction k as [|k IH]; intros n b; [done|].
  cbn [scatter].
  destruct (scatter_one rnd fuel n b) as [[[[[]|e1] b1] n1]|] eqn:H1;
    [by apply IH| |done].
  apply scatter_one_raise in H1 as [-> _]. by intros [= <- _ _].
Qed.

Lemma update_cells_keys (b : Board) :
  ∃ g', update_cells (keys (board b)) b = (Return tt, set_board g' b) ∧
    (∀ p, g' !! p = Some Mine ↔ board b !! p = Some Mine) ∧
    dom g' = dom (board b) ∧
    (∀ p m, g' !! p = Some (Num m) → m = mined_neighbors g' p).
Proof.
  destruct (update_cells_spec (keys (board b)) b)
    as (g' & Hu & Hm & Hd & Hin & _).
  { intros p. by rewrite elem_of_keys. }
  exists g'. split_and!; try done.
  intros p m Hp.
  assert (is_Some (board b !! p)) as Hk.
  { apply elem_of_dom. rewrite <- Hd. apply elem_of_dom. by rewrite Hp. }
  rewrite Hin in Hp.
  - injection Hp as <-. symmetry. by apply mined_neighbors_ext.
  - by apply elem_of_keys.
  - intros Hmine. apply Hm in Hmine. congruence.
Qed.

Lemma put_mines_refused (rnd : random_source) (fuel : nat) (mines : Z)
  (n : nat) (b : Board) :
  scatter_refused b mines →
  put_mines rnd fuel mines n b = Some (Raise ScatterException, b, n).
Proof. intros H. unfold put_mines. by rewrite bool_decide_eq_true_2. Qed.

Lemma put_mines_raise (rnd : random_source) (fuel : nat) (mines : Z)
  (n : nat) (b b' : Board) (n' : nat) (e : exn) :
  put_mines rnd fuel mines n b = Some (Raise e, b', n') →
  (e = ScatterException ∧ scatter_refused b mines ∧ b' = b ∧ n' = n)
  ∨ (e = KeyError ∧ ¬ scatter_refused b mines).
Proof.
  unfold put_mines. fold (scatter_refused b mines).
  case_bool_decide as Hc.
  { intros [= <- <- <-]. by left. }
  destruct (scatter rnd fuel (Z.to_nat mines) n b)
    as [[[[[]|e1] b1] n1]|] eqn:Hs; [| |done].
  - destruct (update_cells_keys b1) as (g' & -> & _). done.
  - apply scatter_raise in Hs as ->. intros [= <- _ _]. by right.
Qed.

Lemma put_mines_return (rnd : random_source) (fuel : nat) (mines : Z)
  (n : nat) (b b' : Board) (n' : nat) :
  put_mines rnd fuel mines n b = Some (Return tt, b', n') →
  ¬ scatter_refused b mines ∧
  rows b' = rows b ∧ columns b' = columns b ∧ uncovered b' = uncovered b ∧
  startState b' = false ∧
  dom (board b') = dom (board b) ∧
  size (mined_cells (board b')) =
    (size (mined_cells (board b)) + Z.to_nat mines)%nat ∧
  (∀ p m, board b' !! p = Some (Num m) → m = mined_neighbors (board b') p).
Proof.
  unfold put_mines. fold (scatter_refused b mines).
  case_bool_decide as Hc; [done|].
  destruct (scatter rnd fuel (Z.to_nat mines) n b)
    as [[[[[]|e1] b1] n1]|] eqn:Hs; [|done..].
  apply scatter_return in Hs as [(? & ? & ? & ? & Hd & _) Hsize].
  destruct (update_cells_keys b1) as (g' & -> & Hm & Hd' & Hcount).
  intros [= <- _]. simpl. split_and!; try done.
  - by rewrite Hd'.
  - by rewrite (mined_cells_ext (board b1) g' Hm).
Qed.

(** *** Termination of the rejection sampling *)

Lemma scatter_one_fuel_mono (rnd : random_source) (fuel d n : nat) (b : Board)
  (x : outcome unit * Board * nat) :
  scatter_one rnd fuel n b = Some x →
  scatter_one rnd (fuel + d) n b = Some x.
Proof.
  revert n. induction fuel as [|fuel IH]; intros n; [done|].
  cbn [scatter_one Nat.add].
  destruct (board b !! _) as [[m|]|]; [done|by apply IH|done].
Qed.

Lemma drawn_in_grid (rnd : random_source) (b : Board) (n : nat) :
  in_range rnd → grid_exact b → 1 ≤ rows b → 1 ≤ columns b →
  is_Some (board b !! (rnd n 0 (rows b - 1), rnd (S n) 0 (columns b - 1))).
Proof.
  intros Hrange Hgrid Hr Hc. apply Hgrid. unfold in_bounds. simpl.
  pose proof (Hrange n 0 (rows b - 1)).
  pose proof (Hrange (S n) 0 (columns b - 1)). lia.
Qed.

Lemma scatter_one_S (rnd : random_source) (fuel n : nat) (b : Board) :
  scatter_one rnd (S fuel) n b =
  match board b !! (rnd n 0 (rows b - 1), rnd (S n) 0 (columns b - 1)) with
  | None => Some (Raise KeyError, b, S (S n))
  | Some Mine => scatter_one rnd fuel (S (S n)) b
  | Some (Num _) =>
      Some (Return tt,
            set_board (<[(rnd n 0 (rows b - 1), rnd (S n) 0 (columns b - 1))
                         := Mine]> (board b)) b,
            S (S n))
  end.
Proof. reflexivity. Qed.

Lemma scatter_one_hits (rnd : random_source) (b : Board) (k n : nat) (m : nat) :
  in_range rnd → grid_exact b → 1 ≤ rows b → 1 ≤ columns b →
  board b !! (rnd (n + 2 * k)%nat 0 (rows b - 1),
              rnd (S (n + 2 * k)) 0 (columns b - 1)) = Some (Num m) →
  ∃ b' i p m',
    scatter_one rnd (S k) n b = Some (Return tt, b', (n + 2 * S i)%nat) ∧
    board b !! p = Some (Num m') ∧
    b' = set_board (<[p := Mine]> (board b)) b.
Proof.
  intros Hrange Hgrid Hr Hc. revert n. induction k as [|k IH]; intros n Hhit.
  - replace (n + 2 * 0)%nat with n in Hhit by lia.
    rewrite scatter_one_S, Hhit. eexists _, 0%nat, _, _.
    replace (n + 2 * 1)%nat with (S (S n)) by lia. done.
  - rewrite scatter_one_S.
    destruct (drawn_in_grid rnd b n Hrange Hgrid Hr Hc) as [[m1|] Hv];
      rewrite Hv.
    + eexists _, 0%nat, _, _.
      replace (n + 2 * 1)%nat with (S (S n)) by lia. done.
    + replace (n + 2 * S k)%nat with (S (S n) + 2 * k)%nat in Hhit by lia.
      destruct (IH (S (S n)) Hhit) as (b' & i & p & m' & -> & Hp & ->).
      eexists _, (S i), p, m'.
      replace (n + 2 * S (S i))%nat with (S (S n) + 2 * S i)%nat by lia.
      done.
Qed.

Lemma exists_unmined (g : gmap cell value) :
  (size (mined_cells g) < size g)%nat → ∃ p m, g !! p = Some (Num m).
Proof.
  intros Hlt. rewrite <- (size_dom (D:=gset cell)) in Hlt.
  destruct (size_pos_elem_of (dom g ∖ mined_cells g)) as [p Hp].
  { rewrite size_difference by apply mined_cells_subseteq. lia. }
  apply elem_of_difference in Hp as [Hd Hm].
  apply elem_of_dom in Hd as [[m|] Hv]; [by exists p, m|].
  by apply elem_of_mined_cells in Hv.
Qed.

Lemma scatter_terminates (rnd : random_source) (n0 : nat) (k i : nat)
  (b : Board) :
  in_range rnd → fair rnd b n0 → grid_exact b →
  1 ≤ rows b → 1 ≤ columns b →
  (size (mined_cells (board b)) + k ≤ size (board b))%nat →
  ∃ fuel b' n', ∀ d,
    scatter rnd (fuel + d) k (n0 + 2 * i) b = Some (Return tt, b', n').
Proof.
  intros Hrange. revert i b.
  induction k as [|k IH]; intros i b Hfair Hgrid Hr Hc Hsize.
  - by exists 0%nat, b, (n0 + 2 * i)%nat.
  - destruct (exists_unmined (board b)) as (p & m & Hp); [lia|].
    destruct (Hfair i p) as (j & Hj1 & Hj2).
    { apply Hgrid. by rewrite Hp. }
    destruct (scatter_one_hits rnd b j (n0 + 2 * i) m Hrange Hgrid Hr Hc)
      as (b1 & i1 & q & m' & Hone & Hq & Hb1).
    { replace (n0 + 2 * i + 2 * j)%nat with (n0 + 2 * (i + j))%nat by lia.
      rewrite Hj1, Hj2. by destruct p. }
    destruct (IH (i + S i1)%nat b1) as (fuel & b' & n' & Hrest).
    + intros m1 p1 Hin. subst b1. apply (Hfair m1 p1 Hin).
    + subst b1. intros p1. unfold in_bounds. simpl.
      rewrite <- (Hgrid p1). rewrite <- !elem_of_dom.
      rewrite dom_insert_lookup_L; [done|by rewrite Hq].
    + by subst b1.
    + by subst b1.
    + subst b1. simpl. rewrite (mined_cells_insert_mine _ _ m' Hq).
      rewrite <- !(size_dom (D:=gset cell)) in *.
      rewrite dom_insert_lookup_L by (by rewrite Hq). lia.
    + exists (S j + fuel)%nat, b', n'. intros d. cbn [scatter].
      replace (S j + fuel + d)%nat with (S j + (fuel + d))%nat by lia.
      rewrite (scatter_one_fuel_mono rnd (S j) (fuel + d) _ _ _ Hone).
      replace (n0 + 2 * i + 2 * S i1)%nat with (n0 + 2 * (i + S i1))%nat
        by lia.
      replace (S j + (fuel + d))%nat with (fuel + (S j + d))%nat by lia.
      apply Hrest.
Qed.

Lemma fresh_board_facts (rs cs : Z) (b : Board) :
  Board_init rs cs = Return b →
  rows b = rs ∧ columns b = cs ∧ 1 ≤ rs ≤ 20 ∧ 2 ≤ cs ≤ 50 ∧
  startState b = true ∧ uncovered b = [] ∧ grid_exact b ∧
  (∀ p v, board b !! p = Some v → v = Num 0) ∧
  mined_cells (board b) = ∅ ∧
  Z.of_nat (size (board b)) = rs * cs.
Proof.
  intros Hinit.
  assert (1 ≤ rs ≤ 20 ∧ 2 ≤ cs ≤ 50) as [Hrs Hcs].
  { unfold Board_init in Hinit. case_bool_decide; [done|lia]. }
  destruct (Board_init_returns rs cs Hrs Hcs)
    as (b1 & Hb1 & ? & ? & Hcell & Hgrid & Hsize & ? & ?).
  rewrite Hinit in Hb1. injection Hb1 as <-.
  assert (∀ p v, board b !! p = Some v → v = Num 0) as Hzero.
  { intros [r c] v Hv.
    destruct (Hcell r c) as [Hz _].
    - apply (Hgrid (r, c)). by rewrite Hv.
    - apply (Hgrid (r, c)). by rewrite Hv.
    - congruence. }
  split_and!; try done; try lia.
  - intros p. unfold in_bounds. rewrite Hgrid. by subst.
  - apply set_eq. intros p. rewrite elem_of_mined_cells.
    split; [|by intros ?%elem_of_empty].
    intros Hp. by apply Hzero in Hp.
Qed.

(** C5. On a freshly constructed board, for every random source,
    [put_mines] raises [ScatterException] exactly when the count is below 1
    or above [rows * columns - 1] (or [startState] is false, which it is
    not on a fresh board), and then leaves the board and the random source
    as they were.  When it returns, exactly [mines] cells hold a mine,
    every other cell holds the number of its mined neighbours, nothing
    else of the board changed but [startState], which is false, so every
    further call raises [ScatterException].  With a random source that
    answers within its bounds and keeps drawing every cell, a legal count
    makes it return, given enough fuel for the sampling loop. *)
Theorem put_mines_spec (rnd : random_source) (rs cs : Z) (b : Board)
  (mines : Z) (n : nat) :
  Board_init rs cs = Return b →
  (scatter_refused b mines ↔ mines < 1 ∨ mines > rs * cs - 1) ∧
  (∀ fuel, scatter_refused b mines →
     put_mines rnd fuel mines n b = Some (Raise ScatterException, b, n)) ∧
  (∀ fuel b' n',
     put_mines rnd fuel mines n b = Some (Raise ScatterException, b', n') →
     scatter_refused b mines ∧ b' = b) ∧
  (∀ fuel b' n',
     put_mines rnd fuel mines n b = Some (Return tt, b', n') →
     1 ≤ mines ≤ rs * cs - 1 ∧
     Z.of_nat (size (mined_cells (board b'))) = mines ∧
     (∀ p m, board b' !! p = Some (Num m) →
             m = mined_neighbors (board b') p) ∧
     dom (board b') = dom (board b) ∧
     rows b' = rs ∧ columns b' = cs ∧ uncovered b' = [] ∧
     startState b' = false ∧
     ∀ rnd2 fuel2 mines2 n2,
       put_mines rnd2 fuel2 mines2 n2 b'
       = Some (Raise ScatterException, b', n2)) ∧
  (in_range rnd → fair rnd b n → 1 ≤ mines ≤ rs * cs - 1 →
   ∃ fuel b' n', ∀ d,
     put_mines rnd (fuel + d) mines n b = Some (Return tt, b', n')).
Proof.
  intros Hinit.
  destruct (fresh_board_facts rs cs b Hinit)
    as (Hrows & Hcols & Hrs & Hcs & Hstart & Hunc & Hgrid & Hzero & Hmines
        & Hsize).
  assert (scatter_refused b mines ↔ mines < 1 ∨ mines > rs * cs - 1) as Href.
  { unfold scatter_refused. rewrite Hrows, Hcols, Hstart. split.
    - intros [?|[?|?]]; [by left|by right|done].
    - intros [?|?]; [by left|right; by left]. }
  split_and!; [done|..].
  - intros fuel. apply put_mines_refused.
  - intros fuel b' n' Hput.
    apply put_mines_raise in Hput as [(_ & ? & ? & _)|[? _]]; done.
  - intros fuel b' n' Hput.
    apply put_mines_return in Hput
      as (Hnr & ? & ? & ? & Hfalse & ? & Hcount & Hnum).
    rewrite Hmines, size_empty in Hcount. rewrite Href in Hnr.
    split_and!; try done; try lia; try congruence.
    intros rnd2 fuel2 mines2 n2. apply put_mines_refused.
    right. by right.
  - intros Hrange Hfair Hm.
    destruct (scatter_terminates rnd n (Z.to_nat mines) 0 b Hrange Hfair Hgrid)
      as (fuel & b1 & n1 & Hs); [lia|lia| |].
    { rewrite Hmines, size_empty. lia. }
    destruct (update_cells_keys b1) as (g' & Hu & _).
    exists fuel, (set_startState false (set_board g' b1)), n1. intros d.
    unfold put_mines. fold (scatter_refused b mines).
    rewrite bool_decide_eq_false_2 by (rewrite Href; lia).
    replace (n + 2 * 0)%nat with n in Hs by lia.
    by rewrite Hs, Hu.
Qed.

(** ** Every reachable board is well formed *)

Ltac wf_split :=
  unfold Board_wf, set_uncovered, set_board, set_startState in *; simpl in *;
  split_and!; try done; try lia.

Lemma grid_exact_same_dom (b b' : Board) :
  rows b' = rows b → columns b' = columns b →
  dom (board b') = dom (board b) → grid_exact b → grid_exact b'.
Proof.
  intros Hr Hc Hd. rewrite !grid_exact_dom. by rewrite Hr, Hc, Hd.
Qed.

Lemma Board_init_wf (rs cs : Z) (b : Board) :
  Board_init rs cs = Return b → Board_wf b.
Proof.
  intros Hinit.
  destruct (fresh_board_facts rs cs b Hinit)
    as (Hrows & Hcols & ? & ? & _ & Hunc & Hgrid & Hzero & _).
  unfold Board_wf. rewrite Hrows, Hcols. split_and!; try done; try lia.
  - intros p Hp. rewrite Hunc in Hp. by apply elem_of_nil in Hp.
  - intros p n Hp. apply Hzero in Hp. injection Hp as ->. lia.
Qed.

Lemma uncover_wf (r c : Z) (b b' : Board) (o : outcome unit) :
  uncover r c b = (o, b') → Board_wf b → Board_wf b'.
Proof.
  unfold uncover. destruct (board b !! (r, c)) as [v|] eqn:Hv.
  - case_bool_decide; intros [= <- <-]; [done|].
    intros (? & ? & ? & Hunc & ?). wf_split.
    intros p. simpl.
    rewrite elem_of_app, list_elem_of_singleton.
    intros [?| ->]; [by apply Hunc|by rewrite Hv].
  - by intros [= <- <-].
Qed.

Lemma uncover_all_wf (seq : list cell) (b b' : Board) (o : outcome unit) :
  uncover_all seq b = (o, b') → Board_wf b → Board_wf b'.
Proof.
  revert b. induction seq as [|[r c] seq IH]; intros b.
  - by intros [= <- <-].
  - cbn [uncover_all]. unfold bind.
    destruct (uncover r c b) as [[[]|e] b1] eqn:Hu.
    + intros Hrest Hwf. apply (IH b1 Hrest). by eapply uncover_wf.
    + intros [= <- <-] Hwf. by eapply uncover_wf.
Qed.

Lemma ripple_sequence_state (fuel : nat) (r c : Z) (b b' : Board)
  (o : outcome (list cell)) :
  ripple_sequence fuel r c b = Some (o, b') → b' = b.
Proof.
  unfold ripple_sequence, get_value.
  destruct (board b !! (r, c)); [|by intros [= _ <-]].
  case_bool_decide; [by intros [= _ <-]|].
  destruct (ripple_while _ _ _ _ _); [|done]. by intros [= _ <-].
Qed.

Lemma make_move_wf (fuel : nat) (r c : Z) (b b' : Board) (o : outcome string) :
  make_move fuel r c b = Some (o, b') → Board_wf b → Board_wf b'.
Proof.
  unfold make_move.
  destruct (uncover r c b) as [[[]|e] b1] eqn:Hu.
  2:{ intros [= <- <-] ?. by eapply uncover_wf. }
  unfold get_value. destruct (board b1 !! (r, c)) as [v|].
  2:{ intros [= <- <-] ?. by eapply uncover_wf. }
  case_bool_decide.
  2:{ intros [= <- <-] ?. by eapply uncover_wf. }
  destruct (ripple_sequence fuel r c b1) as [[[seq|e] b2]|] eqn:Hseq; [| |done].
  - apply ripple_sequence_state in Hseq as ->.
    destruct (uncover_all seq b1) as [[[]|e] b3] eqn:Hall;
      intros [= <- <-] ?; eapply uncover_all_wf; try done;
      by eapply uncover_wf.
  - apply ripple_sequence_state in Hseq as ->.
    intros [= <- <-] ?. by eapply uncover_wf.
Qed.

Lemma scatter_one_inv (rnd : random_source) (fuel n : nat) (b b' : Board)
  (n' : nat) (o : outcome unit) :
  scatter_one rnd fuel n b = Some (o, b', n') → scatter_inv b b'.
Proof.
  destruct o as [[]|e].
  - intros (p & m & Hp & ->)%scatter_one_return.
    by apply (scatter_inv_step b b p m (scatter_inv_refl b)).
  - intros [_ ->]%scatter_one_raise. apply scatter_inv_refl.
Qed.

Lemma scatter_inv_trans (b1 b2 b3 : Board) :
  scatter_inv b1 b2 → scatter_inv b2 b3 → scatter_inv b1 b3.
Proof.
  intros (? & ? & ? & ? & Hd1 & Hv1) (? & ? & ? & ? & Hd2 & Hv2).
  unfold scatter_inv. split_and!; try congruence.
  intros p. destruct (Hv2 p) as [?|Hp]; [by left|].
  rewrite Hp. apply Hv1.
Qed.

Lemma scatter_any_inv (rnd : random_source) (fuel k n : nat) (b b' : Board)
  (n' : nat) (o : outcome unit) :
  scatter rnd fuel k n b = Some (o, b', n') → scatter_inv b b'.
Proof.
  revert n b. induction k as [|k IH]; intros n b.
  - intros [= _ <- _]. apply scatter_inv_refl.
  - cbn [scatter].
    destruct (scatter_one rnd fuel n b) as [[[[[]|e] b1] n1]|] eqn:H1;
      [| |done].
    + intros Hrest. eapply scatter_inv_trans; [|by eapply IH].
      by eapply scatter_one_inv.
    + intros [= _ <- _]. by eapply scatter_one_inv.
Qed.

Lemma scatter_inv_wf (b b' : Board) :
  scatter_inv b b' → Board_wf b → Board_wf b'.
Proof.
  intros (Hr & Hc & _ & Hu & Hd & Hv) (? & ? & Hgrid & Hunc & Hlegal).
  wf_split.
  - by apply (grid_exact_same_dom b b').
  - intros p. rewrite Hu. intros Hp%Hunc.
    apply elem_of_dom. rewrite Hd. by apply elem_of_dom.
  - intros p n Hp. destruct (Hv p) as [?|Hq]; [congruence|].
    rewrite Hq in Hp. by eapply Hlegal.
Qed.

Lemma mined_neighbors_le (g : gmap cell value) (p : cell) :
  (mined_neighbors g p ≤ 8)%nat.
Proof.
  destruct p as [r c]. rewrite <- updateCell_count.
  etrans; [apply length_filter|]. etrans; [apply length_filter|]. done.
Qed.

Lemma put_mines_wf (rnd : random_source) (fuel : nat) (mines : Z) (n : nat)
  (b b' : Board) (n' : nat) (o : outcome unit) :
  put_mines rnd fuel mines n b = Some (o, b', n') → Board_wf b → Board_wf b'.
Proof.
  unfold put_mines. case_bool_decide; [by intros [= _ <- _]|].
  destruct (scatter rnd fuel (Z.to_nat mines) n b)
    as [[[[[]|e1] b1] n1]|] eqn:Hs; [| |done].
  - apply scatter_any_inv in Hs.
    destruct (update_cells_keys b1) as (g' & -> & Hm & Hd & Hcount).
    intros [= _ <- _] Hwf.
    destruct (scatter_inv_wf b b1 Hs Hwf) as (? & ? & Hgrid & Hunc & _).
    wf_split.
    + by apply (grid_exact_same_dom b1).
    + intros p Hp%Hunc. simpl.
      apply elem_of_dom. rewrite Hd. by apply elem_of_dom.
    + intros p m Hp. simpl in Hp. rewrite (Hcount p m Hp).
      apply mined_neighbors_le.
  - intros [= _ <- _]. apply scatter_inv_wf. by eapply scatter_any_inv.
Qed.

Lemma legal_char_value (x : ascii) :
  x ∈ legalValues →
  legal_value (if bool_decide (x = "*"%char) then Mine else Num (int x)).
Proof.
  unfold legalValues. rewrite !elem_of_cons, elem_of_nil.
  intros H. repeat destruct H as [H|H]; try done; subst x; by compute_done.
Qed.

Lemma load_pairs_grid (r c0 : Z) (pairs : list string)
  (nb nb' : gmap cell value) (nu nu' : list cell) :
  load_pairs r c0 pairs nb nu = Return (nb', nu') →
  (∀ p, is_Some (nb' !! p)
        ↔ is_Some (nb !! p) ∨ in_row r c0 (length pairs) p) ∧
  (∀ p v, nb' !! p = Some v → legal_value v ∨ nb !! p = Some v) ∧
  (∀ p, p ∈ nu' → p ∈ nu ∨ in_row r c0 (length pairs) p).
Proof.
  unfold in_row.
  revert c0 nb nu. induction pairs as [|t pairs IH]; intros c0 nb nu.
  - intros [= <- <-]. simpl. split_and!.
    + intros p. split; [by left|]. intros [?|[_ ?]]; [done|lia].
    + intros p v ?. by right.
    + intros p ?. by left.
  - cbn [load_pairs].
    destruct (String.list_ascii_of_string t) as [|x [|y [|z l]]]; try done.
    case_bool_decide as Hbad; [done|].
    assert (x ∈ legalValues) as Hx
      by (destruct (decide (x ∈ legalValues)); tauto).
    set (v := if bool_decide (x = "*"%char) then Mine else Num (int x)).
    assert ((if bool_decide (x = "*"%char) then <[(r, c0) := Mine]> nb
             else <[(r, c0) := Num (int x)]> nb) = <[(r, c0) := v]> nb)
      as -> by (unfold v; by destruct (bool_decide (x = "*"%char))).
    intros (Hdom & Hleg & Hunc)%IH. cbn [length]. split_and!.
    + intros [pr pc]. rewrite Hdom. simpl. rewrite lookup_insert.
      destruct (decide ((r, c0) = (pr, pc))) as [[= <- <-]|Hne].
      * split; intros _; [right; lia|left; by eexists].
      * split.
        -- intros [?|[-> ?]]; [by left|right; lia].
        -- intros [?|[-> ?]]; [by left|]. right. split; [done|].
           assert (pc ≠ c0) by (intros ->; done). lia.
    + intros p w Hp. destruct (Hleg p w Hp) as [?|Hq]; [by left|].
      rewrite lookup_insert in Hq.
      destruct (decide ((r, c0) = p)); [|by right].
      injection Hq as <-. left. by apply legal_char_value.
    + intros [pr pc] Hp. destruct (Hunc _ Hp) as [Hq|[? ?]].
      * destruct (bool_decide (y = "S"%char)); [|by left].
        apply elem_of_app in Hq as [?|Hq]; [by left|].
        apply list_elem_of_singleton in Hq as [= -> ->]. right. simpl. lia.
      * right. simpl in *. lia.
Qed.

Lemma load_lines_grid (cols r0 : Z) (lines : list string)
  (nb nb' : gmap cell value) (nu nu' : list cell) (d : bool) :
  load_lines cols r0 lines nb nu d = Return (nb', nu', false) →
  d = false ∧
  (∀ p, is_Some (nb' !! p)
        ↔ is_Some (nb !! p) ∨ in_rows r0 (length lines) cols p) ∧
  (∀ p v, nb' !! p = Some v → legal_value v ∨ nb !! p = Some v) ∧
  (∀ p, p ∈ nu' → p ∈ nu ∨ in_rows r0 (length lines) cols p).
Proof.
  unfold in_rows.
  revert r0 nb nu d. induction lines as [|line lines IH]; intros r0 nb nu d.
  - intros [= <- <- ->]. simpl. split_and!; [done|..].
    + intros p. split; [by left|]. intros [?|[? _]]; [done|lia].
    + intros p v ?. by right.
    + intros p ?. by left.
  - cbn [load_lines].
    destruct (load_pairs r0 0 (split " " line) nb nu) as [[nb1 nu1]|e] eqn:Hp;
      [|done].
    apply load_pairs_grid in Hp as (Hd1 & Hl1 & Hu1). unfold in_row in *.
    intros (Hd & Hdom & Hleg & Hunc)%IH.
    case_bool_decide as Hlen; [done|].
    assert (Z.of_nat (length (split " " line)) = cols) as Hcols
      by (destruct (decide (Z.of_nat (length (split " " line)) = cols));
          tauto).
    rewrite Hcols in *. cbn [length]. split_and!; [done|..].
    + intros p. rewrite Hdom, Hd1. split.
      * intros [[?|[? ?]]|[? ?]]; [by left|right; lia..].
      * intros [?|[? ?]]; [by left; left|].
        destruct (decide (p.1 = r0)); [left; right; lia|right; lia].
    + intros p v Hv. destruct (Hleg p v Hv) as [?|Hq]; [by left|].
      by apply Hl1.
    + intros p Hq. destruct (Hunc p Hq) as [Hq1|[? ?]]; [|right; lia].
      destruct (Hu1 p Hq1) as [?|[? ?]]; [by left|right; lia].
Qed.

Lemma load_board_wf (lines : list string) (b b' : Board) (o : outcome unit) :
  load_board lines b = (o, b') → Board_wf b → Board_wf b'.
Proof.
  unfold load_board. case_bool_decide; [by intros [= _ <-]|].
  destruct (load_lines _ _ _ _ _ _) as [[[nb nu] [|]]|e] eqn:Hl;
    try (by intros [= _ <-]).
  apply load_lines_grid in Hl as (Hlen & Hdom & Hleg & Hunc).
  apply bool_decide_eq_false in Hlen.
  assert (Z.of_nat (length (kept_lines lines)) = rows b) as Hrows
    by (destruct (decide (Z.of_nat (length (kept_lines lines)) = rows b));
        tauto).
  unfold in_rows in *. rewrite Hrows in *.
  intros [= _ <-] (? & ? & _). wf_split.
  - intros p. unfold in_bounds. simpl. rewrite Hdom, lookup_empty.
    split; [intros [[? [=]]|?]; lia|intros ?; right; lia].
  - intros p Hp. simpl in *. apply Hdom.
    destruct (Hunc p Hp) as [?%elem_of_nil|?]; [done|by right].
  - intros p n Hp. simpl in Hp.
    destruct (Hleg p _ Hp) as [?|Hq]; [done|by rewrite lookup_empty in Hq].
Qed.

(** Every board that the program can reach is well formed, so the
    hypotheses of the theorems above hold for it. *)
Theorem reachable_wf (b : Board) : reachable b → Board_wf b.
Proof.
  induction 1.
  - by eapply Board_init_wf.
  - by eapply put_mines_wf.
  - by eapply load_board_wf.
  - by eapply uncover_wf.
  - by eapply make_move_wf.
Qed.

(** ** Moves and status together *)

Lemma get_status_cases (b : Board) :
  grid_exact b → uncovered_in_grid b →
  ∃ s, get_status b = (Return s, b) ∧
    (s = NotStarted ↔ uncovered b = []) ∧
    (s = Lose ↔ uncovered b ≠ [] ∧ uncovered_mine b) ∧
    (s = Win ↔ uncovered b ≠ [] ∧ ¬ uncovered_mine b ∧
               ∀ p, p ∈ uncovered b ↔ ∃ n, board b !! p = Some (Num n)) ∧
    (s = InProgress ↔ uncovered b ≠ [] ∧ ¬ uncovered_mine b ∧
               ¬ ∀ p, p ∈ uncovered b ↔ ∃ n, board b !! p = Some (Num n)).
Proof.
  intros Hgrid Hunc. unfold get_status, bind, getUncoveredCells, getRows,
    getColumns, ret.
  case_bool_decide as Hempty.
  { exists NotStarted. split_and!; try done; split; try done; by intros [? _]. }
  destruct (status_scan_spec b (all_cells (rows b) (columns b)) true)
    as (s & -> & Hs).
  { intros p Hp. apply Hgrid. by apply elem_of_all_cells. }
  exists s. split; [done|].
  assert (scan_lose b (all_cells (rows b) (columns b)) ↔ uncovered_mine b)
    as Hlose.
  { split.
    - intros (p & _ & ? & ?). by exists p.
    - intros (p & ? & Hp). exists p. split_and!; try done.
      apply elem_of_all_cells. apply Hgrid. by rewrite Hp. }
  assert (¬ uncovered_mine b →
          scan_won b (all_cells (rows b) (columns b)) true
          ↔ ∀ p, p ∈ uncovered b ↔ ∃ n, board b !! p = Some (Num n)) as Hwin.
  { intros Hnl. split.
    - intros [_ Hw] p. split.
      + intros Hp. destruct (Hunc p Hp) as [[n|] Hv]; [by exists n|].
        destruct Hnl. by exists p.
      + intros [n Hn]. destruct (decide (p ∈ uncovered b)) as [|Hp]; [done|].
        rewrite Hw in Hn; [done| |done].
        apply elem_of_all_cells. apply Hgrid. by rewrite Hn.
    - intros Hw. split; [done|]. intros p Hp%elem_of_all_cells Hnp.
      apply Hgrid in Hp as [[n|] Hv]; [|done].
      destruct Hnp. apply Hw. by exists n. }
  rewrite Hlose in Hs.
  destruct Hs as [[Hl ->]|[(Hnl & Hw & ->)|(Hnl & Hnw & ->)]].
  - split_and!; split; try done; try (by intros (_ & ? & ?));
      by intros [_ ?].
  - pose proof (proj1 (Hwin Hnl) Hw) as Hw'.
    split_and!; split; try done; try (by intros (_ & ? & ?));
      by intros [_ ?].
  - assert (¬ ∀ p, p ∈ uncovered b ↔ ∃ n, board b !! p = Some (Num n))
      as Hnw' by (intros Hw'; apply Hnw; by apply (Hwin Hnl)).
    split_and!; split; try done; try (by intros (_ & ? & ?));
      by intros [_ ?].
Qed.

Lemma get_status_Lose (b : Board) :
  grid_exact b → uncovered_in_grid b →
  get_status b = (Return Lose, b) ↔ uncovered_mine b.
Proof.
  intros Hgrid Hunc.
  destruct (get_status_cases b Hgrid Hunc) as (s & Hs & _ & Hl & _).
  rewrite Hs. split.
  - intros [= ->]. by apply Hl.
  - intros Hm. assert (s = Lose) as ->; [|done]. apply Hl. split; [|done].
    destruct Hm as (p & Hp & _). intros Hnil. rewrite Hnil in Hp.
    by apply elem_of_nil in Hp.
Qed.

Lemma uncover_outcome (r c : Z) (b b' : Board) (o : outcome unit) :
  uncover r c b = (o, b') →
  (o = Return tt ∧ is_Some (board b !! (r, c)) ∧ ((r, c) ∉ uncovered b) ∧
   b' = set_uncovered (uncovered b ++ [(r, c)]) b)
  ∨ (o = Raise IllegalMoveException ∧ is_Some (board b !! (r, c)) ∧
     (r, c) ∈ uncovered b ∧ b' = b)
  ∨ (o = Raise IllegalIndicesException ∧ board b !! (r, c) = None ∧ b' = b).
Proof.
  unfold uncover. destruct (board b !! (r, c)) as [v|] eqn:Hv.
  - case_bool_decide; intros [= <- <-]; [right; left|left]; by eauto.
  - intros [= <- <-]. by right; right.
Qed.

Lemma grows_refl (b : Board) : grows b b.
Proof. unfold grows. by split_and!. Qed.

Lemma grows_trans (b1 b2 b3 : Board) : grows b1 b2 → grows b2 b3 → grows b1 b3.
Proof.
  intros (? & ? & ? & ? & ? & ?) (? & ? & ? & ? & ? & ?).
  unfold grows. split_and!; try congruence; [by etrans|auto].
Qed.

Lemma uncover_grows (r c : Z) (b b' : Board) (o : outcome unit) :
  uncover r c b = (o, b') → grows b b'.
Proof.
  intros [(_ & _ & Hh & ->)|[(_ & _ & _ & ->)|(_ & _ & ->)]]%uncover_outcome;
    try apply grows_refl.
  unfold grows. simpl. split_and!; try done.
  - by apply prefix_app_r.
  - intros Hnd. apply NoDup_app. split_and!; [done| |apply NoDup_singleton].
    intros p ? ->%list_elem_of_singleton. done.
Qed.

Lemma uncover_all_grows (seq : list cell) (b b' : Board) (o : outcome unit) :
  uncover_all seq b = (o, b') → grows b b'.
Proof.
  revert b. induction seq as [|[r c] seq IH]; intros b.
  - intros [= _ <-]. apply grows_refl.
  - cbn [uncover_all]. unfold bind.
    destruct (uncover r c b) as [[[]|e] b1] eqn:Hu.
    + intros Hrest. eapply grows_trans; [by eapply uncover_grows|by eapply IH].
    + intros [= _ <-]. by eapply uncover_grows.
Qed.

Lemma make_move_grows (fuel : nat) (r c : Z) (b b' : Board)
  (o : outcome string) :
  make_move fuel r c b = Some (o, b') → grows b b'.
Proof.
  unfold make_move.
  destruct (uncover r c b) as [[[]|e] b1] eqn:Hu.
  2:{ intros [= _ <-]. by eapply uncover_grows. }
  apply uncover_grows in Hu.
  unfold get_value. destruct (board b1 !! (r, c)) as [v|]; [|by intros [= _ <-]].
  case_bool_decide; [|by intros [= _ <-]].
  destruct (ripple_sequence fuel r c b1) as [[[seq|e] b2]|] eqn:Hseq; [| |done].
  - apply ripple_sequence_state in Hseq as ->.
    destruct (uncover_all seq b1) as [[[]|e] b3] eqn:Hall;
      intros [= _ <-]; (eapply grows_trans; [done|by eapply uncover_all_grows]).
  - apply ripple_sequence_state in Hseq as ->. by intros [= _ <-].
Qed.

(** After a successful [uncover] the cell, hidden before, is shown; a
    second [uncover] of it raises [IllegalMoveException] and changes
    nothing; no value and no other cell's state changed. *)
Theorem uncover_then_uncover (r c : Z) (b b1 : Board) :
  uncover r c b = (Return tt, b1) →
  is_hidden r c b = (Return "H", b) ∧
  is_hidden r c b1 = (Return "S", b1) ∧
  uncover r c b1 = (Raise IllegalMoveException, b1) ∧
  (∀ r' c', fst (get_value r' c' b1) = fst (get_value r' c' b)) ∧
  (∀ r' c', (r', c') ≠ (r, c) →
            fst (is_hidden r' c' b1) = fst (is_hidden r' c' b)).
Proof.
  intros [(_ & [v Hv] & Hh & ->)|[(? & _)|(? & _)]]%uncover_outcome;
    [|done..].
  unfold is_hidden, uncover, get_value. simpl. rewrite Hv.
  rewrite (bool_decide_eq_false_2 _ Hh).
  assert ((r, c) ∈ uncovered b ++ [(r, c)]) as Hin.
  { apply elem_of_app. right. by apply list_elem_of_singleton. }
  rewrite !(bool_decide_eq_true_2 _ Hin). split_and!; try done.
  - intros r' c'. by destruct (board b !! (r', c')).
  - intros r' c' Hne. destruct (board b !! (r', c')); [|done]. simpl.
    rewrite (bool_decide_ext ((r', c') ∈ uncovered b ++ [(r, c)])
               ((r', c') ∈ uncovered b)); [done|].
    rewrite elem_of_app, list_elem_of_singleton. tauto.
Qed.

(** For every board [make_move] has three cases, decided by the cell
    alone: outside the grid it raises [IllegalIndicesException], on an
    uncovered cell [IllegalMoveException], both without changing the board;
    on a hidden cell of the grid it returns (fuel above the number of
    cells), so it raises nothing else. *)
Theorem make_move_cases (fuel : nat) (r c : Z) (b : Board) :
  (size (board b) < fuel)%nat →
  match board b !! (r, c) with
  | None => make_move fuel r c b = Some (Raise IllegalIndicesException, b)
  | Some v =>
      if bool_decide ((r, c) ∈ uncovered b)
      then make_move fuel r c b = Some (Raise IllegalMoveException, b)
      else ∃ b', make_move fuel r c b = Some (Return (str v), b')
  end.
Proof.
  intros Hfuel. destruct (board b !! (r, c)) as [v|] eqn:Hv.
  - case_bool_decide as Hu.
    + unfold make_move, uncover. rewrite Hv. by rewrite bool_decide_eq_true_2.
    + destruct (make_move_run b r c fuel v Hv Hu Hfuel)
        as (b1 & seq & _ & _ & _ & _ & _ & _ & _ & ->). by eexists.
  - unfold make_move, uncover. by rewrite Hv.
Qed.

(** Whatever [make_move] does, it only appends to the uncovered cells:
    dimensions, [startState] and the grid stay, the old uncovered list is
    a prefix of the new one, and a list without duplicates stays so. *)
Theorem make_move_only_appends (fuel : nat) (r c : Z) (b b' : Board)
  (o : outcome string) :
  make_move fuel r c b = Some (o, b') →
  rows b' = rows b ∧ columns b' = columns b ∧
  startState b' = startState b ∧ board b' = board b ∧
  uncovered b `prefix_of` uncovered b' ∧
  (NoDup (uncovered b) → NoDup (uncovered b')).
Proof. apply make_move_grows. Qed.

Lemma grows_wf (b b' : Board) :
  grows b b' → grid_exact b → grid_exact b'.
Proof.
  intros (Hr & Hc & _ & Hb & _) Hgrid p. unfold in_bounds.
  rewrite Hb, Hr, Hc. apply Hgrid.
Qed.

Lemma grows_uncovered_mine (b b' : Board) :
  grows b b' → uncovered_mine b → uncovered_mine b'.
Proof.
  intros (_ & _ & _ & Hb & [k Hk] & _) (p & Hp & Hm). exists p.
  rewrite Hb, Hk. split; [|done]. apply elem_of_app. by left.
Qed.

Lemma make_move_on_mine_run (fuel : nat) (r c : Z) (b : Board) :
  grid_exact b → uncovered_in_grid b →
  board b !! (r, c) = Some Mine → (r, c) ∉ uncovered b →
  ∃ b', make_move fuel r c b = Some (Return "*", b') ∧
        uncovered b' = uncovered b ++ [(r, c)] ∧
        get_status b' = (Return Lose, b').
Proof.
  intros Hgrid Hunc Hv Hh.
  exists (set_uncovered (uncovered b ++ [(r, c)]) b).
  assert (make_move fuel r c b =
          Some (Return "*", set_uncovered (uncovered b ++ [(r, c)]) b)) as Hm.
  { unfold make_move. rewrite uncover_hidden by (by rewrite ?Hv).
    by rewrite (get_value_Some (set_uncovered _ b) _ _ _ Hv). }
  split_and!; [done..|].
  apply get_status_Lose.
  - done.
  - intros p. simpl. rewrite elem_of_app, list_elem_of_singleton.
    intros [?| ->]; [by apply Hunc|by rewrite Hv].
  - exists (r, c). simpl. split; [|done].
    apply elem_of_app. right. by apply list_elem_of_singleton.
Qed.

(** A move on a hidden mine returns ["*"], uncovers that cell only, and
    the game is lost. *)
Theorem make_move_on_mine (fuel : nat) (r c : Z) (b : Board) :
  grid_exact b → uncovered_in_grid b →
  board b !! (r, c) = Some Mine → (r, c) ∉ uncovered b →
  ∃ b', make_move fuel r c b = Some (Return "*", b') ∧
        uncovered b' = uncovered b ++ [(r, c)] ∧
        get_status b' = (Return Lose, b').
Proof. apply make_move_on_mine_run. Qed.

(** A lost game stays lost: after [Lose], every further [make_move],
    whatever its outcome, leaves a board whose status is [Lose]. *)
Theorem lose_is_final (fuel : nat) (r c : Z) (b b' : Board)
  (o : outcome string) :
  Board_wf b →
  get_status b = (Return Lose, b) →
  make_move fuel r c b = Some (o, b') →
  get_status b' = (Return Lose, b').
Proof.
  intros Hwf Hl Hm.
  pose proof (make_move_wf _ _ _ _ _ _ Hm Hwf) as (_ & _ & Hg' & Hu' & _).
  destruct Hwf as (_ & _ & Hg & Hu & _).
  apply get_status_Lose; [done..|].
  apply (grows_uncovered_mine b b'); [by eapply make_move_grows|].
  by apply get_status_Lose.
Qed.

(** In a won game every hidden cell is a mine: a move that is accepted
    returns ["*"] and the game is lost. *)
Theorem move_after_win_loses (fuel : nat) (r c : Z) (b b' : Board)
  (v : string) :
  grid_exact b → uncovered_in_grid b →
  get_status b = (Return Win, b) →
  make_move fuel r c b = Some (Return v, b') →
  v = "*" ∧ get_status b' = (Return Lose, b').
Proof.
  intros Hgrid Hunc Hw Hm.
  destruct (get_status_cases b Hgrid Hunc) as (s & Hs & _ & _ & Hwin & _).
  rewrite Hs in Hw. injection Hw as ->.
  destruct (proj1 Hwin eq_refl) as (_ & _ & Hall).
  assert (is_Some (board b !! (r, c)) ∧ (r, c) ∉ uncovered b) as [[w Hv] Hh].
  { unfold make_move in Hm.
    destruct (uncover r c b) as [[[]|e] b1] eqn:Hu; [|done].
    apply uncover_outcome in Hu as [(_ & ? & ? & _)|[(? & _)|(? & _)]]; done. }
  destruct w as [n|].
  { destruct Hh. apply Hall. by exists n. }
  destruct (make_move_on_mine_run fuel r c b Hgrid Hunc Hv Hh)
    as (b2 & Hm2 & _ & Hl).
  rewrite Hm in Hm2. by injection Hm2 as -> ->.
Qed.

(** A move on a hidden cell that holds a number other than 0 uncovers
    that cell and nothing else, on every board and for every fuel. *)
Theorem make_move_on_number (fuel : nat) (r c : Z) (b : Board) (n : nat) :
  board b !! (r, c) = Some (Num (S n)) → (r, c) ∉ uncovered b →
  make_move fuel r c b =
  Some (Return (pretty (S n)), set_uncovered (uncovered b ++ [(r, c)]) b).
Proof.
  intros Hv Hh. unfold make_move.
  rewrite uncover_hidden by (by rewrite ?Hv).
  set (b1 := set_uncovered (uncovered b ++ [(r, c)]) b).
  rewrite (get_value_Some b1 _ _ _ Hv).
  rewrite bool_decide_eq_true_2 by (by rewrite str_Mine).
  unfold ripple_sequence. rewrite (get_value_Some b1 _ _ _ Hv).
  rewrite bool_decide_eq_true_2 by (by rewrite str_zero).
  simpl. by destruct b.
Qed.

(** ** More on the ripple *)

Lemma ripple_neighbors_is_neighbor (r c : Z) (q : cell) :
  q ∈ ripple_neighbors r c ↔ is_neighbor (r, c) q.
Proof.
  rewrite <- neighbors_is_neighbor. unfold ripple_neighbors. simpl.
  rewrite !elem_of_cons, !elem_of_nil. tauto.
Qed.

Lemma closed_at_mono (b : Board) (o : cell) (s s' : list cell) (z : cell) :
  (∀ p, p ∈ s → p ∈ s') → closed_at b o s z → closed_at b o s' z.
Proof. intros Hsub Hc Hz p ? ? ? ?. apply Hsub. by apply Hc. Qed.

Lemma ripple_for_closed (b : Board) (o : cell) (n : nat) (s q s' q' : list cell) :
  (n ≤ length q)%nat →
  (∀ p, p ∈ q → is_Some (board b !! p)) →
  ripple_for n b o s q = Return (s', q') →
  ∀ z, z ∈ take n q → closed_at b o s' z.
Proof.
  revert s q. induction n as [|n IH]; intros s q Hn Hq Hfor z Hz.
  { by apply elem_of_nil in Hz. }
  destruct q as [|[r c] q0]; [simpl in Hn; lia|]. simpl in Hn.
  destruct (Hq (r, c)) as [v Hv]; [by left|].
  assert (∀ p, p ∈ q0 → is_Some (board b !! p)) as Hq0.
  { intros p ?. apply Hq. by right. }
  cbn [ripple_for] in Hfor. rewrite (get_value_Some _ _ _ _ Hv) in Hfor.
  cbn [take] in Hz. case_bool_decide as Hzero.
  - apply str_zero in Hzero as ->.
    rewrite ripple_visit_filter in Hfor by apply NoDup_ripple_neighbors.
    set (new1 := filter (fresh b o s) (ripple_neighbors r c)) in *.
    assert (∀ p, p ∈ q0 ++ new1 → is_Some (board b !! p)) as Hq1.
    { intros p [?|Hp]%elem_of_app; [by apply Hq0|].
      by apply list_elem_of_filter in Hp as [[[? _] _] _]. }
    destruct (ripple_for_shape b o n (s ++ new1) (q0 ++ new1))
      as (new2 & Hshape & _); [rewrite length_app; lia|done|].
    rewrite Hshape in Hfor. injection Hfor as <- <-.
    apply elem_of_cons in Hz as [->|Hz].
    + intros _ p Hp Hk Hne Hu. simpl in Hp.
      rewrite <- (assoc_L (++)), !elem_of_app.
      destruct (decide (p ∈ s)) as [?|Hs]; [by left|]. right. left.
      apply list_elem_of_filter. by split.
    + apply (IH (s ++ new1) (q0 ++ new1)); [rewrite length_app; lia|done..|].
      rewrite take_app_le by lia. done.
  - apply elem_of_cons in Hz as [->|Hz].
    + intros Hz0. rewrite Hv in Hz0. injection Hz0 as ->. by destruct Hzero.
    + by apply (IH s q0); [lia|..].
Qed.

Lemma ripple_while_closed (b : Board) (o : cell) (fuel : nat)
  (s q r : list cell) :
  (∀ p, p ∈ q → is_Some (board b !! p)) →
  (∀ z, z = o ∨ z ∈ s → z ∈ q ∨ closed_at b o s z) →
  ripple_while fuel b o s q = Some (Return r) →
  ∀ z, z = o ∨ z ∈ r → closed_at b o r z.
Proof.
  revert s q. induction fuel as [|fuel IH]; intros s q Hq Hinv.
  - destruct q; [|done]. intros [= <-] z Hz.
    destruct (Hinv z Hz) as [?%elem_of_nil|?]; done.
  - destruct q as [|z0 q0].
    { intros [= <-] z Hz. destruct (Hinv z Hz) as [?%elem_of_nil|?]; done. }
    set (q := z0 :: q0) in *.
    change (ripple_while (S fuel) b o s q) with
      (match ripple_for (length q) b o s q with
       | Raise e => Some (Raise e)
       | Return (sequence, queue) => ripple_while fuel b o sequence queue
       end).
    destruct (ripple_for_shape b o (length q) s q) as (new & Hfor & _ & Hf & _);
      [done..|].
    rewrite Hfor, drop_all. simpl. apply IH.
    + intros p Hp. by destruct (Hf p Hp) as [[? _] _].
    + intros z [->|[Hz|Hz]%elem_of_app].
      * destruct (Hinv o) as [Ho|Ho]; [by left| |].
        -- right. apply (ripple_for_closed b o (length q) s q _ _ (le_n _) Hq Hfor).
           by rewrite firstn_all.
        -- right. eapply closed_at_mono; [|done]. intros p ?.
           apply elem_of_app. by left.
      * destruct (Hinv z) as [Ho|Ho]; [by right| |].
        -- right. apply (ripple_for_closed b o (length q) s q _ _ (le_n _) Hq Hfor).
           by rewrite firstn_all.
        -- right. eapply closed_at_mono; [|done]. intros p ?.
           apply elem_of_app. by left.
      * by left.
Qed.

Lemma ripple_while_fuel_mono (b : Board) (o : cell) (fuel d : nat)
  (s q : list cell) (x : outcome (list cell)) :
  ripple_while fuel b o s q = Some x →
  ripple_while (fuel + d) b o s q = Some x.
Proof.
  revert s q. induction fuel as [|fuel IH]; intros s q.
  - destruct q; [|done]. intros [= <-]. by destruct d.
  - destruct q as [|z0 q0]; [done|]. cbn [ripple_while Nat.add].
    destruct (ripple_for _ b o s (z0 :: q0)) as [[s' q']|e]; [apply IH|done].
Qed.

Lemma ripple_sequence_fuel_mono (fuel d : nat) (r c : Z) (b : Board)
  (x : outcome (list cell) * Board) :
  ripple_sequence fuel r c b = Some x →
  ripple_sequence (fuel + d) r c b = Some x.
Proof.
  unfold ripple_sequence, get_value.
  destruct (board b !! (r, c)); [|done]. case_bool_decide; [done|].
  destruct (ripple_while fuel _ _ _ _) as [o|] eqn:Hw; [|done].
  by rewrite (ripple_while_fuel_mono _ _ _ d _ _ _ Hw).
Qed.

(** The facts about a returned ripple sequence, for every fuel. *)
Lemma ripple_sequence_returned (fuel : nat) (r c : Z) (b b' : Board)
  (seq : list cell) :
  ripple_sequence fuel r c b = Some (Return seq, b') →
  b' = b ∧ NoDup seq ∧
  (∀ p, p ∈ seq → fresh b (r, c) [] p) ∧
  (∀ p, p ∈ seq → reached b ((r, c) :: seq) p) ∧
  (∀ z, z = (r, c) ∨ z ∈ seq → closed_at b (r, c) seq z).
Proof.
  intros Hseq. pose proof (ripple_sequence_state _ _ _ _ _ _ Hseq) as ->.
  assert (∃ v, board b !! (r, c) = Some v) as [v Hv].
  { unfold ripple_sequence, get_value in Hseq.
    destruct (board b !! (r, c)) as [v|]; [by exists v|done]. }
  destruct (ripple_sequence_run b r c (fuel + S (size (board b))) v Hv)
    as (seq' & Hrun & _ & Hnd & Hf & Hr & _); [lia|].
  rewrite (ripple_sequence_fuel_mono _ _ _ _ _ _ Hseq) in Hrun.
  injection Hrun as <-. split_and!; try done.
  unfold ripple_sequence in Hseq. rewrite (get_value_Some _ _ _ _ Hv) in Hseq.
  case_bool_decide as Hz.
  - injection Hseq as <-. intros z [->|?%elem_of_nil]; [|done].
    intros Hz0. rewrite Hv in Hz0. injection Hz0 as ->. by destruct Hz.
  - destruct (ripple_while _ _ _ _ _) as [[seq0|e]|] eqn:Hw; [|done..].
    injection Hseq as ->.
    apply (ripple_while_closed b (r, c) fuel [] [(r, c)] seq); [| |done].
    + intros p ->%list_elem_of_singleton. by rewrite Hv.
    + intros z [->|?%elem_of_nil]; [|done]. left. by left.
Qed.

(** The ripple is complete: around the origin and around every cell
    of the sequence whose value is 0, each neighbour inside the grid that
    is not uncovered is in the sequence (or is the origin). *)
Theorem ripple_sequence_closed (fuel : nat) (r c : Z) (b b' : Board)
  (seq : list cell) :
  ripple_sequence fuel r c b = Some (Return seq, b') →
  ∀ z p, z = (r, c) ∨ z ∈ seq →
         board b !! z = Some (Num 0) →
         is_neighbor z p → is_Some (board b !! p) → p ∉ uncovered b →
         p = (r, c) ∨ p ∈ seq.
Proof.
  intros (_ & _ & _ & _ & Hclosed)%ripple_sequence_returned z p Hz Hz0 Hn Hk Hu.
  destruct (decide (p = (r, c))) as [|Hne]; [by left|]. right.
  apply (Hclosed z Hz Hz0); try done.
  destruct z. by apply ripple_neighbors_is_neighbor.
Qed.

Lemma ripple_while_no_raise (b : Board) (o : cell) (fuel : nat)
  (s q : list cell) (e : exn) :
  (∀ p, p ∈ q → is_Some (board b !! p)) →
  ripple_while fuel b o s q ≠ Some (Raise e).
Proof.
  revert s q. induction fuel as [|fuel IH]; intros s q Hq.
  - by destruct q.
  - destruct q as [|z0 q0]; [done|]. set (q := z0 :: q0) in *.
    change (ripple_while (S fuel) b o s q) with
      (match ripple_for (length q) b o s q with
       | Raise e => Some (Raise e)
       | Return (sequence, queue) => ripple_while fuel b o sequence queue
       end).
    destruct (ripple_for_shape b o (length q) s q) as (new & -> & _ & Hf & _);
      [done..|].
    apply IH. rewrite drop_all. intros p Hp. simpl in Hp.
    by destruct (Hf p Hp) as [[? _] _].
Qed.

(** [ripple_sequence] raises exactly when the cell is not in the grid, and
    then it is [IllegalIndicesException]; the loops never raise (no
    [IndexError] from the queue, no exception from [get_value]). *)
Theorem ripple_sequence_raises (fuel : nat) (r c : Z) (b : Board) :
  (board b !! (r, c) = None →
   ripple_sequence fuel r c b = Some (Raise IllegalIndicesException, b)) ∧
  (∀ e b', ripple_sequence fuel r c b = Some (Raise e, b') →
           e = IllegalIndicesException ∧ board b !! (r, c) = None ∧ b' = b).
Proof.
  unfold ripple_sequence, get_value. split.
  - by intros ->.
  - intros e b'. destruct (board b !! (r, c)) as [v|] eqn:Hv.
    + case_bool_decide; [done|].
      destruct (ripple_while _ _ _ _ _) as [[seq|e']|] eqn:Hw; [done| |done].
      exfalso. apply (ripple_while_no_raise b (r, c) fuel [] [(r, c)] e');
        [|done].
      intros p ->%list_elem_of_singleton. by rewrite Hv.
    + by intros [= <- <-].
Qed.

(** *** Safe moves on a consistent board *)

Lemma zero_has_no_mined_neighbor (g : gmap cell value) (z p : cell) :
  mined_neighbors g z = 0%nat → is_neighbor z p → g !! p ≠ Some Mine.
Proof.
  unfold mined_neighbors. intros Hz Hn Hp.
  apply size_empty_iff in Hz.
  assert (p ∈ filter (is_neighbor z) (mined_cells g)) as Hin.
  { apply elem_of_filter. split; [done|]. by apply elem_of_mined_cells. }
  rewrite Hz in Hin. by apply elem_of_empty in Hin.
Qed.

Lemma uncover_all_return (seq : list cell) (b b' : Board) :
  uncover_all seq b = (Return tt, b') →
  b' = set_uncovered (uncovered b ++ seq) b.
Proof.
  revert b. induction seq as [|[r c] seq IH]; intros b.
  - intros [= <-]. rewrite app_nil_r. by destruct b.
  - cbn [uncover_all]. unfold bind.
    destruct (uncover r c b) as [[[]|e] b1] eqn:Hu; [|done].
    apply uncover_outcome in Hu as [(_ & _ & _ & ->)|[(? & _)|(? & _)]];
      [|done..].
    intros ->%IH. simpl. rewrite set_uncovered_twice.
    by rewrite <- (assoc_L (++)).
Qed.

(** What a returning [make_move] did, for every fuel. *)
Lemma make_move_returned (fuel : nat) (r c : Z) (b b' : Board) (v : string) :
  make_move fuel r c b = Some (Return v, b') →
  ∃ w seq, board b !! (r, c) = Some w ∧ v = str w ∧ ((r, c) ∉ uncovered b) ∧
    b' = set_uncovered (uncovered b ++ (r, c) :: seq) b ∧
    (w = Mine → seq = []) ∧
    (w ≠ Mine →
     ripple_sequence fuel r c (set_uncovered (uncovered b ++ [(r, c)]) b)
     = Some (Return seq, set_uncovered (uncovered b ++ [(r, c)]) b)).
Proof.
  unfold make_move.
  destruct (uncover r c b) as [[[]|e] b1] eqn:Hu; [|done].
  apply uncover_outcome in Hu as [(_ & [w Hw] & Hh & ->)|[(? & _)|(? & _)]];
    [|done..].
  set (b1 := set_uncovered (uncovered b ++ [(r, c)]) b).
  rewrite (get_value_Some b1 _ _ _ Hw).
  case_bool_decide as Hm.
  - destruct (ripple_sequence fuel r c b1) as [[[seq|e] b2]|] eqn:Hseq;
      [|done..].
    pose proof (ripple_sequence_state _ _ _ _ _ _ Hseq) as ->.
    destruct (uncover_all seq b1) as [[[]|e] b3] eqn:Hall; [|done].
    apply uncover_all_return in Hall as ->.
    intros [= <- <-]. exists w, seq. split_and!; try done.
    + unfold b1. simpl. rewrite set_uncovered_twice.
      by rewrite <- (assoc_L (++)).
    + intros ->. by destruct Hm.
  - intros [= <- <-]. exists w, []. split_and!; try done.
    intros Hne. by apply str_Mine in Hm.
Qed.

(** On a consistent board a move on a hidden cell without a mine uncovers
    no mine: if no mine was uncovered before, none is afterwards, and the
    status is [Win] or [InProgress]. *)
Theorem safe_move_uncovers_no_mine (fuel : nat) (r c : Z) (b b' : Board)
  (n : nat) (v : string) :
  grid_exact b → uncovered_in_grid b → consistent b →
  ¬ uncovered_mine b →
  board b !! (r, c) = Some (Num n) →
  make_move fuel r c b = Some (Return v, b') →
  (∀ p, p ∈ uncovered b' → board b' !! p ≠ Some Mine) ∧
  (get_status b' = (Return Win, b') ∨ get_status b' = (Return InProgress, b')).
Proof.
  intros Hgrid Hunc Hcons Hnm Hv Hm.
  pose proof (make_move_grows _ _ _ _ _ _ Hm) as Hgrows.
  apply make_move_returned in Hm
    as (w & seq & Hw & -> & Hh & -> & _ & Hseq).
  rewrite Hv in Hw. injection Hw as <-.
  specialize (Hseq ltac:(done)).
  apply ripple_sequence_returned in Hseq as (_ & _ & Hf & Hr & _).
  assert (∀ p, p ∈ uncovered b ++ (r, c) :: seq → board b !! p ≠ Some Mine)
    as Hsafe.
  { intros p [Hp|[->|Hp]%elem_of_cons]%elem_of_app.
    - intros Hmine. apply Hnm. by exists p.
    - by rewrite Hv.
    - destruct (Hr p Hp) as ([zr zc] & _ & Hz & Hzp). simpl in Hz, Hzp.
      apply (zero_has_no_mined_neighbor (board b) (zr, zc)).
      + symmetry. by apply Hcons.
      + by apply ripple_neighbors_is_neighbor. }
  split; [done|].
  set (b' := set_uncovered (uncovered b ++ (r, c) :: seq) b) in *.
  assert (grid_exact b') as Hgrid' by done.
  assert (uncovered_in_grid b') as Hunc'.
  { intros p [Hp|[->|Hp]%elem_of_cons]%elem_of_app; simpl.
    - by apply Hunc.
    - by rewrite Hv.
    - by destruct (Hf p Hp) as [[? _] _]. }
  destruct (get_status_cases b' Hgrid' Hunc')
    as (s & -> & Hns & Hl & Hwin & Hip).
  destruct s; [| by right | by left |].
  - pose proof (proj1 Hns eq_refl) as Hnil. unfold b' in Hnil. simpl in Hnil.
    by destruct (uncovered b).
  - destruct (proj1 Hl eq_refl) as (_ & p & Hp & Hmine). by destruct (Hsafe p).
Qed.

(** After a move, around every cell of value 0 that the move uncovered,
    all neighbours inside the grid are uncovered: the revealed region
    ends at numbered cells. *)
Theorem make_move_reveals_neighbors (fuel : nat) (r c : Z) (b b' : Board)
  (v : string) :
  make_move fuel r c b = Some (Return v, b') →
  ∀ z p, z ∈ uncovered b' → z ∉ uncovered b →
         board b !! z = Some (Num 0) →
         is_neighbor z p → is_Some (board b !! p) →
         p ∈ uncovered b'.
Proof.
  intros (w & seq & Hw & -> & Hh & -> & Hmine & Hseq)%make_move_returned
    z p Hz Hnz Hz0 Hn Hk.
  simpl in *. rewrite elem_of_app, elem_of_cons in Hz.
  destruct Hz as [?|Hz]; [done|].
  assert (w ≠ Mine) as Hnm.
  { intros ->. rewrite (Hmine eq_refl) in Hz.
    destruct Hz as [->|?%elem_of_nil]; [congruence|done]. }
  specialize (Hseq Hnm).
  apply ripple_sequence_returned in Hseq as (_ & _ & _ & _ & Hclosed).
  rewrite elem_of_app, elem_of_cons.
  destruct (decide (p ∈ uncovered b)) as [|Hpu]; [by left|].
  destruct (decide (p = (r, c))) as [|Hpo]; [by right; left|].
  right. right. apply (Hclosed z Hz Hz0); try done.
  - destruct z. by apply ripple_neighbors_is_neighbor.
  - simpl. rewrite elem_of_app, list_elem_of_singleton. tauto.
Qed.

(** ** Scattering on any board *)

Lemma scatter_one_raise_key (rnd : random_source) (fuel n : nat)
  (b b' : Board) (n' : nat) (e : exn) :
  scatter_one rnd fuel n b = Some (Raise e, b', n') →
  ∃ m, board b !! (rnd m 0 (rows b - 1), rnd (S m) 0 (columns b - 1)) = None.
Proof.
  revert n. induction fuel as [|fuel IH]; intros n; [done|].
  rewrite scatter_one_S.
  destruct (board b !! _) as [[m|]|] eqn:Hv; [done|by apply IH|].
  intros _. by exists n.
Qed.

Lemma scatter_no_raise (rnd : random_source) (fuel k n : nat) (b b' : Board)
  (n' : nat) (e : exn) :
  in_range rnd → grid_exact b → 1 ≤ rows b → 1 ≤ columns b →
  scatter rnd fuel k n b ≠ Some (Raise e, b', n').
Proof.
  intros Hrange. revert n b. induction k as [|k IH]; intros n b Hgrid Hr Hc;
    [done|].
  cbn [scatter].
  destruct (scatter_one rnd fuel n b) as [[[[[]|e1] b1] n1]|] eqn:H1; [| |done].
  - apply scatter_one_return in H1 as (p & m & Hp & ->). apply IH; try done.
    apply (grid_exact_same_dom b); try done. simpl.
    apply dom_insert_lookup_L. by rewrite Hp.
  - apply scatter_one_raise_key in H1 as [m Hm].
    destruct (drawn_in_grid rnd b m Hrange Hgrid Hr Hc) as [v Hv]. congruence.
Qed.

Lemma put_mines_frame (rnd : random_source) (fuel : nat) (mines : Z)
  (n : nat) (b b' : Board) (n' : nat) (o : outcome unit) :
  put_mines rnd fuel mines n b = Some (o, b', n') →
  rows b' = rows b ∧ columns b' = columns b ∧
  uncovered b' = uncovered b ∧ dom (board b') = dom (board b) ∧
  (∀ p, board b !! p = Some Mine → board b' !! p = Some Mine).
Proof.
  unfold put_mines. case_bool_decide; [by intros [= _ <- _]|].
  destruct (scatter rnd fuel (Z.to_nat mines) n b)
    as [[[[[]|e1] b1] n1]|] eqn:Hs; [| |done].
  - apply scatter_any_inv in Hs as (? & ? & _ & ? & Hd & Hv).
    destruct (update_cells_keys b1) as (g' & -> & Hm & Hd' & _).
    intros [= _ <- _]. simpl. split_and!; try done; [congruence|].
    intros p Hp. apply Hm. destruct (Hv p) as [?|Hq]; [done|congruence].
  - apply scatter_any_inv in Hs as (? & ? & _ & ? & Hd & Hv).
    intros [= _ <- _]. split_and!; try done.
    intros p Hp. destruct (Hv p) as [?|Hq]; [done|congruence].
Qed.

(** [put_mines] on any board, not only a fresh one.  It raises
    [ScatterException] exactly when the guard refuses, and then nothing
    changes.  Whatever the outcome, dimensions, uncovered cells and the
    keys of the grid stay and no mine is removed.  When it returns,
    [startState] is false, exactly [mines] mines were added and every
    number on the board is the number of mined neighbours of its cell.
    On a well formed board with a random source that answers within its
    bounds no other exception is raised. *)
Theorem put_mines_any_board (rnd : random_source) (fuel : nat) (mines : Z)
  (n : nat) (b b' : Board) (n' : nat) (o : outcome unit) :
  put_mines rnd fuel mines n b = Some (o, b', n') →
  (o = Raise ScatterException ↔ scatter_refused b mines) ∧
  (scatter_refused b mines → b' = b ∧ n' = n) ∧
  rows b' = rows b ∧ columns b' = columns b ∧
  uncovered b' = uncovered b ∧ dom (board b') = dom (board b) ∧
  (∀ p, board b !! p = Some Mine → board b' !! p = Some Mine) ∧
  (o = Return tt →
     startState b' = false ∧ consistent b' ∧
     size (mined_cells (board b')) =
       (size (mined_cells (board b)) + Z.to_nat mines)%nat) ∧
  (Board_wf b → in_range rnd → o = Return tt ∨ o = Raise ScatterException).
Proof.
  intros Hput.
  destruct (put_mines_frame _ _ _ _ _ _ _ _ Hput) as (? & ? & ? & ? & ?).
  split_and!; try done.
  - split.
    + intros ->. by apply put_mines_raise in Hput as [(_ & ? & _)|[? _]].
    + intros Href. rewrite (put_mines_refused rnd fuel mines n b Href) in Hput.
      by injection Hput as <- _ _.
  - intros Href. rewrite (put_mines_refused rnd fuel mines n b Href) in Hput.
    by injection Hput as _ <- <-.
  - intros ->.
    apply put_mines_return in Hput as (_ & _ & _ & _ & ? & _ & ? & ?). done.
  - intros (? & ? & Hgrid & _) Hrange. destruct o as [[]|e]; [by left|right].
    destruct (put_mines_raise _ _ _ _ _ _ _ _ Hput) as [(-> & _)|[-> Hnr]];
      [done|].
    exfalso. revert Hput. unfold put_mines. fold (scatter_refused b mines).
    rewrite bool_decide_eq_false_2 by done.
    destruct (scatter rnd fuel (Z.to_nat mines) n b)
      as [[[[[]|e1] b1] n1]|] eqn:Hs; [| |done].
    + by destruct (update_cells_keys b1) as (g' & -> & _).
    + by apply scatter_no_raise in Hs; [|done|done|lia..].
Qed.



(** ** Invariants of the reachable boards *)

Lemma load_pairs_NoDup (r c0 : Z) (pairs : list string)
  (nb nb' : gmap cell value) (nu nu' : list cell) :
  load_pairs r c0 pairs nb nu = Return (nb', nu') →
  NoDup nu → (∀ p, p ∈ nu → ¬ in_row r c0 (length pairs) p) →
  NoDup nu'.
Proof.
  unfold in_row.
  revert c0 nb nu. induction pairs as [|t pairs IH]; intros c0 nb nu.
  - by intros [= _ <-].
  - cbn [load_pairs length].
    destruct (String.list_ascii_of_string t) as [|x [|y [|z l]]]; try done.
    case_bool_decide as Hbad; [done|].
    intros Hl Hnd Hout. eapply IH; [exact Hl|..].
    + destruct (bool_decide (y = "S"%char)); [|done].
      apply NoDup_app. split_and!; [done| |apply NoDup_singleton].
      intros p Hp ->%list_elem_of_singleton. apply (Hout _ Hp). simpl. lia.
    + intros p Hp [Hp1 Hp2].
      assert (p ∈ nu ∨ p = (r, c0)) as [Hq| ->].
      { destruct (bool_decide (y = "S"%char)); [|by left].
        apply elem_of_app in Hp as [?|?%list_elem_of_singleton]; auto. }
      * apply (Hout _ Hq). lia.
      * simpl in *. lia.
Qed.

Lemma load_lines_NoDup (cols r0 : Z) (lines : list string)
  (nb nb' : gmap cell value) (nu nu' : list cell) (d : bool) :
  load_lines cols r0 lines nb nu d = Return (nb', nu', false) →
  NoDup nu → (∀ p, p ∈ nu → p.1 < r0) →
  NoDup nu'.
Proof.
  revert r0 nb nu d. induction lines as [|line lines IH]; intros r0 nb nu d.
  - by intros [= _ <- _].
  - cbn [load_lines].
    destruct (load_pairs r0 0 (split " " line) nb nu) as [[nb1 nu1]|e] eqn:Hp;
      [|done].
    intros Hl Hnd Hout. eapply IH; [exact Hl|..].
    + eapply load_pairs_NoDup; [exact Hp|done|].
      intros p Hq [Hq1 _]. apply Hout in Hq. lia.
    + intros p Hq. apply load_pairs_grid in Hp as (_ & _ & Hu).
      destruct (Hu p Hq) as [?%Hout|[? _]]; lia.
Qed.

Lemma load_board_NoDup (lines : list string) (b b' : Board) (o : outcome unit) :
  load_board lines b = (o, b') → NoDup (uncovered b) → NoDup (uncovered b').
Proof.
  unfold load_board. case_bool_decide; [by intros [= _ <-]|].
  destruct (load_lines _ _ _ _ _ _) as [[[nb nu] [|]]|e] eqn:Hl;
    try (by intros [= _ <-]).
  intros [= _ <-] _. simpl.
  eapply load_lines_NoDup; [exact Hl|apply NoDup_nil_2|].
  by intros p ?%elem_of_nil.
Qed.

(** Every board that the program can reach, by the constructor followed
    by any calls of [put_mines], [load_board], [uncover] and [make_move]
    (returning or raising), has legal dimensions, a grid of exactly the
    cells inside them, legal values, and a duplicate-free list of
    uncovered cells that all lie in the grid. *)
Theorem reachable_invariant (b : Board) :
  reachable b → Board_wf b ∧ NoDup (uncovered b).
Proof.
  intros Hreach. split; [by apply reachable_wf|].
  induction Hreach as [rs cs b Hinit|rnd fuel mines n b o b' n' _ IH Hput
                       |lines b o b' _ IH Hload|r c b o b' _ IH Hu
                       |fuel r c b o b' _ IH Hm].
  - destruct (fresh_board_facts rs cs b Hinit) as (_ & _ & _ & _ & _ & -> & _).
    apply NoDup_nil_2.
  - apply put_mines_frame in Hput as (_ & _ & -> & _). done.
  - by eapply load_board_NoDup.
  - apply uncover_grows in Hu as (_ & _ & _ & _ & _ & Hnd). auto.
  - apply make_move_grows in Hm as (_ & _ & _ & _ & _ & Hnd). auto.
Qed.

(** ** Bounds, and what the queries never do *)

(** On a board whose grid is exactly the cells inside its dimensions,
    a coordinate outside them (negative, or too large) is refused by every
    operation that takes one, with [IllegalIndicesException] and without
    any change; inside them [get_value] and [is_hidden] return. *)
Theorem out_of_bounds_rejected (fuel : nat) (r c : Z) (b : Board) :
  grid_exact b →
  (¬ in_bounds b (r, c) →
     get_value r c b = (Raise IllegalIndicesException, b) ∧
     is_hidden r c b = (Raise IllegalIndicesException, b) ∧
     uncover r c b = (Raise IllegalIndicesException, b) ∧
     ripple_sequence fuel r c b = Some (Raise IllegalIndicesException, b) ∧
     make_move fuel r c b = Some (Raise IllegalIndicesException, b)) ∧
  (in_bounds b (r, c) →
     (∃ v, get_value r c b = (Return v, b)) ∧
     (∃ h, is_hidden r c b = (Return h, b) ∧ (h = "H" ∨ h = "S") ∧
           (h = "S" ↔ (r, c) ∈ uncovered b))).
Proof.
  intros Hgrid. split.
  - intros Hout.
    assert (board b !! (r, c) = None) as Hv.
    { apply eq_None_not_Some. by rewrite (Hgrid (r, c)). }
    unfold make_move, ripple_sequence, uncover, is_hidden, get_value.
    by rewrite Hv.
  - intros [v Hv]%Hgrid. unfold is_hidden, get_value. rewrite Hv. split.
    + by eexists.
    + eexists. split; [done|]. case_bool_decide; split; try tauto; try done.
Qed.

Lemma status_scan_any (unc cells : list cell) (win : bool) (b b' : Board)
  (o : outcome GameStatus) :
  status_scan unc cells win b = (o, b') →
  b' = b ∧
  (∀ e, o = Raise e →
        e = IllegalIndicesException ∧ ∃ p, p ∈ cells ∧ board b !! p = None) ∧
  o ≠ Return NotStarted.
Proof.
  revert win. induction cells as [|[r c] cells IH]; intros win.
  - simpl. intros [= <- <-]. split_and!; try done. by destruct win.
  - cbn [status_scan].
    assert (∀ w, status_scan unc cells w b = (o, b') →
      b' = b ∧
      (∀ e, o = Raise e →
         e = IllegalIndicesException
         ∧ ∃ p, p ∈ (r, c) :: cells ∧ board b !! p = None) ∧
      o ≠ Return NotStarted) as Hrest.
    { intros w (? & Hr & ?)%IH. split_and!; try done.
      intros e He. destruct (Hr e He) as (? & p & ? & ?).
      split; [done|]. exists p. split; [by right|done]. }
    destruct (board b !! (r, c)) as [v|] eqn:Hv.
    + destruct (bool_decide ((r, c) ∈ unc)); unfold bind, get_value;
        rewrite Hv; (destruct (bool_decide _); [|by apply Hrest]);
        try (by apply Hrest).
      unfold ret. intros [= <- <-]. by split_and!.
    + assert ((o, b') = (Raise IllegalIndicesException, b) →
        b' = b ∧
        (∀ e, o = Raise e →
           e = IllegalIndicesException
           ∧ ∃ p, p ∈ (r, c) :: cells ∧ board b !! p = None) ∧
        o ≠ Return NotStarted) as Hraise.
      { intros [= -> ->]. split_and!; try done. intros e [= <-].
        split; [done|]. exists (r, c). split; [by left|done]. }
      destruct (bool_decide ((r, c) ∈ unc)); unfold bind, get_value;
        rewrite Hv; intros Heq; apply Hraise; by rewrite <- Heq.
Qed.

(** On every board, well formed or not, [get_status] leaves the board as
    it is; it answers [NotStarted] exactly when nothing is uncovered; and
    the only exception it can raise is [IllegalIndicesException], which
    needs a cell inside the dimensions that is missing from the grid. *)
Theorem get_status_frame (b b' : Board) (o : outcome GameStatus) :
  get_status b = (o, b') →
  b' = b ∧
  (o = Return NotStarted ↔ uncovered b = []) ∧
  (∀ e, o = Raise e →
        e = IllegalIndicesException ∧
        ∃ p, in_bounds b p ∧ board b !! p = None).
Proof.
  unfold get_status, bind, getUncoveredCells, getRows, getColumns, ret.
  case_bool_decide as Hnil.
  - intros [= <- <-]. by split_and!.
  - intros (-> & Hr & Hns)%status_scan_any. split_and!; [done| |].
    + split; [by intros ->|done].
    + intros e He. destruct (Hr e He) as (-> & p & Hp%elem_of_all_cells & ?).
      split; [done|]. by exists p.
Qed.

(** [updateCell] stores at its cell the number of the mined cells among
    the eight neighbours, which is at most 8, and changes no other cell;
    doing it twice is the same as doing it once. *)
Theorem updateCell_effect (r c : Z) (b : Board) :
  ∃ b1, updateCell r c b = (Return tt, b1) ∧
    board b1 !! (r, c) = Some (Num (mined_neighbors (board b) (r, c))) ∧
    (mined_neighbors (board b) (r, c) ≤ 8)%nat ∧
    (∀ p, p ≠ (r, c) → board b1 !! p = board b !! p) ∧
    rows b1 = rows b ∧ columns b1 = columns b ∧
    uncovered b1 = uncovered b ∧ startState b1 = startState b ∧
    updateCell r c b1 = (Return tt, b1).
Proof.
  eexists. split; [apply updateCell_spec|]. simpl.
  split_and!; try done.
  - by rewrite lookup_insert_eq.
  - apply mined_neighbors_le.
  - intros p Hp. by rewrite lookup_insert_ne.
  - rewrite updateCell_spec. simpl. rewrite set_board_twice.
    rewrite insert_insert_eq.
    assert (filter (is_neighbor (r, c))
              (mined_cells
                 (<[(r, c):=Num (mined_neighbors (board b) (r, c))]>
                    (board b)))
            = filter (is_neighbor (r, c)) (mined_cells (board b))) as Heq.
    { apply set_eq. intros q.
      rewrite !elem_of_filter, !elem_of_mined_cells.
      destruct (decide (q = (r, c))) as [->|Hne].
      - unfold is_neighbor. tauto.
      - by rewrite lookup_insert_ne. }
    unfold mined_neighbors at 1. by rewrite Heq.
Qed.

(** ** Blank lines and padding of a text that is loaded *)

Lemma rstrip_app (u t : string) :
  rstrip (u +:+ t) =
  match rstrip t with EmptyString => rstrip u | _ => u +:+ rstrip t end.
Proof.
  induction u as [|a u IH].
  - rewrite string_app_nil_l. by destruct (rstrip t).
  - rewrite string_app_cons. cbn [rstrip]. rewrite IH.
    destruct (rstrip t) as [|a' t']; [done|].
    rewrite string_app_cons. by destruct u.
Qed.

Lemma lstrip_app_whitespace (w s : string) :
  whitespace_only w → lstrip (w +:+ s) = lstrip s.
Proof.
  unfold whitespace_only. induction w as [|a w IH]; simpl; [done|].
  rewrite Forall_cons. intros [Ha Hw]. rewrite Ha. by apply IH.
Qed.

Lemma strip_padding (w1 s w2 : string) :
  whitespace_only w1 → whitespace_only w2 →
  strip (w1 +:+ s +:+ w2) = strip s.
Proof.
  intros H1 H2. unfold strip. rewrite rstrip_app, (rstrip_app s w2).
  apply rstrip_empty in H2. rewrite H2.
  destruct (rstrip s) as [|a t] eqn:Hs.
  - apply rstrip_empty in H1. by rewrite H1.
  - by apply lstrip_app_whitespace.
Qed.

Lemma kept_lines_app (l1 l2 : list string) :
  kept_lines (l1 ++ l2) = kept_lines l1 ++ kept_lines l2.
Proof. unfold kept_lines. by rewrite filter_app, fmap_app. Qed.

Lemma kept_lines_cons (l : string) (ls : list string) :
  kept_lines (l :: ls) =
  if decide (strip l = "") then kept_lines ls else strip l :: kept_lines ls.
Proof.
  unfold kept_lines. rewrite filter_cons.
  destruct (decide (strip l = "")) as [He|Hne].
  - by rewrite decide_False by (by intros ?).
  - by rewrite decide_True.
Qed.

(** [load_board] reads the same from a text when white space is put
    before and after one of its lines, and when a line of white space
    only is put anywhere in it: same outcome, same board. *)
Theorem load_board_layout (l1 l2 : list string) (w1 s w2 : string)
  (b : Board) :
  whitespace_only w1 → whitespace_only w2 →
  load_board (l1 ++ (w1 +:+ s +:+ w2) :: l2) b = load_board (l1 ++ s :: l2) b ∧
  load_board (l1 ++ w1 :: l2) b = load_board (l1 ++ l2) b.
Proof.
  intros H1 H2.
  assert (kept_lines (l1 ++ (w1 +:+ s +:+ w2) :: l2)
          = kept_lines (l1 ++ s :: l2)) as Hpad.
  { rewrite !kept_lines_app, !kept_lines_cons. by rewrite strip_padding. }
  assert (kept_lines (l1 ++ w1 :: l2) = kept_lines (l1 ++ l2)) as Hblank.
  { rewrite !kept_lines_app, kept_lines_cons.
    by rewrite decide_True by (by apply strip_empty). }
  unfold load_board. by rewrite Hpad, Hblank.
Qed.

(** ** Saving what was loaded *)

Lemma split_nonempty (sep : ascii) (s : string) : split sep s ≠ [].
Proof.
  destruct s as [|a s]; simpl; [done|].
  case_bool_decide; [done|]. by destruct (split sep s).
Qed.

Lemma line_of_split (l : string) : line_of (split " " l) = l +:+ " ".
Proof.
  induction l as [|a l IH]; [done|]. cbn [split].
  case_bool_decide as Ha.
  - subst a. cbn [line_of]. by rewrite IH.
  - destruct (split " " l) as [|t ts] eqn:Hs; [by apply split_nonempty in Hs|].
    cbn [line_of] in *.
    rewrite (string_app_cons a t), (string_app_cons a l). by rewrite IH.
Qed.

Lemma fmap_range_lookup {A} (f : Z → A) (l : list A) (n : Z) :
  n = Z.of_nat (length l) →
  (∀ i x, l !! i = Some x → f (Z.of_nat i) = x) →
  f <$> range n = l.
Proof.
  intros -> Hf. apply list_eq. intros i. rewrite list_lookup_fmap.
  unfold range. destruct (l !! i) as [x|] eqn:Hi.
  - rewrite lookup_seqZ_lt by (apply lookup_lt_Some in Hi; lia).
    simpl. f_equal. by apply Hf.
  - rewrite lookup_seqZ_ge by (apply lookup_ge_None in Hi; lia). done.
Qed.

Lemma legal_value_char (x : ascii) :
  x ∈ legalValues →
  value_char (if bool_decide (x = "*"%char) then Mine else Num (int x)) = x.
Proof.
  unfold legalValues. rewrite !elem_of_cons, elem_of_nil.
  intros H. destruct_or!; subst; done.
Qed.

Lemma parsed_token (b : Board) (p : cell) (t : string) :
  parsed (board b) (uncovered b) p t →
  token b p = t ∧ ∃ v, board b !! p = Some v ∧ legal_value v.
Proof.
  intros (x & y & -> & Hx & Hy & Hv & Hu). split.
  - unfold token, state_ascii. rewrite Hv, legal_value_char by done.
    do 2 f_equal. unfold legalStates in Hy.
    rewrite !elem_of_cons, elem_of_nil in Hy.
    destruct (decide (p ∈ uncovered b)) as [Hin|Hin].
    + rewrite bool_decide_true by done. symmetry. by apply Hu.
    + rewrite bool_decide_false by done.
      destruct Hy as [->|[->|[]]]; [done|]. by destruct Hin; apply Hu.
  - eexists. split; [done|]. by apply legal_char_value.
Qed.

Lemma load_pairs_tokens (r c0 : Z) (pairs : list string)
  (nb nb' : gmap cell value) (nu nu' : list cell) :
  load_pairs r c0 pairs nb nu = Return (nb', nu') →
  (∀ p, in_row r c0 (length pairs) p → p ∉ nu) →
  (∀ p, ¬ in_row r c0 (length pairs) p →
        nb' !! p = nb !! p ∧ (p ∈ nu' ↔ p ∈ nu)) ∧
  (∀ i t, pairs !! i = Some t → parsed nb' nu' (r, c0 + Z.of_nat i) t).
Proof.
  revert c0 nb nu.
  induction pairs as [|t pairs IH]; intros c0 nb nu; cbn [load_pairs].
  - intros [= <- <-] _. by split.
  - destruct t as [|x [|y [|z t]]]; try done.
    cbn [String.list_ascii_of_string].
    case_bool_decide as Hlegal; [done|].
    apply Decidable.not_or in Hlegal as [Hx%dec_stable Hy%dec_stable].
    set (nb1 := if bool_decide (x = "*"%char) then <[(r, c0):=Mine]> nb
                else <[(r, c0):=Num (int x)]> nb).
    set (nu1 := if bool_decide (y = "S"%char) then nu ++ [(r, c0)] else nu).
    intros Hload Hnu.
    assert (nb1 !! (r, c0)
            = Some (if bool_decide (x = "*"%char) then Mine else Num (int x)))
      as Hhere.
    { unfold nb1. destruct (bool_decide (x = "*"%char));
        by rewrite lookup_insert_eq. }
    assert (∀ p, p ≠ (r, c0) → nb1 !! p = nb !! p) as Hthere.
    { intros p Hp. unfold nb1. destruct (bool_decide (x = "*"%char));
        by rewrite lookup_insert_ne. }
    assert (∀ p, p ∈ nu1 ↔ p ∈ nu ∨ (p = (r, c0) ∧ y = "S"%char)) as Hnu1.
    { intros p. unfold nu1. destruct (decide (y = "S"%char)) as [Hs|Hs].
      - rewrite bool_decide_true by done.
        rewrite elem_of_app, list_elem_of_singleton. tauto.
      - rewrite bool_decide_false by done. tauto. }
    assert (in_row r c0 (length (String x (String y "") :: pairs)) (r, c0))
      as Hfirst.
    { unfold in_row. simpl. lia. }
    destruct (IH (c0 + 1) nb1 nu1 Hload) as [Hframe Htok].
    { intros p Hp. rewrite Hnu1. intros [Hin|[-> _]].
      - apply (Hnu p); [|done]. unfold in_row in *. simpl. lia.
      - unfold in_row in Hp. simpl in Hp. lia. }
    assert (¬ in_row r (c0 + 1) (length pairs) (r, c0)) as Hout.
    { unfold in_row. simpl. lia. }
    split.
    + intros p Hp.
      assert (p ≠ (r, c0)) as Hne by (by intros ->).
      destruct (Hframe p) as [-> ->].
      { intros Hin. apply Hp. unfold in_row in *. simpl. lia. }
      rewrite Hthere, Hnu1 by done. split; [done|]. tauto.
    + intros [|i] t Ht; simpl in Ht.
      * injection Ht as <-. replace (c0 + Z.of_nat 0) with c0 by lia.
        exists x, y. destruct (Hframe _ Hout) as [-> ->].
        split_and!; try done. rewrite Hnu1. split.
        -- intros [Hin|[_ ?]]; [|done]. by destruct (Hnu _ Hfirst).
        -- intros ->. by right.
      * replace (c0 + Z.of_nat (S i)) with (c0 + 1 + Z.of_nat i) by lia.
        by apply Htok.
Qed.

Lemma load_lines_tokens (cols r0 : Z) (lines : list string)
  (nb nb' : gmap cell value) (nu nu' : list cell) (d d' : bool) :
  load_lines cols r0 lines nb nu d = Return (nb', nu', d') →
  (∀ p, p ∈ nu → p.1 < r0) →
  (∀ p, p.1 < r0 → nb' !! p = nb !! p ∧ (p ∈ nu' ↔ p ∈ nu)) ∧
  (∀ i line j t, lines !! i = Some line → split " " line !! j = Some t →
     parsed nb' nu' (r0 + Z.of_nat i, Z.of_nat j) t).
Proof.
  revert r0 nb nu d.
  induction lines as [|line lines IH]; intros r0 nb nu d; cbn [load_lines].
  - intros [= <- <- <-] _. by split.
  - destruct (load_pairs r0 0 (split " " line) nb nu)
      as [[nb1 nu1]|e] eqn:Hp; [|done].
    intros Hload Hnu.
    destruct (load_pairs_tokens _ _ _ _ _ _ _ Hp) as [Hframe1 Htok1].
    { intros p [Hr _] Hin. apply Hnu in Hin. lia. }
    destruct (load_pairs_grid _ _ _ _ _ _ _ Hp) as (_ & _ & Hnu1).
    destruct (IH (r0 + 1) nb1 nu1 _ Hload) as [Hframe Htok].
    { intros p [Hin|[Hr _]]%Hnu1; [apply Hnu in Hin|]; lia. }
    split.
    + intros p Hlt. destruct (Hframe p) as [-> ->]; [lia|].
      apply Hframe1. unfold in_row. lia.
    + intros [|i] l j t Hl Ht; simpl in Hl.
      * injection Hl as <-. replace (r0 + Z.of_nat 0) with r0 by lia.
        destruct (Htok1 j t Ht) as (x & y & -> & Hx & Hy & Hv & Hu).
        destruct (Hframe (r0, Z.of_nat j)) as [Hb Hm]; [simpl; lia|].
        exists x, y. rewrite Hb, Hm. by split_and!.
      * replace (r0 + Z.of_nat (S i)) with (r0 + 1 + Z.of_nat i) by lia.
        by eapply Htok.
Qed.

(** Saving a board right after it was loaded from a text writes the
    dimensions and then the lines that [load_board] kept from the text,
    stripped, each followed by one space and a line feed. *)
Theorem load_then_save (lines : list string) (b b' : Board) :
  load_board lines b = (Return tt, b') →
  save_board b' =
  (Return ([pretty (rows b) +:+ "
"; pretty (columns b) +:+ "
"]
           ++ ((λ l, l +:+ " " +:+ "
") <$> kept_lines lines)), b').
Proof.
  unfold load_board. set (kept := kept_lines lines).
  case_bool_decide as Hne; [done|].
  destruct (load_lines (columns b) 0 kept ∅ [] _)
    as [[[nb nu] d]|e] eqn:Hl; [|done].
  destruct d; [done|]. intros [= <-].
  destruct (load_lines_grid _ _ _ _ _ _ _ _ Hl) as (Hd & _).
  rewrite Hd in Hl. apply bool_decide_eq_false, dec_stable in Hd.
  destruct (load_lines_tokens _ _ _ _ _ _ _ _ _ Hl) as [_ Htok].
  { by intros p ?%elem_of_nil. }
  assert (∀ i l, kept !! i = Some l →
            Z.of_nat (length (split " " l)) = columns b) as Hcols.
  { destruct (load_lines_spec (columns b) 0 kept ∅ [] false)
      as [(_ & nb0 & nu0 & Hs)|[_ Hs]]; [|congruence].
    rewrite Hl in Hs. injection Hs as _ _ Hs. simpl in Hs.
    symmetry in Hs. apply bool_decide_eq_false in Hs.
    apply not_Exists_Forall in Hs; [|intros ?; apply _].
    intros i l Hi. eapply Forall_lookup_1 in Hs; [|done].
    by apply dec_stable in Hs. }
  set (b' := set_uncovered nu (set_board nb b)).
  assert (∀ i l, kept !! i = Some l →
            row_tokens b' (Z.of_nat i) = split " " l) as Hrow.
  { intros i l Hi. unfold row_tokens.
    apply fmap_range_lookup; [symmetry; by eapply Hcols|].
    intros j t Hj. apply parsed_token.
    specialize (Htok i l j t Hi Hj). by rewrite Z.add_0_l in Htok. }
  assert ((λ r, line_of (row_tokens b' r) +:+ "
") <$> range (rows b) = (λ l, l +:+ " " +:+ "
") <$> kept) as Hbody.
  { apply fmap_range_lookup; [by rewrite length_fmap|].
    intros i x. rewrite list_lookup_fmap.
    destruct (kept !! i) as [l|] eqn:Hi; [|done]. simpl. intros [= <-].
    by rewrite (Hrow i l Hi), line_of_split, string_app_assoc. }
  unfold save_board, save_body, bind, getRows, getColumns, ret.
  rewrite save_lines_spec.
  - simpl. by rewrite Hbody.
  - intros r c [Hr0 Hr]%elem_of_range [Hc0 Hc]%elem_of_range.
    simpl in Hr, Hc. rewrite <- Hd in Hr.
    destruct (lookup_lt_is_Some_2 kept (Z.to_nat r)) as [l Hi]; [lia|].
    pose proof (Hcols _ _ Hi) as Hlen.
    destruct (lookup_lt_is_Some_2 (split " " l) (Z.to_nat c)) as [t Hj];
      [lia|].
    specialize (Htok _ _ _ _ Hi Hj). rewrite !Z2Nat.id, Z.add_0_l in Htok by lia.
    by apply (parsed_token b') in Htok as [_ ?].
Qed.

(** ** What [save_board] does on any board *)

Lemma save_line_any (r : Z) (cs : list Z) (line : string) (b b' : Board)
  (o : outcome string) :
  save_line r cs line b = (o, b') →
  b' = b ∧
  (∀ e, o = Raise e → e = KeyError ∧ ∃ c, c ∈ cs ∧ board b !! (r, c) = None) ∧
  ((∀ c, c ∈ cs → is_Some (board b !! (r, c))) → ∃ s, o = Return s).
Proof.
  revert line. induction cs as [|c cs IH]; intros line; cbn [save_line].
  - intros [= <- <-]. split_and!; [done|done|]. by eexists.
  - destruct (board b !! (r, c)) as [v|] eqn:Hv.
    + intros (-> & Hr & Hs)%IH. split_and!; [done| |].
      * intros e He. destruct (Hr e He) as (-> & c' & ? & ?).
        split; [done|]. exists c'. split; [by right|done].
      * intros Hall. apply Hs. intros c' Hc'. apply Hall. by right.
    + intros [= <- <-]. split_and!; [done| |].
      * intros e [= <-]. split; [done|]. exists c. split; [by left|done].
      * intros Hall. destruct (Hall c) as [v Hv']; [by left|congruence].
Qed.

Lemma save_lines_any (rs : list Z) (lines : list string) (b b' : Board)
  (o : outcome (list string)) :
  save_lines rs lines b = (o, b') →
  b' = b ∧
  (∀ e, o = Raise e →
        e = KeyError ∧
        ∃ r c, r ∈ rs ∧ c ∈ range (columns b) ∧ board b !! (r, c) = None) ∧
  (∀ doc, o = Return doc → length doc = (length lines + length rs)%nat) ∧
  ((∀ r c, r ∈ rs → c ∈ range (columns b) → is_Some (board b !! (r, c))) →
   ∃ doc, o = Return doc).
Proof.
  revert lines. induction rs as [|r rs IH]; intros lines; cbn [save_lines].
  - unfold ret. intros [= <- <-]. split_and!; [done|done| |by eexists].
    intros doc [= <-]. simpl. lia.
  - unfold bind at 1. unfold getColumns. unfold bind.
    destruct (save_line r (range (columns b)) "" b) as [[line|e] b1] eqn:Hl;
      apply save_line_any in Hl as (-> & Hr & Hs).
    + intros (-> & Hr' & Hlen & Hs')%IH. split_and!; [done| | |].
      * intros e He. destruct (Hr' e He) as (-> & r' & c & ? & ? & ?).
        split; [done|]. exists r', c. split_and!; [by right|done|done].
      * intros doc Hdoc. rewrite (Hlen doc Hdoc), length_app. simpl. lia.
      * intros Hall. apply Hs'. intros r' c Hr'' Hc. apply Hall; [by right|done].
    + intros [= <- <-]. destruct (Hr e eq_refl) as (-> & c & Hc & Hnone).
      split_and!; [done| |done|].
      * intros e [= <-]. split; [done|]. exists r, c.
        split_and!; [by left|done|done].
      * intros Hall. destruct Hs as [s Hs]; [|done].
        intros c' Hc'. apply Hall; [by left|done].
Qed.

(** On every board, well formed or not, [save_board] leaves the board as
    it is.  The only exception of the board that it can raise is
    [KeyError], which needs a cell inside the dimensions that is missing
    from the grid; when no such cell is missing it returns.  What it
    returns has two lines more than the board has rows. *)
Theorem save_board_frame (b b' : Board) (o : outcome (list string)) :
  save_board b = (o, b') →
  b' = b ∧
  (∀ e, o = Raise e →
        e = KeyError ∧ ∃ p, in_bounds b p ∧ board b !! p = None) ∧
  (∀ doc, o = Return doc → length doc = (2 + Z.to_nat (rows b))%nat) ∧
  ((∀ p, in_bounds b p → is_Some (board b !! p)) → ∃ doc, o = Return doc).
Proof.
  unfold save_board, save_body, bind, getRows, getColumns, ret.
  destruct (save_lines (range (rows b)) [] b) as [[body|e] b1] eqn:Hl;
    apply save_lines_any in Hl as (-> & Hr & Hlen & Hs).
  - intros [= <- <-]. split_and!; [done|done| |by eexists].
    intros doc [= <-]. simpl. rewrite (Hlen body eq_refl).
    unfold range. by rewrite length_seqZ.
  - intros [= <- <-]. split_and!; [done| |done|].
    + intros e' [= <-].
      destruct (Hr e eq_refl) as (-> & r & c & Hr'%elem_of_range
                                  & Hc%elem_of_range & Hnone).
      split; [done|]. by exists (r, c).
    + intros Hall. destruct Hs as [doc Hdoc]; [|done].
      intros r c Hr'%elem_of_range Hc%elem_of_range. by apply Hall.
Qed.

Lemma string_length_app (s t : string) :
  String.length (s +:+ t) = (String.length s + String.length t)%nat.
Proof.
  induction s as [|a s IH]; [done|]. rewrite string_app_cons. simpl.
  by rewrite IH.
Qed.

Lemma line_of_length (toks : list string) :
  Forall (λ t, String.length t = 2%nat) toks →
  String.length (line_of toks) = (3 * length toks)%nat.
Proof.
  induction 1 as [|t toks Ht _ IH]; [done|]. cbn [line_of].
  rewrite !string_length_app, Ht, IH. simpl. lia.
Qed.

(** When the grid holds every cell inside the dimensions and every
    number on it is at most 8, [save_board] returns the two lines of the
    dimensions and then one line for each row, each of three characters
    for each column and a line feed. *)
Theorem save_board_shape (b : Board) :
  grid_exact b → values_legal b →
  ∃ body,
    save_board b = (Return ([pretty (rows b) +:+ "
";
                             pretty (columns b) +:+ "
"] ++ body), b) ∧
    length body = Z.to_nat (rows b) ∧
    ∀ line, line ∈ body →
      String.length line = (3 * Z.to_nat (columns b) + 1)%nat.
Proof.
  intros Hgrid Hlegal.
  assert (∀ r c, r ∈ range (rows b) → c ∈ range (columns b) →
            ∃ v, board b !! (r, c) = Some v ∧ legal_value v) as Hcells.
  { intros r c Hr%elem_of_range Hc%elem_of_range.
    destruct (proj2 (Hgrid (r, c))) as [v Hv]; [done|].
    exists v. split; [done|]. destruct v as [n|]; [|done].
    by apply (Hlegal (r, c)). }
  eexists. unfold save_board, save_body, bind, getRows, getColumns, ret.
  rewrite save_lines_spec by done. split; [done|]. split.
  - simpl. rewrite length_fmap. unfold range. by rewrite length_seqZ.
  - intros line. simpl. rewrite list_elem_of_fmap. intros (r & -> & Hr).
    rewrite string_length_app, line_of_length.
    + unfold row_tokens. rewrite length_fmap. unfold range.
      rewrite length_seqZ. simpl. lia.
    + unfold row_tokens. apply Forall_fmap, Forall_forall. intros c Hc.
      destruct (Hcells r c Hr Hc) as (v & Hv & _).
      unfold compose, token. by rewrite Hv.
Qed.

(** ** The menu *)

Lemma get_status_returns (b : Board) :
  grid_exact b → ∃ s, get_status b = (Return s, b).
Proof.
  intros Hgrid.
  unfold get_status, bind, getUncoveredCells, getRows, getColumns, ret.
  case_bool_decide; [by eexists|].
  destruct (status_scan_spec b (all_cells (rows b) (columns b)) true)
    as (s & Hs & _).
  { intros p Hp%elem_of_all_cells. by apply Hgrid. }
  by exists s.
Qed.

Lemma menu_line_spec (b : Board) (r : Z) (cs : list Z) (line : string) :
  (∀ c, c ∈ cs → is_Some (board b !! (r, c))) →
  menu_line r cs line b =
  (Return (foldl (λ line c, line +:+ " " +:+ shown b (r, c) +:+ " ") line cs),
   b).
Proof.
  revert line. induction cs as [|c cs IH]; intros line Hcs; [done|].
  destruct (Hcs c) as [v Hv]; [by left|].
  assert (∀ c', c' ∈ cs → is_Some (board b !! (r, c'))) as Hrest.
  { intros c' Hc'. apply Hcs. by right. }
  cbn [menu_line foldl]. unfold bind, is_hidden, get_value.
  rewrite Hv. destruct (decide ((r, c) ∈ uncovered b)) as [Hin|Hin].
  - assert (shown b (r, c) = str v) as ->.
    { unfold shown. by rewrite (bool_decide_eq_true_2 _ Hin), Hv. }
    rewrite (bool_decide_eq_true_2 _ Hin). cbv beta iota.
    rewrite bool_decide_eq_false_2 by done. rewrite Hv. cbv beta iota.
    by rewrite IH, string_app_assoc.
  - assert (shown b (r, c) = "H") as ->.
    { unfold shown. by rewrite (bool_decide_eq_false_2 _ Hin). }
    rewrite (bool_decide_eq_false_2 _ Hin). cbv beta iota.
    rewrite bool_decide_eq_true_2 by done.
    by rewrite IH, string_app_assoc.
Qed.

Lemma menu_rows_spec (rs : list Z) (w : World) :
  (∀ r c, r ∈ rs → c ∈ range (columns (game_board w)) →
          is_Some (board (game_board w) !! (r, c))) →
  menu_rows rs (columns (game_board w)) w =
  Some (Done tt,
        mkWorld (game_board w) (stdin w)
          (trace w ++ ((λ r, Printed (menu_text (game_board w) r)) <$> rs))
          (writable w)).
Proof.
  revert w. induction rs as [|r rs IH]; intros [b inp tr wr] Hcells;
    simpl in *.
  - unfold io_ret. by rewrite app_nil_r.
  - unfold io_bind, lift. simpl.
    rewrite menu_line_spec by (intros c Hc; apply Hcells; [by left|done]).
    unfold print, record. simpl.
    specialize (IH (mkWorld b inp
      (tr ++ [Printed (foldl (λ line c, line +:+ " " +:+ shown b (r, c) +:+ " ")
                             (pretty r) (range (columns b)))]) wr)).
    simpl in IH. rewrite IH by (intros r' c Hr Hc; apply Hcells; [by right|done]).
    unfold menu_text. by rewrite <- app_assoc.
Qed.

Lemma printMenu_run (w : World) :
  grid_exact (game_board w) →
  ∃ s, get_status (game_board w) = (Return s, game_board w) ∧
    printMenu w =
    Some (Done tt,
          mkWorld (game_board w) (stdin w)
            (trace w ++ menu_events (game_board w) s) (writable w)).
Proof.
  intros Hgrid. destruct (get_status_returns _ Hgrid) as [s Hs].
  exists s. split; [done|]. destruct w as [b inp tr wr]. simpl in *.
  unfold printMenu, io_bind.
  unfold lift at 1 2, getRows, getColumns. simpl.
  unfold print at 1, record. simpl.
  pose proof (menu_rows_spec (range (rows b))
                (mkWorld b inp (tr ++ [Printed (indexing (columns b))]) wr))
    as Hrows.
  simpl in Hrows. rewrite Hrows.
  - unfold lift, print, record. simpl. rewrite Hs. simpl. rewrite Hs. simpl.
    unfold menu_events. by rewrite <- !app_assoc.
  - intros r c Hr%elem_of_range Hc%elem_of_range. by apply Hgrid.
Qed.

(** [printMenu] on a board whose grid is complete: it does not raise and
    changes nothing of the board or of the input; it prints the line of
    the column numbers, one line for each row, the status that
    [get_status] gives and the actions, [rows + 3] lines in all; and it
    offers a move exactly when the status is neither [Win] nor [Lose]. *)
Theorem printMenu_spec (w : World) :
  grid_exact (game_board w) →
  ∃ s, get_status (game_board w) = (Return s, game_board w) ∧
    printMenu w =
    Some (Done tt,
          mkWorld (game_board w) (stdin w)
            (trace w ++ menu_events (game_board w) s) (writable w)) ∧
    length (menu_events (game_board w) s)
    = (Z.to_nat (rows (game_board w)) + 3)%nat ∧
    (last (menu_events (game_board w) s)
     = Some (Printed "Available actions: (1) Save | (2) Exit | (3) Move")
     ↔ s ≠ Win ∧ s ≠ Lose).
Proof.
  intros Hgrid. destruct (printMenu_run w Hgrid) as (s & Hs & Hp).
  exists s. split_and!; [done|done| |].
  - unfold menu_events. simpl. rewrite length_app, length_fmap. unfold range.
    rewrite length_seqZ. simpl. lia.
  - assert (∀ x l (a c : event), last (x :: l ++ [a; c]) = Some c) as Hlast.
    { intros x l a c. rewrite <- (last_snoc c (x :: l ++ [a])). simpl.
      by rewrite <- app_assoc. }
    unfold menu_events. rewrite Hlast.
    destruct s; vm_compute; split; intros H; try done; try (by destruct H).
Qed.

Lemma menu_text_ext (b1 b2 : Board) (r : Z) :
  columns b1 = columns b2 → uncovered b1 = uncovered b2 →
  (∀ p, p ∈ uncovered b1 → board b1 !! p = board b2 !! p) →
  menu_text b1 r = menu_text b2 r.
Proof.
  intros Hc Hu Hv. unfold menu_text. rewrite <- Hc.
  generalize (pretty r : string).
  induction (range (columns b1)) as [|c cs IH]; intros line; [done|].
  simpl. rewrite IH. do 2 f_equal.
  unfold shown. rewrite <- Hu. case_bool_decide; [|done]. by rewrite Hv.
Qed.

(** The menu does not depend on what the hidden cells hold: on two boards
    of the same dimensions, with the same cells uncovered, the same
    values in them and the same status, [printMenu] prints the same. *)
Theorem printMenu_hides (w1 w2 : World) (s : GameStatus) :
  grid_exact (game_board w1) → grid_exact (game_board w2) →
  rows (game_board w1) = rows (game_board w2) →
  columns (game_board w1) = columns (game_board w2) →
  uncovered (game_board w1) = uncovered (game_board w2) →
  (∀ p, p ∈ uncovered (game_board w1) →
        board (game_board w1) !! p = board (game_board w2) !! p) →
  get_status (game_board w1) = (Return s, game_board w1) →
  get_status (game_board w2) = (Return s, game_board w2) →
  ∃ evs,
    printMenu w1 = Some (Done tt,
      mkWorld (game_board w1) (stdin w1) (trace w1 ++ evs) (writable w1)) ∧
    printMenu w2 = Some (Done tt,
      mkWorld (game_board w2) (stdin w2) (trace w2 ++ evs) (writable w2)).
Proof.
  intros Hg1 Hg2 Hr Hc Hu Hv Hs1 Hs2.
  destruct (printMenu_run w1 Hg1) as (s1 & Hs1' & Hp1).
  destruct (printMenu_run w2 Hg2) as (s2 & Hs2' & Hp2).
  assert (s1 = s) as -> by congruence. assert (s2 = s) as -> by congruence.
  exists (menu_events (game_board w1) s). split; [done|].
  rewrite Hp2. do 4 f_equal. unfold menu_events. rewrite Hr, Hc.
  do 2 f_equal. apply list_fmap_ext. intros _ r _. f_equal.
  symmetry. by apply menu_text_ext.
Qed.

(** ** The game loop *)

Lemma extends_refl (w : World) : extends w w.
Proof. split_and!; [apply grows_refl|done|done|done]. Qed.

Lemma extends_trans (w1 w2 w3 : World) :
  extends w1 w2 → extends w2 w3 → extends w1 w3.
Proof.
  intros (Hg & Hi & Ht & Hw) (Hg' & Hi' & Ht' & Hw'). split_and!.
  - by eapply grows_trans.
  - by etrans.
  - by etrans.
  - congruence.
Qed.

Lemma run_facts_step (w w2 w' : World) (o : io_outcome unit) :
  extends w w2 →
  (reachable (game_board w) → reachable (game_board w2)) →
  (game_over (game_board w) → game_board w2 = game_board w) →
  run_facts w2 o w' → run_facts w o w'.
Proof.
  intros Hext Hreach Hover (Hext' & Hout & Hlast & Hreach' & Hover').
  split_and!; [by eapply extends_trans|done|done|tauto|].
  intros Ho. specialize (Hover Ho). rewrite <- Hover. apply Hover'.
  by rewrite Hover.
Qed.

Lemma make_move_some (fuel : nat) (r c : Z) (b : Board) :
  (size (board b) < fuel)%nat →
  ∃ o b', make_move fuel r c b = Some (o, b').
Proof.
  intros Hfuel. destruct (board b !! (r, c)) as [v|] eqn:Hv.
  - destruct (decide ((r, c) ∈ uncovered b)) as [Hin|Hin].
    + unfold make_move, uncover. rewrite Hv, bool_decide_eq_true_2 by done.
      by do 2 eexists.
    + destruct (make_move_run b r c fuel v Hv Hin Hfuel)
        as (b1 & seq & _ & _ & _ & _ & _ & _ & _ & Hm).
      rewrite Hm. by do 2 eexists.
  - unfold make_move, uncover. rewrite Hv. by do 2 eexists.
Qed.

Lemma save_board_returns (b : Board) :
  grid_exact b → ∃ document, save_board b = (Return document, b).
Proof.
  intros Hgrid. unfold save_board, save_body, bind, getRows, getColumns, ret.
  destruct (save_lines (range (rows b)) [] b) as [o b1] eqn:Hl.
  apply save_lines_any in Hl as (-> & _ & _ & Hs).
  destruct Hs as [body ->]; [|by eexists].
  intros r c Hr%elem_of_range Hc%elem_of_range. by apply Hgrid.
Qed.

(** The turn of the loop that saves. *)
Lemma save_step (filename : string) (w : World) :
  grid_exact (game_board w) →
  ∃ evs,
    try_except_else (save_to filename) (print "Save operation failed")
      (print "Save operation done") w
    = Some (Done tt,
            mkWorld (game_board w) (stdin w) (trace w ++ evs) (writable w)) ∧
    ∃ document, save_board (game_board w) = (Return document, game_board w) ∧
    evs = if writable w filename
          then [Saved filename document; Printed "Save operation done"]
          else [Printed "Save operation failed"].
Proof.
  intros Hgrid. destruct (save_board_returns _ Hgrid) as [document Hs].
  destruct w as [b inp tr wr]. simpl in *.
  unfold try_except_else, save_to. simpl. rewrite Hs.
  destruct (wr filename); eexists; (split; [|exists document; by split]).
  - unfold print, record. simpl. by rewrite <- app_assoc.
  - done.
Qed.

(** The turn of the loop that moves: whatever is typed, it ends well. *)
Lemma move_step (fuel : nat) (move : string) (w : World) :
  (size (board (game_board w)) < fuel)%nat →
  ∃ b' evs,
    try_except (move_to fuel move) (print "Illegal move values") w
    = Some (Done tt, mkWorld b' (stdin w) (trace w ++ evs) (writable w)) ∧
    grows (game_board w) b' ∧
    (reachable (game_board w) → reachable b').
Proof.
  intros Hfuel. destruct w as [b inp tr wr]. simpl in *.
  assert (∃ b' evs,
    Some (Done tt, record (Printed "Illegal move values")
                     (mkWorld b inp tr wr))
    = Some (Done tt, mkWorld b' inp (tr ++ evs) wr) ∧
    grows b b' ∧ (reachable b → reachable b')) as Hillegal.
  { exists b, [Printed "Illegal move values"]. split_and!; [done| |done].
    apply grows_refl. }
  unfold try_except, try_except_else, move_to.
  destruct (split_whitespace move) as [|x [|y [|z l]]]; try done.
  unfold io_bind, int_str.
  destruct (int_of_str x) as [r|]; [|done].
  destruct (int_of_str y) as [c|]; [|done].
  unfold lift_fuel. simpl.
  destruct (make_move_some fuel r c b Hfuel) as (o & b' & Hm). rewrite Hm.
  destruct o as [v|e].
  - exists b', []. unfold io_ret. simpl. rewrite app_nil_r.
    split_and!; [done| |].
    + by eapply make_move_grows.
    + intros Hr. by eapply reach_make_move.
  - exists b', [Printed "Illegal move values"]. split_and!; [done| |].
    + by eapply make_move_grows.
    + intros Hr. by eapply reach_make_move.
Qed.

Lemma Game_run_S (fuel : nat) :
  Game_run (S fuel) =
  (exec printMenu in
   do* selection := raw_input "Enter selection: " in
   if bool_decide (selection = "1") then
     do* filename := raw_input "Enter filename: " in
     exec try_except_else (save_to filename)
            (print "Save operation failed")
            (print "Save operation done") in
     Game_run fuel
   else if bool_decide (selection = "2") then
     print "Goodbye :)"
   else
     do* playing :=
       (if bool_decide (selection = "3") then
          do* status := lift get_status in
          io_ret (bool_decide (status ∉ [Win; Lose]))
        else io_ret false) in
     if playing : bool then
       do* move :=
         raw_input "Enter row then column (space separated): " in
       exec try_except (move_to fuel move)
              (print "Illegal move values") in
       Game_run fuel
     else
       exec print "Illegal choice" in
       Game_run fuel).
Proof. reflexivity. Qed.

Lemma game_over_status (b : Board) (s : GameStatus) :
  game_over b → get_status b = (Return s, b) → s ∈ [Win; Lose].
Proof.
  intros [H|H] Hs; rewrite H in Hs; injection Hs as <-; set_solver.
Qed.

Lemma Game_run_facts (fuel : nat) (w : World) :
  grid_exact (game_board w) →
  (length (stdin w) + size (board (game_board w)) < fuel)%nat →
  ∃ o w', Game_run fuel w = Some (o, w') ∧ run_facts w o w'.
Proof.
  revert w. induction fuel as [|fuel IH]; intros w Hgrid Hfuel; [lia|].
  rewrite Game_run_S. unfold io_bind at 1.
  destruct (printMenu_run w Hgrid) as (s & Hs & ->).
  destruct w as [b inp tr wr]. simpl in *.
  set (tr1 := tr ++ menu_events b s).
  assert (tr `prefix_of` tr1) as Htr1 by apply prefix_app_r, reflexivity.
  unfold io_bind at 1. unfold raw_input at 1. simpl.
  destruct inp as [|selection inp].
  { (* end of input at the selection *)
    do 2 eexists. split; [done|]. split_and!; simpl; try done.
    - split_and!; simpl; [apply grows_refl|done| |done].
      by apply prefix_app_r.
    - by right. }
  unfold record, set_stdin. simpl.
  set (tr2 := tr1 ++ [Prompted "Enter selection: "]).
  assert (tr `prefix_of` tr2) as Htr2 by by apply prefix_app_r.
  assert (∀ w2, game_board w2 = b → stdin w2 `suffix_of` inp →
            tr2 `prefix_of` trace w2 → writable w2 = wr →
            extends (mkWorld b (selection :: inp) tr wr) w2) as Hext.
  { intros [b2 inp2 tr3 wr2]. simpl. intros -> Hin Ht ->.
    split_and!; simpl; [apply grows_refl| |by etrans|done].
    by apply suffix_cons_r. }
  assert (∀ w2, game_board w2 = b → stdin w2 `suffix_of` inp →
            tr2 `prefix_of` trace w2 → writable w2 = wr →
            ∃ o w', Game_run fuel w2 = Some (o, w') ∧
                    run_facts (mkWorld b (selection :: inp) tr wr) o w')
    as Hnext.
  { intros w2 Hb Hin Ht Hw.
    destruct (IH w2) as (o & w' & Hrun & Hfacts).
    - by rewrite Hb.
    - rewrite Hb. apply suffix_length in Hin. simpl in Hfuel. lia.
    - exists o, w'. split; [done|].
      apply (run_facts_step _ w2); simpl; try done.
      + by apply Hext.
      + by rewrite Hb.
    }
  case_bool_decide as Hsel1.
  { (* save *)
    unfold io_bind at 1. unfold raw_input at 1. simpl.
    destruct inp as [|filename inp].
    { do 2 eexists. split; [done|]. split_and!; simpl; try done; [|by right].
      apply Hext; simpl; try done. by apply prefix_app_r. }
    unfold record, set_stdin. simpl. unfold io_bind at 1.
    destruct (save_step filename
                (mkWorld b inp (tr2 ++ [Prompted "Enter filename: "]) wr))
      as (evs & -> & _); [done|]. simpl.
    apply Hnext; simpl; try done.
    - by apply suffix_cons_r.
    - rewrite <- app_assoc. by apply prefix_app_r. }
  case_bool_decide as Hsel2.
  { (* exit *)
    unfold print, record. simpl. do 2 eexists. split; [done|].
    split_and!; simpl; try done.
    - apply Hext; simpl; try done. by apply prefix_app_r.
    - by left.
    - intros _. apply last_snoc. }
  assert (∃ o w', (exec print "Illegal choice" in Game_run fuel)
                    (mkWorld b inp tr2 wr) = Some (o, w') ∧
                  run_facts (mkWorld b (selection :: inp) tr wr) o w')
    as Hchoice.
  { unfold io_bind, print, record. simpl.
    apply Hnext; simpl; try done. by apply prefix_app_r. }
  unfold io_bind at 1.
  case_bool_decide as Hsel3; [|exact Hchoice].
  unfold io_bind at 1. unfold lift. simpl. rewrite Hs. simpl.
  unfold set_game_board. simpl.
  case_bool_decide as Hplaying; [|exact Hchoice].
  (* move *)
  unfold io_bind at 1. unfold raw_input at 1. simpl.
  destruct inp as [|move inp].
  { do 2 eexists. split; [done|]. split_and!; simpl; try done; [|by right].
    apply Hext; simpl; try done. by apply prefix_app_r. }
  unfold record, set_stdin. simpl. unfold io_bind at 1.
  destruct (move_step fuel move
              (mkWorld b inp
                 (tr2 ++ [Prompted "Enter row then column (space separated): "])
                 wr))
    as (b' & evs & -> & Hgrows & Hreach); [simpl in *; lia|].
  simpl in Hgrows, Hreach.
  destruct (IH (mkWorld b' inp
                  ((tr2 ++ [Prompted "Enter row then column (space separated): "])
                   ++ evs) wr))
    as (o & w' & Hrun & Hfacts); simpl.
  - by eapply grows_wf.
  - destruct Hgrows as (_ & _ & _ & -> & _). simpl in Hfuel. lia.
  - exists o, w'. split; [done|].
    eapply run_facts_step; [| | |exact Hfacts]; simpl.
    + split_and!; simpl; [done| |by do 2 apply prefix_app_r|done].
      by do 2 apply suffix_cons_r.
    + done.
    + intros Hover. destruct Hplaying. by eapply game_over_status.
Qed.

(** ** Numbers as text *)

Lemma pretty_N_char_digit (m : N) :
  (m < 10)%N →
  is_digit (pretty_N_char m) = true ∧
  Z.of_nat (int (pretty_N_char m)) = Z.of_N m.
Proof.
  intros Hm.
  assert (m = 0 ∨ m = 1 ∨ m = 2 ∨ m = 3 ∨ m = 4 ∨ m = 5
          ∨ m = 6 ∨ m = 7 ∨ m = 8 ∨ m = 9)%N as H by lia.
  destruct_or!; subst; by vm_compute.
Qed.

Lemma all_digits_cons (a : ascii) (s : string) :
  all_digits (String a s) ↔ is_digit a = true ∧ all_digits s.
Proof. unfold all_digits. simpl. by rewrite Forall_cons. Qed.

Lemma pretty_N_go_digits (x : N) (s : string) :
  all_digits s → all_digits (pretty_N_go x s).
Proof.
  revert s. induction (N.lt_wf_0 x) as [x _ IH]; intros s Hs.
  destruct (decide (x = 0)%N) as [->|Hx]; [by rewrite pretty_N_go_0|].
  rewrite pretty_N_go_step by lia. apply IH.
  - apply N.div_lt; lia.
  - apply all_digits_cons. split; [|done].
    apply pretty_N_char_digit, N.mod_lt. lia.
Qed.

Lemma pretty_N_go_nonempty (x : N) (s : string) :
  (0 < x)%N ∨ s ≠ "" → pretty_N_go x s ≠ "".
Proof.
  revert s. induction (N.lt_wf_0 x) as [x _ IH]; intros s Hs.
  destruct (decide (x = 0)%N) as [->|Hx].
  - rewrite pretty_N_go_0. destruct Hs as [?|?]; [lia|done].
  - rewrite pretty_N_go_step by lia. apply IH; [apply N.div_lt; lia|].
    by right.
Qed.

Lemma pretty_N_go_value (x : N) (s : string) :
  digits_value (pretty_N_go x s) 0 = digits_value s (Z.of_N x).
Proof.
  revert s. induction (N.lt_wf_0 x) as [x _ IH]; intros s.
  destruct (decide (x = 0)%N) as [->|Hx]; [by rewrite pretty_N_go_0|].
  rewrite pretty_N_go_step by lia. rewrite IH by (apply N.div_lt; lia).
  destruct (pretty_N_char_digit (x `mod` 10)) as [Hd Hv];
    [apply N.mod_lt; lia|].
  cbn [digits_value]. rewrite Hd, Hv. f_equal.
  rewrite (N.div_mod x 10) at 3 by lia. lia.
Qed.

Lemma pretty_pos_facts (p : positive) :
  pretty (Z.pos p) = pretty_N_go (N.pos p) "" ∧
  all_digits (pretty (Z.pos p)) ∧ pretty (Z.pos p) ≠ "".
Proof.
  assert (pretty (Z.pos p) = pretty_N_go (N.pos p) "") as ->.
  { unfold pretty at 1, pretty_Z, pretty, pretty_positive, pretty, pretty_N.
    by rewrite decide_False by done. }
  split_and!; [done| |].
  - apply pretty_N_go_digits. constructor.
  - apply pretty_N_go_nonempty. left. lia.
Qed.

Lemma digit_not_sign (a : ascii) :
  is_digit a = true → a ≠ "+"%char ∧ a ≠ "-"%char ∧ a ≠ ","%char
                      ∧ is_space a = false.
Proof.
  unfold is_digit. intros H%bool_decide_eq_true.
  rewrite !elem_of_cons, elem_of_nil in H. destruct_or!; subst; done.
Qed.

(** [int] reads back what [str] writes of an integer. *)
Lemma int_of_str_pretty (z : Z) : int_of_str (pretty z) = Some z.
Proof.
  destruct z as [|p|p]; [done| |].
  - destruct (pretty_pos_facts p) as (Hp & Hd & Hne).
    destruct (pretty (Z.pos p)) as [|a s] eqn:Hs; [done|].
    apply all_digits_cons in Hd as [Ha _].
    apply digit_not_sign in Ha as (Hplus & Hminus & _).
    unfold int_of_str. rewrite !bool_decide_eq_false_2 by done.
    by rewrite Hp, pretty_N_go_value.
  - destruct (pretty_pos_facts p) as (Hp & Hd & Hne).
    change (pretty (Z.neg p)) with (String "-" (pretty (Z.pos p))).
    unfold int_of_str. rewrite bool_decide_eq_false_2 by done.
    rewrite bool_decide_eq_true_2 by done.
    destruct (pretty (Z.pos p)) as [|a s] eqn:Hs; [done|].
    by rewrite Hp, pretty_N_go_value.
Qed.

Lemma no_space_pretty (z : Z) : no_space (pretty z) ∧ pretty z ≠ "".
Proof.
  assert (∀ s, all_digits s → no_space s) as Hdigits.
  { intros s. unfold all_digits, no_space. intros H.
    eapply Forall_impl; [exact H|].
    intros a Ha. by destruct (digit_not_sign a Ha) as (_ & _ & _ & ?). }
  destruct z as [|p|p].
  - change (pretty 0) with "0". split; [|done].
    unfold no_space. simpl. by repeat constructor.
  - destruct (pretty_pos_facts p) as (_ & Hd & Hne).
    split; [by apply Hdigits|done].
  - destruct (pretty_pos_facts p) as (_ & Hd & Hne).
    change (pretty (Z.neg p)) with (String "-" (pretty (Z.pos p))).
    split; [|done]. unfold no_space. simpl. constructor; [done|].
    by apply Hdigits.
Qed.

Lemma split_go_no_space (s t : string) :
  no_space s →
  split_go (s +:+ t) = (s +:+ (split_go t).1, (split_go t).2).
Proof.
  unfold no_space. induction s as [|a s IH]; simpl.
  - intros _. rewrite !string_app_nil_l. by destruct (split_go t).
  - rewrite Forall_cons. intros [Ha Hs]. rewrite !string_app_cons.
    cbn [split_go]. rewrite IH by done. by rewrite Ha.
Qed.

(** [split] takes apart two words that were put together with one
    space. *)
Lemma split_whitespace_pair (x y : string) :
  no_space x → x ≠ "" → no_space y → y ≠ "" →
  split_whitespace (x +:+ " " +:+ y) = [x; y].
Proof.
  intros Hx Hxne Hy Hyne. unfold split_whitespace.
  rewrite split_go_no_space by done.
  change (" " +:+ y) with (String " " y). cbn [split_go].
  pose proof (split_go_no_space y "" Hy) as Hgo.
  rewrite string_app_nil_r in Hgo. rewrite Hgo. simpl.
  rewrite !string_app_nil_r. destruct y; [done|]. by destruct x.
Qed.

Lemma replace_app (old new : ascii) (s t : string) :
  replace old new (s +:+ t) = replace old new s +:+ replace old new t.
Proof.
  induction s as [|a s IH]; [done|]. rewrite string_app_cons. simpl.
  by rewrite IH, string_app_cons.
Qed.

Lemma replace_digits (s : string) :
  all_digits s → replace "," " " s = s.
Proof.
  unfold all_digits. induction s as [|a s IH]; simpl; [done|].
  rewrite Forall_cons. intros [Ha Hs]. rewrite IH by done.
  apply digit_not_sign in Ha as (_ & _ & Ha & _).
  by rewrite bool_decide_eq_false_2 by done.
Qed.

Lemma replace_join (l : list string) :
  Forall all_digits l →
  replace "," " " (join ", " l) = join "  " l.
Proof.
  induction 1 as [|s l Hs Hl IH]; [done|].
  destruct l as [|t l]; [by apply replace_digits|].
  change (join ", " (s :: t :: l)) with (s +:+ ", " +:+ join ", " (t :: l)).
  change (join "  " (s :: t :: l)) with (s +:+ "  " +:+ join "  " (t :: l)).
  by rewrite !replace_app, IH, replace_digits.
Qed.

Lemma drop_last_snoc (s : string) (a : ascii) :
  drop_last (s +:+ String a "") = s.
Proof.
  induction s as [|c s IH]; [done|]. rewrite string_app_cons.
  cbn [drop_last]. rewrite IH. by destruct s.
Qed.

(** The first line of the menu: the numbers of the columns, two spaces
    before each of them. *)
Theorem indexing_spec (columns : Z) :
  indexing columns = "  " +:+ join "  " (pretty <$> range columns).
Proof.
  unfold indexing, str_list. f_equal.
  change ("[" +:+ ?s) with (String "[" s). cbn [slice_1_m1].
  rewrite drop_last_snoc. apply replace_join.
  apply Forall_fmap, Forall_forall. intros c [Hc _]%elem_of_range.
  unfold compose. destruct c as [|p|p]; [|apply pretty_pos_facts|lia].
  change (pretty 0) with "0". unfold all_digits. simpl. by repeat constructor.
Qed.

(** ** What the game loop does *)

(** On a board whose grid is complete the loop ends, whatever is typed:
    either it returns, and the last thing printed is the farewell, or the
    input ran out and [EOFError] is raised; no other exception leaves
    it.  The board only gains uncovered cells, input is only consumed and
    the trace only grows. *)
Theorem Game_run_returns (fuel : nat) (w : World) :
  grid_exact (game_board w) →
  (length (stdin w) + size (board (game_board w)) < fuel)%nat →
  ∃ o w', Game_run fuel w = Some (o, w') ∧ extends w w' ∧
    ((o = Done tt ∧ last (trace w') = Some (Printed "Goodbye :)"))
     ∨ (o = Failed EOFError ∧ stdin w' = [])).
Proof.
  intros Hgrid Hfuel.
  destruct (Game_run_facts fuel w Hgrid Hfuel)
    as (o & w' & Hrun & Hext & Hout & Hlast & _).
  exists o, w'. split_and!; [done|done|].
  destruct Hout as [->|?]; [left|by right]. split; [done|by apply Hlast].
Qed.

(** Once the game is won or lost, nothing that is typed changes the
    board any more. *)
Theorem Game_run_game_over (fuel : nat) (w : World) :
  grid_exact (game_board w) →
  (length (stdin w) + size (board (game_board w)) < fuel)%nat →
  game_over (game_board w) →
  ∃ o w', Game_run fuel w = Some (o, w') ∧ game_board w' = game_board w.
Proof.
  intros Hgrid Hfuel Hover.
  destruct (Game_run_facts fuel w Hgrid Hfuel)
    as (o & w' & Hrun & _ & _ & _ & _ & Hsame).
  exists o, w'. split; [done|by apply Hsame].
Qed.

(** The loop keeps the board among the boards that the methods reach. *)
Theorem Game_run_reachable (fuel : nat) (w : World) :
  reachable (game_board w) →
  (length (stdin w) + size (board (game_board w)) < fuel)%nat →
  ∃ o w', Game_run fuel w = Some (o, w') ∧ reachable (game_board w').
Proof.
  intros Hreach Hfuel.
  destruct (Game_run_facts fuel w) as (o & w' & Hrun & _ & _ & _ & Hr & _);
    [by apply reachable_wf|done|].
  exists o, w'. split; [done|by apply Hr].
Qed.

(** A turn of the loop that moves.  When the game is not over and the
    answers are 3 and then a row and a column as [str] writes them, the
    turn is the menu, the two prompts and [make_move] at that cell; it
    prints that the move is illegal exactly when [make_move] raises. *)
Theorem Game_run_move (fuel : nat) (w : World) (r c : Z)
  (rest : list string) (o : outcome string) (b' : Board) :
  grid_exact (game_board w) →
  stdin w = "3" :: (pretty r +:+ " " +:+ pretty c) :: rest →
  ¬ game_over (game_board w) →
  make_move fuel r c (game_board w) = Some (o, b') →
  ∃ s, get_status (game_board w) = (Return s, game_board w) ∧
    Game_run (S fuel) w =
    Game_run fuel
      (mkWorld b' rest
         (trace w ++ menu_events (game_board w) s
          ++ [Prompted "Enter selection: ";
              Prompted "Enter row then column (space separated): "]
          ++ match o with
             | Return _ => []
             | Raise _ => [Printed "Illegal move values"]
             end)
         (writable w)).
Proof.
  intros Hgrid Hin Hover Hmove.
  destruct (printMenu_run w Hgrid) as (s & Hs & Hp).
  exists s. split; [done|].
  assert (s ∉ [Win; Lose]) as Hplaying.
  { rewrite !not_elem_of_cons. split_and!; [| |apply not_elem_of_nil];
      intros ->; apply Hover; [by left|by right]. }
  rewrite Game_run_S. unfold io_bind at 1. rewrite Hp.
  destruct w as [b inp tr wr]. simpl in *. subst inp.
  unfold io_bind at 1. unfold raw_input at 1. simpl.
  unfold io_bind at 1. unfold io_bind at 1. unfold lift. simpl.
  rewrite Hs. simpl. rewrite (bool_decide_eq_true_2 _ Hplaying).
  unfold io_bind at 1. unfold raw_input at 1. simpl.
  unfold io_bind at 1. unfold try_except, try_except_else, move_to.
  rewrite split_whitespace_pair by apply no_space_pretty.
  unfold io_bind, int_str. rewrite !int_of_str_pretty.
  unfold lift_fuel. simpl. rewrite Hmove.
  destruct o as [v|e]; simpl; unfold record, set_game_board, set_stdin; simpl;
    f_equal; f_equal; unfold menu_events;
    by repeat (rewrite <- app_assoc || cbn [app]).
Qed.

(** A turn of the loop that saves.  When the answers are 1 and then a
    file name, the turn is the menu, the two prompts and, when the file
    can be written, the text of [save_board]; the board stays as it
    is. *)
Theorem Game_run_save (fuel : nat) (w : World) (filename : string)
  (rest : list string) :
  grid_exact (game_board w) →
  stdin w = "1" :: filename :: rest →
  ∃ s document,
    get_status (game_board w) = (Return s, game_board w) ∧
    save_board (game_board w) = (Return document, game_board w) ∧
    Game_run (S fuel) w =
    Game_run fuel
      (mkWorld (game_board w) rest
         (trace w ++ menu_events (game_board w) s
          ++ [Prompted "Enter selection: "; Prompted "Enter filename: "]
          ++ (if writable w filename
              then [Saved filename document; Printed "Save operation done"]
              else [Printed "Save operation failed"]))
         (writable w)).
Proof.
  intros Hgrid Hin.
  destruct (printMenu_run w Hgrid) as (s & Hs & Hp).
  destruct w as [b inp tr wr]. cbn [game_board stdin trace writable] in *.
  subst inp.
  destruct (save_step filename
              (mkWorld b rest
                 (((tr ++ menu_events b s) ++ [Prompted "Enter selection: "])
                  ++ [Prompted "Enter filename: "]) wr))
    as (evs & Hsave & document & Hdoc & ->); [done|].
  cbn [game_board stdin trace writable] in *.
  exists s, document. split_and!; [done|done|].
  rewrite Game_run_S. unfold io_bind at 1. rewrite Hp.
  unfold io_bind at 1. unfold raw_input at 1. simpl.
  unfold io_bind at 1. unfold raw_input at 1. simpl.
  unfold io_bind at 1. unfold record, set_stdin. simpl.
  rewrite Hsave. f_equal. f_equal. unfold menu_events.
  by repeat (rewrite <- app_assoc || cbn [app]).
Qed.

(** ** Deciding the further predicates *)

Lemma consistent_Forall (b : Board) :
  consistent b ↔
  map_Forall (λ p v, match v with
                     | Num n => n = mined_neighbors (board b) p
                     | Mine => True
                     end) (board b).
Proof.
  unfold consistent, map_Forall. split.
  - intros H p [n|] Hp; [by apply H|done].
  - intros H p n Hp. apply (H p (Num n) Hp).
Qed.

Global Instance counted_dec (g : gmap cell value) (p : cell) (v : value) :
  Decision (match v with
            | Num n => n = mined_neighbors g p
            | Mine => True
            end).
Proof. destruct v; apply _. Defined.

Global Instance consistent_dec (b : Board) : Decision (consistent b).
Proof.
  refine (cast_if (decide (map_Forall (λ p v,
            match v with
            | Num n => n = mined_neighbors (board b) p
            | Mine => True
            end) (board b))));
    by rewrite consistent_Forall.
Defined.

Global Instance uncovered_mine_dec (b : Board) : Decision (uncovered_mine b).
Proof.
  refine (cast_if (decide (Exists (λ p, board b !! p = Some Mine)
                                  (uncovered b))));
    unfold uncovered_mine; by rewrite Exists_exists in *.
Defined.

(** ** The theorems at the sample boards *)

Ltac by_computation :=
  first [ vm_compute; reflexivity
        | vm_compute; lia
        | vm_compute; intuition lia
        | apply (bool_decide_unpack _); vm_compute; exact I ].

Lemma alternating_in_range : in_range alternating.
Proof.
  intros n lo hi Hle. unfold alternating.
  pose proof (Z.mod_pos_bound (Z.of_nat n / 2) (hi - lo + 1)). lia.
Qed.

Lemma alternating_fair : fair alternating fresh_1x2 0.
Proof.
  intros m [pr pc] [Hr Hc]. simpl in *.
  exists (m + Z.to_nat pc)%nat. unfold alternating. split.
  - rewrite Z.mod_1_r. lia.
  - Z.div_mod_to_equations. lia.
Qed.

Lemma get_status_spec_witness :
  ∃ s, get_status corner_mine_won = (Return s, corner_mine_won) ∧
    (s = NotStarted ↔ uncovered corner_mine_won = []) ∧
    (s = Lose ↔ uncovered corner_mine_won ≠ [] ∧ uncovered_mine corner_mine_won) ∧
    (s = Win ↔ uncovered corner_mine_won ≠ [] ∧ ¬ uncovered_mine corner_mine_won ∧
               ∀ p, p ∈ uncovered corner_mine_won
                    ↔ ∃ n, board corner_mine_won !! p = Some (Num n)) ∧
    (s = InProgress ↔ uncovered corner_mine_won ≠ [] ∧
               ¬ uncovered_mine corner_mine_won ∧
               ¬ ∀ p, p ∈ uncovered corner_mine_won
                      ↔ ∃ n, board corner_mine_won !! p = Some (Num n)).
Proof. apply (get_status_spec corner_mine_won); by_computation. Defined.

Lemma make_move_spec_witness :
  ∃ v b', board corner_mine !! (2, 2) = Some v ∧
    make_move 10 2 2 corner_mine = Some (Return (str v), b') ∧
    String.length (str v) = 1%nat ∧
    rows b' = rows corner_mine ∧ columns b' = columns corner_mine ∧
    board b' = board corner_mine ∧ startState b' = startState corner_mine ∧
    (v = Mine →
       str v = "*" ∧ uncovered b' = uncovered corner_mine ++ [(2, 2)]) ∧
    (v ≠ Mine →
       ∃ seq, ripple_sequence 10 2 2 corner_mine = Some (Return seq, corner_mine) ∧
              uncovered b' = uncovered corner_mine ++ (2, 2) :: seq).
Proof. apply (make_move_spec corner_mine 2 2 10); by_computation. Defined.

Lemma ripple_sequence_bfs_witness :
  ∃ seq, ripple_sequence 10 2 2 corner_mine = Some (Return seq, corner_mine) ∧
    (board corner_mine !! (2, 2) ≠ Some (Num 0) → seq = []) ∧
    (∀ F, (size (board corner_mine) < F)%nat →
       ripple_spec F corner_mine (2, 2) = Some seq) ∧
    NoDup seq ∧
    (∀ p, p ∈ seq →
       in_bounds corner_mine p ∧ p ≠ (2, 2) ∧ (p ∉ uncovered corner_mine) ∧
       ∃ z, (z = (2, 2) ∨ z ∈ seq) ∧ board corner_mine !! z = Some (Num 0)
            ∧ p ∈ clockwise_ring z).
Proof. apply (ripple_sequence_bfs corner_mine 2 2 10); by_computation. Defined.

Lemma ripple_uncover_never_illegal_witness :
  ∃ b1 seq,
    uncover 2 2 corner_mine = (Return tt, b1) ∧
    ripple_sequence 10 2 2 b1 = Some (Return seq, b1) ∧
    NoDup seq ∧
    (∀ i p, seq !! i = Some p →
       (p ∉ uncovered b1 ++ take i seq) ∧
       uncover p.1 p.2 (set_uncovered (uncovered b1 ++ take i seq) b1) =
         (Return tt, set_uncovered (uncovered b1 ++ take (S i) seq) b1)) ∧
    uncover_all seq b1 = (Return tt, set_uncovered (uncovered b1 ++ seq) b1) ∧
    (∀ o b', make_move 10 2 2 corner_mine = Some (o, b') →
       o ≠ Raise IllegalMoveException).
Proof.
  apply (ripple_uncover_never_illegal corner_mine 2 2 10); by_computation.
Defined.

Lemma ripple_sequence_terminates_witness :
  ∃ o, ripple_sequence 10 2 2 corner_mine = Some (o, corner_mine) ∧
    (∀ seq, o = Return seq →
       NoDup seq ∧
       (∀ p, p ∈ seq → is_Some (board corner_mine !! p)) ∧
       (length seq ≤ size (board corner_mine))%nat ∧
       (grid_exact corner_mine →
        Z.of_nat (length seq) ≤ rows corner_mine * columns corner_mine)) ∧
    (∀ r c sequence queue,
       ∃ new, ripple_visit corner_mine (2, 2) (ripple_neighbors r c)
                sequence queue = (sequence ++ new, queue ++ new) ∧
              NoDup new ∧
              ∀ p, p ∈ new → is_Some (board corner_mine !! p) ∧ p ∉ sequence).
Proof. apply (ripple_sequence_terminates corner_mine 2 2 10); by_computation. Defined.

Lemma load_board_raise_unchanged_witness :
  corner_mine = corner_mine ∧
  (DimensionsMismatchException = BoardFormatException
   ∨ DimensionsMismatchException = DimensionsMismatchException).
Proof.
  apply (load_board_raise_unchanged ["0H 1H"; ""; " 1H *S "] corner_mine
           corner_mine DimensionsMismatchException).
  vm_compute. reflexivity.
Defined.

Lemma save_load_roundtrip_witness :
  ∃ lines b',
    save_body corner_mine_won = (Return lines, corner_mine_won) ∧
    load_board lines fresh_3x3 = (Return tt, b') ∧
    board b' = board corner_mine_won ∧
    (∀ p, p ∈ uncovered b' ↔ p ∈ uncovered corner_mine_won) ∧
    rows b' = rows corner_mine_won ∧ columns b' = columns corner_mine_won.
Proof. apply (save_load_roundtrip corner_mine_won fresh_3x3); by_computation. Defined.

Lemma put_mines_spec_witness :
  (scatter_refused fresh_1x2 1 ↔ 1 < 1 ∨ 1 > 1 * 2 - 1) ∧
  (∀ fuel, scatter_refused fresh_1x2 1 →
     put_mines alternating fuel 1 0 fresh_1x2
     = Some (Raise ScatterException, fresh_1x2, 0%nat)) ∧
  (∀ fuel b' n',
     put_mines alternating fuel 1 0 fresh_1x2
     = Some (Raise ScatterException, b', n') →
     scatter_refused fresh_1x2 1 ∧ b' = fresh_1x2) ∧
  (∀ fuel b' n',
     put_mines alternating fuel 1 0 fresh_1x2 = Some (Return tt, b', n') →
     1 ≤ 1 ≤ 1 * 2 - 1 ∧
     Z.of_nat (size (mined_cells (board b'))) = 1 ∧
     (∀ p m, board b' !! p = Some (Num m) →
             m = mined_neighbors (board b') p) ∧
     dom (board b') = dom (board fresh_1x2) ∧
     rows b' = 1 ∧ columns b' = 2 ∧ uncovered b' = [] ∧
     startState b' = false ∧
     ∀ rnd2 fuel2 mines2 n2,
       put_mines rnd2 fuel2 mines2 n2 b'
       = Some (Raise ScatterException, b', n2)) ∧
  (in_range alternating → fair alternating fresh_1x2 0 → 1 ≤ 1 ≤ 1 * 2 - 1 →
   ∃ fuel b' n', ∀ d,
     put_mines alternating (fuel + d) 1 0 fresh_1x2
     = Some (Return tt, b', n')).
Proof. apply (put_mines_spec alternating 1 2 fresh_1x2 1 0). by_computation. Defined.

Lemma uncover_then_uncover_witness :
  is_hidden 2 2 corner_mine = (Return "H", corner_mine) ∧
  is_hidden 2 2 corner_mine_22 = (Return "S", corner_mine_22) ∧
  uncover 2 2 corner_mine_22 = (Raise IllegalMoveException, corner_mine_22) ∧
  (∀ r' c', fst (get_value r' c' corner_mine_22)
            = fst (get_value r' c' corner_mine)) ∧
  (∀ r' c', (r', c') ≠ (2, 2) →
            fst (is_hidden r' c' corner_mine_22)
            = fst (is_hidden r' c' corner_mine)).
Proof.
  apply (uncover_then_uncover 2 2 corner_mine corner_mine_22). by_computation.
Defined.

Lemma make_move_cases_witness :
  match board corner_mine !! (2, 2) with
  | None =>
      make_move 10 2 2 corner_mine
      = Some (Raise IllegalIndicesException, corner_mine)
  | Some v =>
      if bool_decide ((2, 2) ∈ uncovered corner_mine)
      then make_move 10 2 2 corner_mine
           = Some (Raise IllegalMoveException, corner_mine)
      else ∃ b', make_move 10 2 2 corner_mine = Some (Return (str v), b')
  end.
Proof. apply (make_move_cases 10 2 2 corner_mine). by_computation. Defined.

Lemma make_move_only_appends_witness :
  rows corner_mine_won = rows corner_mine ∧
  columns corner_mine_won = columns corner_mine ∧
  startState corner_mine_won = startState corner_mine ∧
  board corner_mine_won = board corner_mine ∧
  uncovered corner_mine `prefix_of` uncovered corner_mine_won ∧
  (NoDup (uncovered corner_mine) → NoDup (uncovered corner_mine_won)).
Proof.
  apply (make_move_only_appends 10 2 2 corner_mine corner_mine_won
           (Return "0")).
  by_computation.
Defined.

Lemma make_move_on_mine_witness :
  ∃ b', make_move 10 0 0 corner_mine = Some (Return "*", b') ∧
        uncovered b' = uncovered corner_mine ++ [(0, 0)] ∧
        get_status b' = (Return Lose, b').
Proof. apply (make_move_on_mine 10 0 0 corner_mine); by_computation. Defined.

Lemma lose_is_final_witness :
  get_status corner_mine_lost_22 = (Return Lose, corner_mine_lost_22).
Proof.
  apply (lose_is_final 10 2 2 corner_mine_lost corner_mine_lost_22
           (Return "0")); by_computation.
Defined.

Lemma move_after_win_loses_witness :
  "*" = "*" ∧
  get_status corner_mine_won_lost = (Return Lose, corner_mine_won_lost).
Proof.
  apply (move_after_win_loses 10 0 0 corner_mine_won corner_mine_won_lost);
    by_computation.
Defined.

Lemma make_move_on_number_witness :
  make_move 10 1 1 corner_mine =
  Some (Return (pretty (S 0)),
        set_uncovered (uncovered corner_mine ++ [(1, 1)]) corner_mine).
Proof. apply (make_move_on_number 10 1 1 corner_mine 0); by_computation. Defined.

Lemma ripple_sequence_closed_witness : (1, 2) = (2, 2) ∨ (1, 2) ∈ ripple_22.
Proof.
  apply (ripple_sequence_closed 10 2 2 corner_mine corner_mine ripple_22)
    with (z := (2, 2)); by_computation.
Defined.

Lemma safe_move_uncovers_no_mine_witness :
  (∀ p, p ∈ uncovered corner_mine_won →
        board corner_mine_won !! p ≠ Some Mine) ∧
  (get_status corner_mine_won = (Return Win, corner_mine_won)
   ∨ get_status corner_mine_won = (Return InProgress, corner_mine_won)).
Proof.
  apply (safe_move_uncovers_no_mine 10 2 2 corner_mine corner_mine_won 0 "0");
    by_computation.
Defined.

Lemma make_move_reveals_neighbors_witness : (1, 2) ∈ uncovered corner_mine_won.
Proof.
  apply (make_move_reveals_neighbors 10 2 2 corner_mine corner_mine_won "0")
    with (z := (2, 2)); by_computation.
Defined.

Lemma put_mines_any_board_witness :
  (Return tt = Raise ScatterException ↔ scatter_refused fresh_1x2 1) ∧
  (scatter_refused fresh_1x2 1 → mined_1x2 = fresh_1x2 ∧ 2%nat = 0%nat) ∧
  rows mined_1x2 = rows fresh_1x2 ∧ columns mined_1x2 = columns fresh_1x2 ∧
  uncovered mined_1x2 = uncovered fresh_1x2 ∧
  dom (board mined_1x2) = dom (board fresh_1x2) ∧
  (∀ p, board fresh_1x2 !! p = Some Mine → board mined_1x2 !! p = Some Mine) ∧
  (Return tt = Return tt →
     startState mined_1x2 = false ∧ consistent mined_1x2 ∧
     size (mined_cells (board mined_1x2)) =
       (size (mined_cells (board fresh_1x2)) + Z.to_nat 1)%nat) ∧
  (Board_wf fresh_1x2 → in_range alternating →
   Return tt = Return tt ∨ Return tt = Raise ScatterException).
Proof.
  apply (put_mines_any_board alternating 10 1 0 fresh_1x2 mined_1x2 2
           (Return tt)).
  by_computation.
Defined.


Lemma reachable_invariant_witness :
  Board_wf fresh_3x3 ∧ NoDup (uncovered fresh_3x3).
Proof.
  apply (reachable_invariant fresh_3x3). apply (reach_init 3 3).
  by_computation.
Defined.

Lemma out_of_bounds_rejected_witness :
  (¬ in_bounds corner_mine (3, 0) →
     get_value 3 0 corner_mine = (Raise IllegalIndicesException, corner_mine) ∧
     is_hidden 3 0 corner_mine = (Raise IllegalIndicesException, corner_mine) ∧
     uncover 3 0 corner_mine = (Raise IllegalIndicesException, corner_mine) ∧
     ripple_sequence 10 3 0 corner_mine
     = Some (Raise IllegalIndicesException, corner_mine) ∧
     make_move 10 3 0 corner_mine
     = Some (Raise IllegalIndicesException, corner_mine)) ∧
  (in_bounds corner_mine (3, 0) →
     (∃ v, get_value 3 0 corner_mine = (Return v, corner_mine)) ∧
     (∃ h, is_hidden 3 0 corner_mine = (Return h, corner_mine) ∧
           (h = "H" ∨ h = "S") ∧
           (h = "S" ↔ (3, 0) ∈ uncovered corner_mine))).
Proof. apply (out_of_bounds_rejected 10 3 0 corner_mine). by_computation. Defined.

Lemma get_status_frame_witness :
  corner_mine = corner_mine ∧
  (Return NotStarted = Return NotStarted ↔ uncovered corner_mine = []) ∧
  (∀ e, Return NotStarted = Raise e →
        e = IllegalIndicesException ∧
        ∃ p, in_bounds corner_mine p ∧ board corner_mine !! p = None).
Proof.
  apply (get_status_frame corner_mine corner_mine (Return NotStarted)).
  by_computation.
Defined.

Lemma load_board_layout_witness :
  load_board ([] ++ ("  " +:+ "0H 0S" +:+ "
") :: []) fresh_1x2
  = load_board ([] ++ "0H 0S" :: []) fresh_1x2 ∧
  load_board ([] ++ "  " :: []) fresh_1x2 = load_board ([] ++ []) fresh_1x2.
Proof.
  apply (load_board_layout [] [] "  " "0H 0S" "
" fresh_1x2); by_computation.
Defined.

Lemma load_then_save_witness :
  save_board loaded_1x2 =
  (Return ([pretty (rows fresh_1x2) +:+ "
"; pretty (columns fresh_1x2) +:+ "
"]
           ++ ((λ l, l +:+ " " +:+ "
") <$> kept_lines [" 0H 0S "; ""])),
   loaded_1x2).
Proof.
  apply (load_then_save [" 0H 0S "; ""] fresh_1x2 loaded_1x2). by_computation.
Defined.

Lemma save_board_frame_witness :
  corner_mine_won = corner_mine_won ∧
  (∀ e, Return saved_won = Raise e →
        e = KeyError ∧
        ∃ p, in_bounds corner_mine_won p ∧ board corner_mine_won !! p = None) ∧
  (∀ doc, Return saved_won = Return doc →
          length doc = (2 + Z.to_nat (rows corner_mine_won))%nat) ∧
  ((∀ p, in_bounds corner_mine_won p → is_Some (board corner_mine_won !! p)) →
   ∃ doc, Return saved_won = Return doc).
Proof.
  apply (save_board_frame corner_mine_won corner_mine_won (Return saved_won)).
  by_computation.
Defined.

Lemma save_board_shape_witness :
  ∃ body,
    save_board corner_mine_won =
    (Return ([pretty (rows corner_mine_won) +:+ "
";
              pretty (columns corner_mine_won) +:+ "
"] ++ body),
     corner_mine_won) ∧
    length body = Z.to_nat (rows corner_mine_won) ∧
    ∀ line, line ∈ body →
      String.length line = (3 * Z.to_nat (columns corner_mine_won) + 1)%nat.
Proof. apply (save_board_shape corner_mine_won); by_computation. Defined.

Lemma printMenu_spec_witness :
  ∃ s, get_status (game_board (console corner_mine_won []))
       = (Return s, game_board (console corner_mine_won [])) ∧
    printMenu (console corner_mine_won []) =
    Some (Done tt,
          mkWorld (game_board (console corner_mine_won []))
            (stdin (console corner_mine_won []))
            (trace (console corner_mine_won [])
             ++ menu_events (game_board (console corner_mine_won [])) s)
            (writable (console corner_mine_won []))) ∧
    length (menu_events (game_board (console corner_mine_won [])) s)
    = (Z.to_nat (rows (game_board (console corner_mine_won []))) + 3)%nat ∧
    (last (menu_events (game_board (console corner_mine_won [])) s)
     = Some (Printed "Available actions: (1) Save | (2) Exit | (3) Move")
     ↔ s ≠ Win ∧ s ≠ Lose).
Proof. apply (printMenu_spec (console corner_mine_won [])). by_computation. Defined.

Lemma printMenu_hides_witness :
  ∃ evs,
    printMenu (console corner_mine []) = Some (Done tt,
      mkWorld (game_board (console corner_mine []))
        (stdin (console corner_mine []))
        (trace (console corner_mine []) ++ evs)
        (writable (console corner_mine []))) ∧
    printMenu (console fresh_3x3 ["2"]) = Some (Done tt,
      mkWorld (game_board (console fresh_3x3 ["2"]))
        (stdin (console fresh_3x3 ["2"]))
        (trace (console fresh_3x3 ["2"]) ++ evs)
        (writable (console fresh_3x3 ["2"]))).
Proof.
  apply (printMenu_hides (console corner_mine []) (console fresh_3x3 ["2"])
           NotStarted);
    [by_computation|by_computation|by_computation|by_computation
    |by_computation| |by_computation|by_computation].
  intros p Hp. inversion Hp.
Defined.

Lemma Game_run_returns_witness :
  ∃ o w',
    Game_run 20 (console corner_mine ["3"; "2 2"; "2"]) = Some (o, w') ∧
    extends (console corner_mine ["3"; "2 2"; "2"]) w' ∧
    ((o = Done tt ∧ last (trace w') = Some (Printed "Goodbye :)"))
     ∨ (o = Failed EOFError ∧ stdin w' = [])).
Proof.
  apply (Game_run_returns 20 (console corner_mine ["3"; "2 2"; "2"]));
    by_computation.
Defined.

Lemma Game_run_game_over_witness :
  ∃ o w',
    Game_run 20 (console corner_mine_won ["3"; "0 0"; "2"]) = Some (o, w') ∧
    game_board w' = game_board (console corner_mine_won ["3"; "0 0"; "2"]).
Proof.
  apply (Game_run_game_over 20 (console corner_mine_won ["3"; "0 0"; "2"]));
    [by_computation|by_computation|left; by_computation].
Defined.

Lemma Game_run_reachable_witness :
  ∃ o w',
    Game_run 20 (console fresh_3x3 ["3"; "1 1"]) = Some (o, w') ∧
    reachable (game_board w').
Proof.
  apply (Game_run_reachable 20 (console fresh_3x3 ["3"; "1 1"]));
    [apply (reach_init 3 3)|]; by_computation.
Defined.

Lemma Game_run_move_witness :
  ∃ s, get_status (game_board (console corner_mine ["3"; "2 2"; "2"]))
       = (Return s, game_board (console corner_mine ["3"; "2 2"; "2"])) ∧
    Game_run 10 (console corner_mine ["3"; "2 2"; "2"]) =
    Game_run 9
      (mkWorld corner_mine_won ["2"]
         (trace (console corner_mine ["3"; "2 2"; "2"])
          ++ menu_events (game_board (console corner_mine ["3"; "2 2"; "2"])) s
          ++ [Prompted "Enter selection: ";
              Prompted "Enter row then column (space separated): "]
          ++ match Return "0" with
             | Return _ => []
             | Raise _ => [Printed "Illegal move values"]
             end)
         (writable (console corner_mine ["3"; "2 2"; "2"]))).
Proof.
  apply (Game_run_move 9 (console corner_mine ["3"; "2 2"; "2"]) 2 2 ["2"]
           (Return "0") corner_mine_won);
    [by_computation|by_computation| |by_computation].
  intros [H|H]; vm_compute in H; discriminate H.
Defined.

Lemma Game_run_save_witness :
  ∃ s document,
    get_status (game_board (console corner_mine_won ["1"; "out"; "2"]))
    = (Return s, game_board (console corner_mine_won ["1"; "out"; "2"])) ∧
    save_board (game_board (console corner_mine_won ["1"; "out"; "2"]))
    = (Return document,
       game_board (console corner_mine_won ["1"; "out"; "2"])) ∧
    Game_run 10 (console corner_mine_won ["1"; "out"; "2"]) =
    Game_run 9
      (mkWorld (game_board (console corner_mine_won ["1"; "out"; "2"])) ["2"]
         (trace (console corner_mine_won ["1"; "out"; "2"])
          ++ menu_events
               (game_board (console corner_mine_won ["1"; "out"; "2"])) s
          ++ [Prompted "Enter selection: "; Prompted "Enter filename: "]
          ++ (if writable (console corner_mine_won ["1"; "out"; "2"]) "out"
              then [Saved "out" document; Printed "Save operation done"]
              else [Printed "Save operation failed"]))
         (writable (console corner_mine_won ["1"; "out"; "2"]))).
Proof.
  apply (Game_run_save 9 (console corner_mine_won ["1"; "out"; "2"]) "out"
           ["2"]); by_computation.
Defined.
